(** * Personal Gains Tracker: the analytics aggregation pipeline

    A shallow embedding of the two Analytics screens of the workout
    tracker (window selection, interval generation, bucketed aggregation,
    the reads they issue and their error paths) and of the
    [workout_entries] table they read, with the properties the
    specification states about them.

    Conventions of the model.
    - A calendar date is a record (year, month 1..12, day); a JavaScript
      [Date] is a local wall-clock value: a calendar date and the
      milliseconds elapsed since local midnight.  The local zone is a fixed
      offset from UTC (no daylight-saving changes).
    - The ISO renderings "yyyy-MM-dd" and "yyyy-MM" that the code uses as
      matching keys are kept as the structured keys they denote
      ([DayKey], [MonthKey]); display labels are strings.
    - Decimal quantities (weight_kg, effort) are kept in the store as
      integers counting hundredths, the scale the table declares.  The
      client reads them as binary64 numbers and computes in binary64.
    - A record handed to a chart is a plain object: a finite map of its own
      properties, read and written as JavaScript does, with
      [Object.prototype] behind it. *)

From Stdlib Require Import ZArith Lia Floats Sorting.Sorted.
From stdpp Require Import base option list sorting gmap strings pretty.

Local Open Scope Z_scope.

(** ** Calendar dates *)

Module Calendar.

Record civil := Civil { c_year : Z; c_month : Z; c_day : Z }.

#[global] Instance civil_eq_dec : EqDecision civil.
Proof. solve_decision. Defined.

Definition is_leap (y : Z) : bool :=
  (y mod 4 =? 0) && (negb (y mod 100 =? 0) || (y mod 400 =? 0)).

Definition days_in_month (y m : Z) : Z :=
  if m =? 2 then (if is_leap y then 29 else 28)
  else if (m =? 4) || (m =? 6) || (m =? 9) || (m =? 11) then 30
  else 31.

Definition valid (c : civil) : Prop :=
  1 <= c_month c <= 12 /\ 1 <= c_day c <= days_in_month (c_year c) (c_month c).

(** Chronological order on calendar dates. *)
Definition civil_lt (a b : civil) : Prop :=
  c_year a < c_year b \/
  (c_year a = c_year b /\
   (c_month a < c_month b \/ (c_month a = c_month b /\ c_day a < c_day b))).

Definition civil_le (a b : civil) : Prop := civil_lt a b \/ a = b.

Definition civil_ltb (a b : civil) : bool :=
  (c_year a <? c_year b) ||
  ((c_year a =? c_year b) &&
   ((c_month a <? c_month b) || ((c_month a =? c_month b) && (c_day a <? c_day b)))).

Definition civil_eqb (a b : civil) : bool :=
  (c_year a =? c_year b) && (c_month a =? c_month b) && (c_day a =? c_day b).

Definition civil_leb (a b : civil) : bool := civil_ltb a b || civil_eqb a b.

(** [setDate(getDate() + 1)] and [setDate(getDate() - 1)] on a valid date. *)
Definition next_day (c : civil) : civil :=
  if c_day c <? days_in_month (c_year c) (c_month c)
  then Civil (c_year c) (c_month c) (c_day c + 1)
  else if c_month c <? 12 then Civil (c_year c) (c_month c + 1) 1
  else Civil (c_year c + 1) 1 1.

Definition prev_day (c : civil) : civil :=
  if 1 <? c_day c then Civil (c_year c) (c_month c) (c_day c - 1)
  else if 1 <? c_month c
       then Civil (c_year c) (c_month c - 1) (days_in_month (c_year c) (c_month c - 1))
       else Civil (c_year c - 1) 12 31.

(** An order-preserving rank: distinct valid dates have distinct ranks and
    a later date has a larger one.  It only bounds loop lengths. *)
Definition rank (c : civil) : Z := (c_year c * 12 + c_month c) * 32 + c_day c.

End Calendar.

Import Calendar.

(** ** JavaScript dates and the date-fns functions the screens call *)

Module DateFns.

Definition ms_per_day : Z := 86400000.

(** A [Date], read in local time. *)
Record jsdate := JsDate { date_of : civil; time_of : Z }.

Definition wf_date (d : jsdate) : Prop :=
  valid (date_of d) /\ 0 <= time_of d < ms_per_day.

(** [+a < +b] and [+a <= +b] on time values. *)
Definition date_ltb (a b : jsdate) : bool :=
  civil_ltb (date_of a) (date_of b) ||
  (civil_eqb (date_of a) (date_of b) && (time_of a <? time_of b)).

Definition date_leb (a b : jsdate) : bool := negb (date_ltb b a).

Definition date_le (a b : jsdate) : Prop :=
  civil_lt (date_of a) (date_of b) \/
  (date_of a = date_of b /\ time_of a <= time_of b).

Inductive exn :=
| RangeError (msg : string)
| TypeError (msg : string).

Inductive outcome (A : Type) :=
| Returns (a : A)
| Throws (e : exn).
Arguments Returns {A} a.
Arguments Throws {A} e.

(** [array.map(f)] on the array a call returned, if it returned. *)
Definition outcome_map {A B} (f : A -> B) (o : outcome A) : outcome B :=
  match o with
  | Returns a => Returns (f a)
  | Throws e => Throws e
  end.

(** [addDays]: [setDate(getDate() + amount)], the time of day is kept. *)
Definition shift_days (c : civil) (amount : Z) : civil :=
  if 0 <=? amount then Nat.iter (Z.to_nat amount) next_day c
  else Nat.iter (Z.to_nat (- amount)) prev_day c.

Definition addDays (d : jsdate) (amount : Z) : jsdate :=
  JsDate (shift_days (date_of d) amount) (time_of d).

Definition subDays (d : jsdate) (amount : Z) : jsdate := addDays d (- amount).

(** [addMonths]: move to the desired month and keep the day of the month,
    clamped to the last day of that month. *)
Definition addMonths (d : jsdate) (amount : Z) : jsdate :=
  let c := date_of d in
  let idx := c_year c * 12 + (c_month c - 1) + amount in
  let y' := idx / 12 in
  let m' := idx mod 12 + 1 in
  let daysInMonth := days_in_month y' m' in
  if daysInMonth <=? c_day c
  then JsDate (Civil y' m' daysInMonth) (time_of d)
  else JsDate (Civil y' m' (c_day c)) (time_of d).

Definition subMonths (d : jsdate) (amount : Z) : jsdate := addMonths d (- amount).
Definition addYears (d : jsdate) (amount : Z) : jsdate := addMonths d (amount * 12).
Definition subYears (d : jsdate) (amount : Z) : jsdate := addYears d (- amount).

(** The loop of [eachDayOfInterval]: [currentDate] sits at midnight, is
    pushed while it is not after [endTime], and moves on by one day. *)
Fixpoint day_loop (fuel : nat) (currentDate : civil) (endDate : jsdate)
  : list jsdate :=
  match fuel with
  | O => []
  | S fuel' =>
      if date_leb (JsDate currentDate 0) endDate
      then JsDate currentDate 0 :: day_loop fuel' (next_day currentDate) endDate
      else []
  end.

(** A number of iterations the loop cannot reach before its own condition
    stops it; the result does not depend on it ([day_loop_fuel]). *)
Definition day_fuel (startDate endDate : jsdate) : nat :=
  Z.to_nat (rank (date_of endDate) - rank (date_of startDate) + 1).

(** Modelled from the spec: date-fns is not among the sources; its
    [eachDayOfInterval] yields the start of every day from the day of
    [start] to the day of [end], and a reversed interval is rejected (the
    spec's InvalidRange, date-fns' RangeError "Invalid interval"). *)
Definition eachDayOfInterval (start end_ : jsdate) : outcome (list jsdate) :=
  if date_ltb end_ start then Throws (RangeError "Invalid interval")
  else Returns (day_loop (day_fuel start end_) (date_of start) end_).

Definition next_month (c : civil) : civil :=
  if c_month c <? 12 then Civil (c_year c) (c_month c + 1) (c_day c)
  else Civil (c_year c + 1) 1 (c_day c).

(** The loop of [eachMonthOfInterval]: [currentDate] sits at midnight of the
    first of a month and moves on by [setMonth(getMonth() + 1)]. *)
Fixpoint month_loop (fuel : nat) (currentDate : civil) (endDate : jsdate)
  : list jsdate :=
  match fuel with
  | O => []
  | S fuel' =>
      if date_leb (JsDate currentDate 0) endDate
      then JsDate currentDate 0 ::
           month_loop fuel' (next_month currentDate) endDate
      else []
  end.

Definition month_index (c : civil) : Z := c_year c * 12 + c_month c.

Definition month_fuel (startDate endDate : jsdate) : nat :=
  Z.to_nat (month_index (date_of endDate) - month_index (date_of startDate) + 1).

Definition first_of_month (c : civil) : civil := Civil (c_year c) (c_month c) 1.

Definition first_day (c : civil) : Prop := 1 <= c_month c <= 12 /\ c_day c = 1.

(** Modelled from the spec: date-fns is not among the sources; its
    [eachMonthOfInterval] yields the first day of every month from the month
    of [start] to the month of [end], and a reversed interval is rejected
    (the spec's InvalidRange). *)
Definition eachMonthOfInterval (start end_ : jsdate) : outcome (list jsdate) :=
  if date_ltb end_ start then Throws (RangeError "Invalid interval")
  else Returns (month_loop (month_fuel start end_)
                  (first_of_month (date_of start)) end_).

(** *** [format] *)

Definition month_abbrev (m : Z) : string :=
  match m with
  | 1 => "Jan" | 2 => "Feb" | 3 => "Mar" | 4 => "Apr" | 5 => "May"
  | 6 => "Jun" | 7 => "Jul" | 8 => "Aug" | 9 => "Sep" | 10 => "Oct"
  | 11 => "Nov" | _ => "Dec"
  end%Z.

Fixpoint zeros (n : nat) : string :=
  match n with O => EmptyString | S n' => ("0" +:+ zeros n')%string end.

Definition addLeadingZeros (number : Z) (targetLength : nat) : string :=
  let digits := pretty (Z.to_N (Z.abs number)) in
  let padded := (zeros (targetLength - String.length digits) +:+ digits)%string in
  if number <? 0 then ("-" +:+ padded)%string else padded.

Definition format_year (signedYear : Z) : string :=
  addLeadingZeros (if 0 <? signedYear then signedYear else 1 - signedYear) 4.

(** [format(date, "MMM dd")] and [format(date, "MMM yyyy")]: display labels. *)
Definition format_MMM_dd (d : jsdate) : string :=
  (month_abbrev (c_month (date_of d)) +:+ " " +:+
     addLeadingZeros (c_day (date_of d)) 2)%string.

Definition format_MMM_yyyy (d : jsdate) : string :=
  (month_abbrev (c_month (date_of d)) +:+ " " +:+
     format_year (c_year (date_of d)))%string.

(** The matching keys: an ISO date "yyyy-MM-dd" or a year-month "yyyy-MM". *)
Inductive datekey :=
| DayKey (c : civil)
| MonthKey (y m : Z).

#[global] Instance datekey_eq_dec : EqDecision datekey.
Proof. solve_decision. Defined.

(** [format(date, "yyyy-MM-dd")] and [format(date, "yyyy-MM")]. *)
Definition format_yyyy_MM_dd (d : jsdate) : datekey := DayKey (date_of d).

Definition format_yyyy_MM (d : jsdate) : datekey :=
  MonthKey (c_year (date_of d)) (c_month (date_of d)).

(** Chronological order on keys of one granularity. *)
Definition key_lt (a b : datekey) : Prop :=
  match a, b with
  | DayKey x, DayKey y => civil_lt x y
  | MonthKey y m, MonthKey y' m' => y < y' \/ (y = y' /\ m < m')
  | _, _ => False
  end.

(** [new Date(s)] for a date-only ISO string [s]: midnight UTC of that day,
    read back in the local zone, [tz] milliseconds ahead of UTC. *)
Definition newDate_iso (tz : Z) (c : civil) : jsdate :=
  if 0 <=? tz then JsDate c tz else JsDate (prev_day c) (ms_per_day + tz).

End DateFns.

Import DateFns.

(** ** The relational store behind the generated client *)

Module Store.

(** [public.exercises]. *)
Record exercise := Exercise { id : string; name : string; group_id : string }.

(** [public.workout_entries], each row with the exercise its [exercise_id]
    refers to ([exercises(...)] in a select list); decimals in hundredths. *)
Record entry := Entry {
  exercise_id : string;
  weight_kg : Z;
  reps : Z;
  effort : Z;
  workout_date : civil;
  exercises : option exercise
}.

Record database := Database {
  exercises_table : list exercise;
  workout_entries_table : list entry
}.

(** [effort DECIMAL(8,2) GENERATED ALWAYS AS (weight_kg * reps) STORED]. *)
Definition generated_effort (weight_kg reps : Z) : Z := weight_kg * reps.

(** What the entry form sends: exercise, weight, repetitions, date. *)
Record new_entry := NewEntry {
  ne_exercise_id : string;
  ne_weight_kg : Z;
  ne_reps : Z;
  ne_workout_date : civil
}.

(** An insert is refused when the exercise does not exist or a value does
    not fit its column: DECIMAL(5,2), INTEGER, DECIMAL(8,2). *)
Definition insert_workout_entry (db : database) (n : new_entry)
  : option database :=
  let e := generated_effort (ne_weight_kg n) (ne_reps n) in
  match List.find (fun x => bool_decide (id x = ne_exercise_id n))
          (exercises_table db) with
  | None => None
  | Some ex =>
      if (Z.abs (ne_weight_kg n) <? 100000) &&
         (-2147483648 <=? ne_reps n) && (ne_reps n <=? 2147483647) &&
         (Z.abs e <? 100000000)
      then Some (Database (exercises_table db)
                   (workout_entries_table db ++
                      [Entry (ne_exercise_id n) (ne_weight_kg n) (ne_reps n) e
                         (ne_workout_date n) (Some ex)]))
      else None
  end.

(** Every stored row holds the generated value. *)
Definition stored_ok (db : database) : Prop :=
  Forall (fun e => effort e = generated_effort (weight_kg e) (reps e))
    (workout_entries_table db).

(** Reads, as the query builder describes them.  The select list is kept
    as written; a read returns whole rows, of which a handler uses the
    columns it selected. *)
Inductive filter :=
| F_eq (column value : string)
| F_in (column : string) (values : list string)
| F_gte (column : string) (value : datekey)
| F_lte (column : string) (value : datekey).

Record query := Query {
  q_from : string;
  q_select : string;
  q_filters : list filter;
  q_order : option string
}.

Definition entry_text (column : string) (e : entry) : option string :=
  if bool_decide (column = "exercise_id") then Some (exercise_id e)
  else if bool_decide (column = "exercises.group_id")
       then group_id <$> exercises e
       else None.

Definition exercise_text (column : string) (x : exercise) : option string :=
  if bool_decide (column = "id") then Some (id x)
  else if bool_decide (column = "name") then Some (name x)
  else if bool_decide (column = "group_id") then Some (group_id x)
  else None.

Definition text_filter {A} (text : string -> A -> option string)
    (f : filter) (a : A) : bool :=
  match f with
  | F_eq column value => bool_decide (text column a = Some value)
  | F_in column values =>
      match text column a with
      | Some v => bool_decide (v ∈ values)
      | None => false
      end
  | _ => false
  end.

Definition entry_satisfies (f : filter) (e : entry) : bool :=
  match f with
  | F_gte column (DayKey c) =>
      bool_decide (column = "workout_date") && civil_leb c (workout_date e)
  | F_lte column (DayKey c) =>
      bool_decide (column = "workout_date") && civil_leb (workout_date e) c
  | F_gte _ _ | F_lte _ _ => false
  | _ => text_filter entry_text f e
  end.

Definition date_order (a b : entry) : Prop :=
  civil_leb (workout_date a) (workout_date b) = true.

#[global] Instance date_order_dec : RelDecision date_order.
Proof. intros a b. unfold date_order. apply _. Defined.

Definition order_entries (order : option string) (l : list entry) : list entry :=
  match order with
  | Some column =>
      if bool_decide (column = "workout_date") then merge_sort date_order l
      else l
  | None => l
  end.

(** The rows a read of [workout_entries] returns. *)
Definition select_entries (db : database) (q : query) : list entry :=
  order_entries (q_order q)
    (List.filter (fun e => forallb (fun f => entry_satisfies f e) (q_filters q))
       (workout_entries_table db)).

(** The rows a read of [exercises] returns. *)
Definition select_exercises (db : database) (q : query) : list exercise :=
  List.filter (fun x => forallb (fun f => text_filter exercise_text f x)
                          (q_filters q))
    (exercises_table db).

(** The client's answer to a read: [{ data, error }]. *)
Record response (A : Type) := Response {
  data : option (list A);
  error : option string
}.
Arguments Response {A} data error.
Arguments data {A} r.
Arguments error {A} r.

(** The data-access collaborator: it may answer any read with an error. *)
Record backend := Backend {
  from_exercises : query -> response exercise;
  from_workout_entries : query -> response entry
}.

(** A collaborator that always succeeds on the database [db]. *)
Definition supabase (db : database) : backend :=
  Backend (fun q => Response (Some (select_exercises db q)) None)
          (fun q => Response (Some (select_entries db q)) None).

End Store.

Import Store.

(** ** Effects of the screens: component state, reads issued, toasts shown *)

Module Effects.

Record toast_message := Toast {
  title : string;
  description : string;
  variant : string
}.

Inductive effect :=
| Read (q : query)
| Notify (t : toast_message).

(** Numbers are binary64.  The store keeps a DECIMAL column as a whole
    number of hundredths and an INTEGER column as an integer; the client
    receives the number nearest the decimal.  The quotient below is that
    number whenever the hundredths are at most [2^53] in size, which
    DECIMAL(8,2) guarantees. *)
Definition number_of_Z (z : Z) : float :=
  SF2Prim (binary_normalize prec emax z 0 false).

Definition parse_decimal (hundredths : Z) : float :=
  (number_of_Z hundredths / 100)%float.

(** Values a plain object holds or yields here: a string, a formatted
    date, a number, what [Object.prototype] holds under one of its own
    names, and the string that [v + x] is when [v] is not a number: the
    text of [v] followed by the text of the number [x]. *)
Inductive jsval :=
| JStr (s : string)
| JKey (k : datekey)
| JNum (x : float)
| JProto (name : string)
| JCat (v : jsval) (x : float).

Section Monad.
Context {S : Type}.

Record world := World { ui : S; trace : list effect }.

(** An asynchronous handler: it updates the component state, leaves a
    trace of reads and toasts, and returns or throws. *)
Definition M (A : Type) : Type := world -> outcome A * world.

Definition ret {A} (a : A) : M A := fun w => (Returns a, w).

Definition bind {A B} (m : M A) (k : A -> M B) : M B :=
  fun w =>
    match m w with
    | (Returns a, w') => k a w'
    | (Throws e, w') => (Throws e, w')
    end.

Definition throw {A} (e : exn) : M A := fun w => (Throws e, w).

Definition lift {A} (o : outcome A) : M A := fun w => (o, w).

Definition get : M S := fun w => (Returns (ui w), w).

Definition modify (f : S -> S) : M unit :=
  fun w => (Returns tt, World (f (ui w)) (trace w)).

Definition emit (e : effect) : M unit :=
  fun w => (Returns tt, World (ui w) (trace w ++ [e])).

Definition toast (t : toast_message) : M unit := emit (Notify t).

Definition read_entries (be : backend) (q : query) : M (response entry) :=
  bind (emit (Read q)) (fun _ => ret (from_workout_entries be q)).

Definition read_exercises (be : backend) (q : query) : M (response exercise) :=
  bind (emit (Read q)) (fun _ => ret (from_exercises be q)).
End Monad.

Arguments world S : clear implicits.
Arguments M S A : clear implicits.

#[global] Instance handler_ret {S} : MRet (M S) := fun A => ret.
#[global] Instance handler_bind {S} : MBind (M S) := fun A B k m => bind m k.

(** A read the collaborator answered with an error. *)
Definition read_failed (be : backend) (e : effect) : Prop :=
  match e with
  | Read q =>
      if bool_decide (q_from q = "exercises")
      then is_Some (error (from_exercises be q))
      else is_Some (error (from_workout_entries be q))
  | Notify _ => False
  end.

Definition is_read (e : effect) : Prop :=
  match e with Read _ => True | Notify _ => False end.

(** Truthiness: of a string, of a number (zero of either sign and NaN are
    falsy), and of a value that may be [undefined]. *)
Definition truthy (s : string) : bool := negb (bool_decide (s = EmptyString)).

Definition number_truthy (x : float) : bool :=
  negb ((x =? 0)%float || is_nan x).

Definition js_truthy (v : option jsval) : bool :=
  match v with
  | None => false
  | Some (JStr s) => truthy s
  | Some (JNum x) => number_truthy x
  | Some (JKey _) | Some (JProto _) | Some (JCat _ _) => true
  end.

(** [x || 0] on a number that may be [undefined]. *)
Definition or_zero (x : option float) : float :=
  match x with
  | Some n => if number_truthy n then n else 0%float
  | None => 0%float
  end.

(** [reduce((sum, entry) => sum + parseFloat(entry.effort.toString()), 0)]:
    the text of a number parses back to that number. *)
Definition reduce_effort (l : list entry) : float :=
  fold_left (fun sum e => (sum + parse_decimal (effort e))%float) l 0%float.

(** The names [Object.prototype] has: every plain object yields a function
    under them, and the prototype itself under [__proto__]. *)
Definition object_prototype : list string :=
  ["constructor"; "hasOwnProperty"; "isPrototypeOf"; "propertyIsEnumerable";
   "toLocaleString"; "toString"; "valueOf"; "__defineGetter__";
   "__defineSetter__"; "__lookupGetter__"; "__lookupSetter__"; "__proto__"].

(** What a plain object yields under a name it has no property of its own
    for: [undefined], unless [Object.prototype] has the name. *)
Definition inherited (k : string) : option jsval :=
  if bool_decide (k ∈ object_prototype) then Some (JProto k) else None.

(** [o[k]] on a plain object: its own property, else the inherited one. *)
Definition js_get (o : gmap string jsval) (k : string) : option jsval :=
  match o !! k with
  | Some v => Some v
  | None => inherited k
  end.

(** [o[k] = v] on a plain object, for a number or a string [v]: under
    [__proto__] the setter of [Object.prototype] runs and ignores a value
    that is not an object; under any other name the object receives a
    property of its own. *)
Definition js_set (k : string) (v : jsval) (o : gmap string jsval)
  : gmap string jsval :=
  if bool_decide (k = "__proto__") then o else <[k := v]> o.

(** [v + x] for a number [x]: the sum when [v] is a number, NaN when it is
    [undefined], and a string otherwise. *)
Definition js_add (v : option jsval) (x : float) : jsval :=
  match v with
  | Some (JNum y) => JNum (y + x)
  | Some v => JCat v x
  | None => JNum nan
  end.

(** Exact sums of hundredths, which the properties are compared with. *)
Definition total {A} (f : A -> Z) (l : list A) : Z :=
  foldr (fun a acc => f a + acc) 0 l.

End Effects.

Import Effects.

(** ** The Analytics screen with view modes and an Analyze button *)

Module Analytics.

Inductive ViewMode := week | month | year.

Record state := State {
  selectedExercise : string;
  selectedGroup : string;
  viewMode : ViewMode;
  chartData : list (gmap string jsval);
  loading : bool
}.

Definition initial : state := State EmptyString EmptyString week [] false.

Definition setSelectedExercise (v : string) (s : state) : state :=
  State v (selectedGroup s) (viewMode s) (chartData s) (loading s).
Definition setSelectedGroup (v : string) (s : state) : state :=
  State (selectedExercise s) v (viewMode s) (chartData s) (loading s).
Definition setViewMode (v : ViewMode) (s : state) : state :=
  State (selectedExercise s) (selectedGroup s) v (chartData s) (loading s).
Definition setChartData (v : list (gmap string jsval)) (s : state) : state :=
  State (selectedExercise s) (selectedGroup s) (viewMode s) v (loading s).
Definition setLoading (v : bool) (s : state) : state :=
  State (selectedExercise s) (selectedGroup s) (viewMode s) (chartData s) v.

Definition getDateRange (viewMode : ViewMode) (now : jsdate) : jsdate * jsdate :=
  match viewMode with
  | week => (subDays now 7, now)
  | month => (subMonths now 1, now)
  | year => (subYears now 1, now)
  end.

(** A bucket: its display label [date] and its matching key [dateValue]. *)
Record interval := Interval { date : string; dateValue : datekey }.

Definition generateDateIntervals (viewMode : ViewMode) (start end_ : jsdate)
  : outcome (list interval) :=
  match viewMode with
  | week =>
      outcome_map
        (map (fun d => Interval (format_MMM_dd d) (format_yyyy_MM_dd d)))
        (eachDayOfInterval start end_)
  | month =>
      outcome_map
        (map (fun d => Interval (format_MMM_dd d) (format_yyyy_MM_dd d)))
        (eachDayOfInterval start end_)
  | year =>
      outcome_map
        (map (fun d => Interval (format_MMM_yyyy d) (format_yyyy_MM d)))
        (eachMonthOfInterval start end_)
  end.

(** The predicate both fetches filter the rows of a bucket with. *)
Definition matches_interval (viewMode : ViewMode) (tz : Z)
    (iv : interval) (e : entry) : bool :=
  match viewMode with
  | year =>
      bool_decide
        (format_yyyy_MM (newDate_iso tz (workout_date e)) = dateValue iv)
  | _ => bool_decide (DayKey (workout_date e) = dateValue iv)
  end.

(** The key an entry is compared under, and the key of the bucket a moment
    belongs to. *)
Definition entry_key (viewMode : ViewMode) (tz : Z) (e : entry) : datekey :=
  match viewMode with
  | year => format_yyyy_MM (newDate_iso tz (workout_date e))
  | _ => DayKey (workout_date e)
  end.

Definition bucket_key (viewMode : ViewMode) (d : jsdate) : datekey :=
  match viewMode with
  | year => format_yyyy_MM d
  | _ => format_yyyy_MM_dd d
  end.

(** The keys of the window from [start] to [end_]: every calendar day from
    the day of [start] to the day of [end_], or every calendar month from
    the month of [start] to the month of [end_]. *)
Definition window_key (viewMode : ViewMode) (start end_ : jsdate)
    (k : datekey) : Prop :=
  match viewMode, k with
  | year, MonthKey y m =>
      1 <= m <= 12 /\
      month_index (date_of start) <= y * 12 + m <= month_index (date_of end_)
  | year, DayKey _ => False
  | _, DayKey c =>
      valid c /\ civil_le (date_of start) c /\ civil_le c (date_of end_)
  | _, MonthKey _ _ => False
  end.

#[global] Instance window_key_dec viewMode start end_ k :
  Decision (window_key viewMode start end_ k).
Proof.
  destruct viewMode, k; simpl; unfold valid, civil_le, civil_lt; apply _.
Defined.

(** An entry falls within the window when its date is a day from the day
    of [start] to the day of [end_], the bounds the reads are filtered
    with. *)
Definition in_window (start end_ : jsdate) (e : entry) : bool :=
  civil_leb (date_of start) (workout_date e) &&
  civil_leb (workout_date e) (date_of end_).

(** The bucket a date belongs to: its day, or its month under the year
    preset. *)
Definition key_of_date (viewMode : ViewMode) (d : civil) : datekey :=
  match viewMode with
  | year => MonthKey (c_year d) (c_month d)
  | _ => DayKey d
  end.

(** One element of [processedData] in single-exercise mode. *)
Definition single_record (viewMode : ViewMode) (tz : Z)
    (data : option (list entry)) (iv : interval) : gmap string jsval :=
  let dayData := List.filter (matches_interval viewMode tz iv) <$> data in
  let totalEffort := or_zero (reduce_effort <$> dayData) in
  <["date" := JStr (date iv)]> (<["effort" := JNum totalEffort]> ∅).

Definition workout_data_error : toast_message :=
  Toast "Error" "Failed to load workout data" "destructive".

Definition group_exercises_error : toast_message :=
  Toast "Error" "Failed to load group exercises" "destructive".

Definition single_query (selectedExercise : string) (start end_ : jsdate) : query :=
  Query "workout_entries" "workout_date, effort"
    [F_eq "exercise_id" selectedExercise;
     F_gte "workout_date" (format_yyyy_MM_dd start);
     F_lte "workout_date" (format_yyyy_MM_dd end_)]
    (Some "workout_date").

Definition fetchSingleExerciseData (be : backend) (now : jsdate) (tz : Z)
  : M state unit :=
  s ← get;
  if negb (truthy (selectedExercise s)) then mret tt
  else
    modify (setLoading true);;
    let '(start, end_) := getDateRange (viewMode s) now in
    r ← read_entries be (single_query (selectedExercise s) start end_);
    match error r with
    | Some _ => toast workout_data_error
    | None =>
        intervals ← lift (generateDateIntervals (viewMode s) start end_);
        modify (setChartData
                  (map (single_record (viewMode s) tz (data r)) intervals))
    end;;
    modify (setLoading false).

(** [[...new Set(names)]]: the distinct elements, in order of first
    appearance. *)
Fixpoint distinct (seen : list string) (l : list string) : list string :=
  match l with
  | [] => []
  | x :: l' =>
      if bool_decide (x ∈ seen) then distinct seen l'
      else x :: distinct (x :: seen) l'
  end.

(** [data?.map(entry => entry.exercises?.name).filter(Boolean)], made
    distinct. *)
Definition exerciseNames_of (data : option (list entry)) : list string :=
  match data with
  | Some l =>
      distinct []
        (omap (fun e => match name <$> exercises e with
                        | Some n => if truthy n then Some n else None
                        | None => None
                        end) l)
  | None => []
  end.

(** One element of [processedData] in group mode: the record starts as
    [{ date }] and receives one property per exercise name. *)
Definition group_record (viewMode : ViewMode) (tz : Z)
    (data : option (list entry)) (exerciseNames : list string)
    (iv : interval) : gmap string jsval :=
  let dayData := List.filter (matches_interval viewMode tz iv) <$> data in
  fold_left
    (fun result exerciseName =>
       let exerciseData :=
         List.filter
           (fun e => bool_decide (name <$> exercises e = Some exerciseName))
           <$> dayData in
       let totalEffort := or_zero (reduce_effort <$> exerciseData) in
       js_set (if truthy exerciseName then exerciseName else "Unknown")
         (JNum totalEffort) result)
    exerciseNames
    (<["date" := JStr (date iv)]> ∅).

(** The value [group_record] stores for an exercise name. *)
Definition series_value (viewMode : ViewMode) (tz : Z)
    (data : option (list entry)) (iv : interval) (exerciseName : string)
  : float :=
  or_zero
    (reduce_effort <$>
       (List.filter
          (fun e => bool_decide (name <$> exercises e = Some exerciseName))
          <$> (List.filter (matches_interval viewMode tz iv) <$> data))).

Definition group_exercises_query (selectedGroup : string) : query :=
  Query "exercises" "id, name" [F_eq "group_id" selectedGroup] None.

Definition group_query (groupExercises : option (list exercise))
    (start end_ : jsdate) : query :=
  Query "workout_entries" "workout_date, effort, exercises(name)"
    [F_in "exercise_id" (default [] (map id <$> groupExercises));
     F_gte "workout_date" (format_yyyy_MM_dd start);
     F_lte "workout_date" (format_yyyy_MM_dd end_)]
    (Some "workout_date").

Definition fetchGroupData (be : backend) (now : jsdate) (tz : Z)
  : M state unit :=
  s ← get;
  if negb (truthy (selectedGroup s)) then mret tt
  else
    modify (setLoading true);;
    let '(start, end_) := getDateRange (viewMode s) now in
    g ← read_exercises be (group_exercises_query (selectedGroup s));
    match error g with
    | Some _ =>
        toast group_exercises_error;;
        modify (setLoading false)
    | None =>
        r ← read_entries be (group_query (data g) start end_);
        match error r with
        | Some _ => toast workout_data_error
        | None =>
            intervals ← lift (generateDateIntervals (viewMode s) start end_);
            let exerciseNames := exerciseNames_of (data r) in
            modify (setChartData
                      (map (group_record (viewMode s) tz (data r) exerciseNames)
                         intervals))
        end;;
        modify (setLoading false)
    end.

Definition handleAnalyze (be : backend) (now : jsdate) (tz : Z) : M state unit :=
  s ← get;
  if truthy (selectedExercise s) then fetchSingleExerciseData be now tz
  else if truthy (selectedGroup s) then fetchGroupData be now tz
  else mret tt.

(** What the user can do on the screen.  The Analyze button is disabled
    while loading and while nothing is selected. *)
Inductive event :=
| ExerciseChosen (value : string)
| GroupChosen (value : string)
| ViewModeClicked (mode : ViewMode)
| AnalyzeClicked (be : backend) (now : jsdate) (tz : Z).

Definition analyze_disabled (s : state) : bool :=
  loading s ||
  (negb (truthy (selectedExercise s)) && negb (truthy (selectedGroup s))).

Definition handle (ev : event) : M state unit :=
  match ev with
  | ExerciseChosen value =>
      modify (setSelectedExercise value);;
      modify (setSelectedGroup EmptyString)
  | GroupChosen value =>
      modify (setSelectedGroup value);;
      modify (setSelectedExercise EmptyString)
  | ViewModeClicked mode => modify (setViewMode mode)
  | AnalyzeClicked be now tz =>
      s ← get;
      if analyze_disabled s then mret tt else handleAnalyze be now tz
  end.

(** The states the screen can be in. *)
Inductive reachable : world state -> Prop :=
| reachable_initial : reachable (World initial [])
| reachable_handle w ev : reachable w -> reachable (handle ev w).2.

End Analytics.

(** ** The Analytics screen that refetches whenever a selection changes *)

Module Analytics2.

Record state := State {
  selectedExercise : string;
  selectedGroup : string;
  timeframe : string;
  singleExerciseData : list (gmap string jsval);
  groupData : list (gmap string jsval)
}.

Definition initial : state := State EmptyString EmptyString "month" [] [].

Definition setSelectedExercise (v : string) (s : state) : state :=
  State v (selectedGroup s) (timeframe s) (singleExerciseData s) (groupData s).
Definition setSelectedGroup (v : string) (s : state) : state :=
  State (selectedExercise s) v (timeframe s) (singleExerciseData s) (groupData s).
Definition setTimeframe (v : string) (s : state) : state :=
  State (selectedExercise s) (selectedGroup s) v (singleExerciseData s) (groupData s).
Definition setSingleExerciseData (v : list (gmap string jsval)) (s : state) : state :=
  State (selectedExercise s) (selectedGroup s) (timeframe s) v (groupData s).
Definition setGroupData (v : list (gmap string jsval)) (s : state) : state :=
  State (selectedExercise s) (selectedGroup s) (timeframe s) (singleExerciseData s) v.

Definition workout_data_error : toast_message :=
  Toast "Error" "Failed to load workout data" "destructive".

Definition group_workout_data_error : toast_message :=
  Toast "Error" "Failed to load group workout data" "destructive".

Definition single_query (selectedExercise : string) : query :=
  Query "workout_entries" "weight_kg, reps, workout_date"
    [F_eq "exercise_id" selectedExercise]
    (Some "workout_date").

(** [entry.weight_kg * entry.reps], a product of two numbers. *)
Definition effort_of (e : entry) : float :=
  (parse_decimal (weight_kg e) * number_of_Z (reps e))%float.

Definition single_record (e : entry) : gmap string jsval :=
  <["date" := JKey (DayKey (workout_date e))]>
    (<["effort" := JNum (effort_of e)]> ∅).

Definition fetchSingleExerciseData (be : backend) : M state unit :=
  s ← get;
  if negb (truthy (selectedExercise s)) then mret tt
  else
    r ← read_entries be (single_query (selectedExercise s));
    match error r with
    | Some _ => toast workout_data_error
    | None =>
        let processedData := default [] (map single_record <$> data r) in
        modify (setSingleExerciseData processedData)
    end.

Definition group_query (selectedGroup : string) : query :=
  Query "workout_entries"
    "weight_kg, reps, workout_date, exercises!inner(name, group_id)"
    [F_eq "exercises.group_id" selectedGroup]
    (Some "workout_date").

(** [if (!o[exerciseName]) o[exerciseName] = 0; o[exerciseName] += effort]
    on the plain object [o] of one date. *)
Definition add_effort (o : gmap string jsval) (exerciseName : string)
    (effort : float) : gmap string jsval :=
  let o' :=
    if js_truthy (js_get o exerciseName) then o
    else js_set exerciseName (JNum 0) o in
  js_set exerciseName (js_add (js_get o' exerciseName) effort) o'.

(** The body of the [forEach], creating the object of the date on first
    use; dates keep their order of first appearance. *)
Fixpoint grouped_add (groupedData : list (civil * gmap string jsval))
    (date : civil) (exerciseName : string) (effort : float)
  : list (civil * gmap string jsval) :=
  match groupedData with
  | [] => [(date, add_effort ∅ exerciseName effort)]
  | (d, byExercise) :: rest =>
      if bool_decide (d = date)
      then (d, add_effort byExercise exerciseName effort) :: rest
      else (d, byExercise) :: grouped_add rest date exerciseName effort
  end.

Definition group_step
    (groupedData : outcome (list (civil * gmap string jsval)))
    (e : entry) : outcome (list (civil * gmap string jsval)) :=
  match groupedData with
  | Throws x => Throws x
  | Returns g =>
      match exercises e with
      | None => Throws (TypeError "entry.exercises is null")
      | Some x =>
          Returns (grouped_add g (workout_date e) (name x) (effort_of e))
      end
  end.

(** [{ date, ...exercises }]: a property of [exercises] wins over [date]. *)
Definition group_record (p : civil * gmap string jsval) : gmap string jsval :=
  p.2 ∪ <["date" := JKey (DayKey p.1)]> ∅.

Definition fetchGroupData (be : backend) : M state unit :=
  s ← get;
  if negb (truthy (selectedGroup s)) then mret tt
  else
    r ← read_entries be (group_query (selectedGroup s));
    match error r with
    | Some _ => toast group_workout_data_error
    | None =>
        groupedData ← lift (fold_left group_step (default [] (data r))
                              (Returns []));
        modify (setGroupData (map group_record groupedData))
    end.

(** The selects and the effects that refetch after a change. *)
Definition onExerciseChange (be : backend) (value : string) : M state unit :=
  modify (setSelectedExercise value);;
  fetchSingleExerciseData be.

Definition onGroupChange (be : backend) (value : string) : M state unit :=
  modify (setSelectedGroup value);;
  fetchGroupData be.

Definition onTimeframeChange (be : backend) (value : string) : M state unit :=
  modify (setTimeframe value);;
  fetchSingleExerciseData be;;
  fetchGroupData be.

End Analytics2.

(** ** A sample database and moments, for the examples *)

Module Scenario.

Definition squat : exercise := Exercise "e1" "Squat" "g1".
Definition leg_press : exercise := Exercise "e2" "Leg Press" "g1".
Definition curl : exercise := Exercise "e3" "Curl" "g2".

Definition db : database :=
  Database [squat; leg_press; curl]
    [Entry "e1" 10000 5 50000 (Civil 2024 3 9) (Some squat);
     Entry "e2" 6000 12 72000 (Civil 2024 3 8) (Some leg_press);
     Entry "e1" 8000 10 80000 (Civil 2024 3 8) (Some squat);
     Entry "e1" 8000 10 80000 (Civil 2023 3 8) (Some squat);
     Entry "e3" 2000 10 20000 (Civil 2024 3 8) (Some curl)].

(** Rows of exercises with unusual names: an empty one, [__proto__] and
    "date". *)
Definition unnamed_row : entry :=
  Entry "e7" 1000 10 10000 (Civil 2024 3 8)
    (Some (Exercise "e7" EmptyString "g3")).
Definition proto_row : entry :=
  Entry "e8" 2000 10 20000 (Civil 2024 3 8)
    (Some (Exercise "e8" "__proto__" "g3")).
Definition date_row : entry :=
  Entry "e9" 3000 10 30000 (Civil 2024 3 8) (Some (Exercise "e9" "date" "g3")).

(** 10 March 2024, 01:00 local time. *)
Definition now : jsdate := JsDate (Civil 2024 3 10) 3600000.

(** Five hours behind UTC. *)
Definition tz_new_york : Z := -18000000.

(** A collaborator whose every read fails. *)
Definition failing : backend :=
  Backend (fun _ => Response None (Some "fetch failed"))
          (fun _ => Response None (Some "fetch failed")).

End Scenario.

#[global] Instance is_read_dec (e : effect) : Decision (is_read e).
Proof. destruct e; simpl; apply _. Defined.

(** ** What the chart draws *)

Module Chart.

(** [chartData.length > 0 && ...]: the chart is rendered for a non-empty
    sequence only. *)
Definition chart_shown (chartData : list (gmap string jsval)) : bool :=
  negb (Nat.eqb (length chartData) 0).

(** [Object.keys(chartData[0] || {}).filter(key => key !== "date")]: the
    properties a line is drawn for in group mode, as a set. *)
Definition line_keys (chartData : list (gmap string jsval)) : gset string :=
  dom (default ∅ (head chartData)) ∖ {["date"]}.

End Chart.

(** ** Reading the grouped data of the refetching screen *)

Module Grouped.

(** [groupedData[date]]. *)
Fixpoint lookup_date (groupedData : list (civil * gmap string jsval))
    (date : civil) : option (gmap string jsval) :=
  match groupedData with
  | [] => None
  | (d, byExercise) :: rest =>
      if bool_decide (d = date) then Some byExercise else lookup_date rest date
  end.

(** The whole [forEach] over rows that all carry their exercise. *)
Definition group_rows (rows : list entry)
  : outcome (list (civil * gmap string jsval)) :=
  fold_left Analytics2.group_step rows (Returns []).

(** The rows of one date and one exercise name. *)
Definition on_date_for (date : civil) (exerciseName : string) (e : entry)
  : bool :=
  bool_decide (workout_date e = date) &&
  bool_decide (name <$> exercises e = Some exerciseName).

(** [if (!v) v = 0; v += effort] on the value [v] that the object of a
    date yields under a name. *)
Definition accumulate (v : option jsval) (effort : float) : jsval :=
  js_add (if js_truthy v then v else Some (JNum 0)) effort.

(** What the object of a date holds under [exerciseName] after the rows
    [mine] of that date and that exercise, taken in order. *)
Definition cell (exerciseName : string) (mine : list entry) : option jsval :=
  if bool_decide (exerciseName = "__proto__") then None
  else
    fold_left
      (fun v e =>
         Some (accumulate
                 (match v with Some _ => v | None => inherited exerciseName end)
                 (Analytics2.effort_of e)))
      mine None.

(** The number that builds up under a name that [Object.prototype] does
    not have: the binary64 sum of the products in row order, restarted
    from 0 whenever it is zero or NaN. *)
Definition group_sum (mine : list entry) : float :=
  fold_left
    (fun sum e =>
       ((if number_truthy sum then sum else 0) + Analytics2.effort_of e)%float)
    mine 0%float.

End Grouped.

(** ** The entry form with a date picker *)

Module WorkoutEntry.

(** The component state; the store the form writes to is carried beside
    it. *)
Record state := State {
  selectedExercise : string;
  weight : string;
  reps : string;
  workoutDate : option jsdate;
  loading : bool;
  server : database
}.

Definition setLoading (v : bool) (s : state) : state :=
  State (selectedExercise s) (weight s) (reps s) (workoutDate s) v (server s).
Definition setServer (v : database) (s : state) : state :=
  State (selectedExercise s) (weight s) (reps s) (workoutDate s) (loading s) v.

(** [setSelectedExercise(""); setWeight(""); setReps("");
    setWorkoutDate(new Date())]. *)
Definition resetForm (now : jsdate) (s : state) : state :=
  State EmptyString EmptyString EmptyString (Some now) (loading s) (server s).

Definition missing_information : toast_message :=
  Toast "Missing Information" "Please fill in all fields" "destructive".

Definition log_error : toast_message :=
  Toast "Error" "Failed to log workout entry" "destructive".

(** No variant is given: the toast's default one. *)
Definition log_success : toast_message :=
  Toast "Success!" "Workout entry logged successfully" "default".

Section Submit.

(** [parseFloat] and [parseInt], up to the store's rounding to its column
    scale: the hundredths, and the integer, the store would keep for a text;
    [None] when the text is not a number. *)
Variable parseFloat : string -> option Z.
Variable parseInt : string -> option Z.

(** The insert request and its answer: the store after it, or [None] for an
    error.  [online] is false when the request does not reach the store. *)
Definition insert_request (online : bool) (db : database)
    (exercise_id weight reps : string) (workout_date : civil)
  : option database :=
  if online then
    match parseFloat weight, parseInt reps with
    | Some w, Some r =>
        insert_workout_entry db (NewEntry exercise_id w r workout_date)
    | _, _ => None
    end
  else None.

Definition handleSubmit (online : bool) (now : jsdate) : M state unit :=
  s ← get;
  match workoutDate s with
  | None => toast missing_information
  | Some date =>
      if negb (truthy (selectedExercise s)) || negb (truthy (weight s)) ||
         negb (truthy (reps s))
      then toast missing_information
      else
        modify (setLoading true);;
        match insert_request online (server s) (selectedExercise s)
                (weight s) (reps s) (date_of date) with
        | None => toast log_error
        | Some db' =>
            modify (setServer db');;
            toast log_success;;
            modify (resetForm now)
        end;;
        modify (setLoading false)
  end.

End Submit.

End WorkoutEntry.

(** ** The entry form without a date picker *)

Module WorkoutEntry2.

Record state := State {
  selectedExercise : string;
  weight : string;
  reps : string;
  loading : bool;
  server : database
}.

Definition setLoading (v : bool) (s : state) : state :=
  State (selectedExercise s) (weight s) (reps s) v (server s).
Definition setServer (v : database) (s : state) : state :=
  State (selectedExercise s) (weight s) (reps s) (loading s) v.
Definition resetForm (s : state) : state :=
  State EmptyString EmptyString EmptyString (loading s) (server s).

Section Submit.

Variable parseFloat : string -> option Z.
Variable parseInt : string -> option Z.

(** No [workout_date] is sent: the column takes its default, the store's
    current date [today]. *)
Definition handleSubmit (online : bool) (today : civil) : M state unit :=
  s ← get;
  if negb (truthy (selectedExercise s)) || negb (truthy (weight s)) ||
     negb (truthy (reps s))
  then toast WorkoutEntry.missing_information
  else
    modify (setLoading true);;
    match WorkoutEntry.insert_request parseFloat parseInt online (server s)
            (selectedExercise s) (weight s) (reps s) today with
    | None => toast WorkoutEntry.log_error
    | Some db' =>
        modify (setServer db');;
        toast WorkoutEntry.log_success;;
        modify resetForm
    end;;
    modify (setLoading false).

End Submit.

End WorkoutEntry2.

(** ** The bucket key of a date *)

Module Keys.

(** The key under which an analysis compares an entry dated [d]. *)
Definition date_key (viewMode : Analytics.ViewMode) (tz : Z) (d : civil)
  : datekey :=
  match viewMode with
  | Analytics.year => format_yyyy_MM (newDate_iso tz d)
  | _ => DayKey d
  end.

End Keys.

(** ** The whole store: groups, exercises and entries, and its writes *)

Module Catalog.

(** [public.exercise_groups]. *)
Record exercise_group := ExerciseGroup { g_id : string; g_name : string }.

Record catalog := Catalog {
  groups_table : list exercise_group;
  tables : database
}.

Definition group_ids (c : catalog) : list string := map g_id (groups_table c).
Definition exercise_ids (c : catalog) : list string :=
  map id (exercises_table (tables c)).

(** An insert into [exercise_groups]: [name] is UNIQUE, the key [new_id]
    (the store's [gen_random_uuid()]) is the primary key. *)
Definition insert_group (c : catalog) (new_id name : string) : option catalog :=
  if bool_decide (name ∈ map g_name (groups_table c)) ||
     bool_decide (new_id ∈ group_ids c)
  then None
  else Some (Catalog (groups_table c ++ [ExerciseGroup new_id name]) (tables c)).

(** An insert into [exercises]: [name] is UNIQUE and [group_id] REFERENCES
    [exercise_groups(id)]. *)
Definition insert_exercise (c : catalog) (new_id name group_id : string)
  : option catalog :=
  if bool_decide (name ∈ map Store.name (exercises_table (tables c))) ||
     bool_decide (new_id ∈ exercise_ids c) ||
     negb (bool_decide (group_id ∈ group_ids c))
  then None
  else Some (Catalog (groups_table c)
               (Database
                  (exercises_table (tables c) ++ [Exercise new_id name group_id])
                  (workout_entries_table (tables c)))).

(** [delete().eq("id", exerciseId)] on [exercises]; the entries of the
    exercise go with it (ON DELETE CASCADE). *)
Definition delete_exercise (c : catalog) (exerciseId : string) : catalog :=
  Catalog (groups_table c)
    (Database
       (base.filter (fun x => id x <> exerciseId) (exercises_table (tables c)))
       (base.filter (fun e => exercise_id e <> exerciseId)
          (workout_entries_table (tables c)))).

(** [delete().eq("id", groupId)] on [exercise_groups]; the exercises of the
    group go with it, and with them their entries. *)
Definition delete_group (c : catalog) (groupId : string) : catalog :=
  let gone :=
    map id (base.filter (fun x => group_id x = groupId)
              (exercises_table (tables c))) in
  Catalog (base.filter (fun g => g_id g <> groupId) (groups_table c))
    (Database
       (base.filter (fun x => group_id x <> groupId) (exercises_table (tables c)))
       (base.filter (fun e => exercise_id e ∉ gone)
          (workout_entries_table (tables c)))).

(** An insert into [workout_entries]. *)
Definition log_entry (c : catalog) (n : new_entry) : option catalog :=
  Catalog (groups_table c) <$> insert_workout_entry (tables c) n.

(** Keys and names are unique, every exercise belongs to a stored group,
    every entry to a stored exercise, and every effort is the generated
    value. *)
Definition consistent (c : catalog) : Prop :=
  NoDup (group_ids c) /\
  NoDup (map g_name (groups_table c)) /\
  NoDup (exercise_ids c) /\
  NoDup (map Store.name (exercises_table (tables c))) /\
  (forall x, x ∈ exercises_table (tables c) -> group_id x ∈ group_ids c) /\
  (forall e, e ∈ workout_entries_table (tables c) ->
     exists x, x ∈ exercises_table (tables c) /\
               exercises e = Some x /\ id x = exercise_id e) /\
  stored_ok (tables c).

(** The writes the screens can issue. *)
Inductive write :=
| InsertGroup (new_id name : string)
| InsertExercise (new_id name group_id : string)
| DeleteExercise (exerciseId : string)
| DeleteGroup (groupId : string)
| LogEntry (n : new_entry).

(** A write that the store refuses leaves it as it was. *)
Definition apply_write (c : catalog) (wr : write) : catalog :=
  match wr with
  | InsertGroup new_id name => default c (insert_group c new_id name)
  | InsertExercise new_id name group_id =>
      default c (insert_exercise c new_id name group_id)
  | DeleteExercise exerciseId => delete_exercise c exerciseId
  | DeleteGroup groupId => delete_group c groupId
  | LogEntry n => default c (log_entry c n)
  end.

End Catalog.

(** ** The exercise management screens *)

Module Management.

Import Catalog.

(** The state both management screens have; the store is carried beside
    it. *)
Record state := State {
  exercises : list exercise;
  exerciseGroups : list exercise_group;
  newExerciseName : string;
  selectedGroupForExercise : string;
  newGroupName : string;
  loading : bool;
  server : catalog
}.

Definition setExercises (v : list exercise) (s : state) : state :=
  State v (exerciseGroups s) (newExerciseName s) (selectedGroupForExercise s)
    (newGroupName s) (loading s) (server s).
Definition setExerciseGroups (v : list exercise_group) (s : state) : state :=
  State (exercises s) v (newExerciseName s) (selectedGroupForExercise s)
    (newGroupName s) (loading s) (server s).
Definition setNewExerciseName (v : string) (s : state) : state :=
  State (exercises s) (exerciseGroups s) v (selectedGroupForExercise s)
    (newGroupName s) (loading s) (server s).
Definition setSelectedGroupForExercise (v : string) (s : state) : state :=
  State (exercises s) (exerciseGroups s) (newExerciseName s) v
    (newGroupName s) (loading s) (server s).
Definition setNewGroupName (v : string) (s : state) : state :=
  State (exercises s) (exerciseGroups s) (newExerciseName s)
    (selectedGroupForExercise s) v (loading s) (server s).
Definition setLoading (v : bool) (s : state) : state :=
  State (exercises s) (exerciseGroups s) (newExerciseName s)
    (selectedGroupForExercise s) (newGroupName s) v (server s).
Definition setServer (v : catalog) (s : state) : state :=
  State (exercises s) (exerciseGroups s) (newExerciseName s)
    (selectedGroupForExercise s) (newGroupName s) (loading s) v.

Definition destructive (title description : string) : toast_message :=
  Toast title description "destructive".

(** A toast without a variant: the default one. *)
Definition success (description : string) : toast_message :=
  Toast "Success!" description "default".

Definition exercises_query : query :=
  Query "exercises" "id, name, group_id, exercise_groups(name)" [] (Some "name").

Definition exercise_groups_query : query :=
  Query "exercise_groups" "id, name" [] (Some "name").

(** The lists on the screen show what the store holds. *)
Definition in_sync (s : state) : Prop :=
  exercises s ≡ₚ exercises_table (tables (server s)) /\
  exerciseGroups s ≡ₚ groups_table (server s).

(** The "All Exercises" section of the screen that confirms deletes: one
    block per listed group, with the listed exercises of that group; a
    group without listed exercises renders nothing. *)
Definition exercises_shown (s : state) : list exercise :=
  flat_map
    (fun group =>
       List.filter (fun ex => bool_decide (group_id ex = g_id group))
         (exercises s))
    (exerciseGroups s).

Section Screens.

(** The store's ordering of names ([order("name")]), and JavaScript's
    [trim]. *)
Variable collate : string -> string -> bool.
Variable trim : string -> string.

Definition name_order {A} (f : A -> string) (a b : A) : Prop :=
  collate (f a) (f b) = true.

#[global] Instance name_order_dec {A} (f : A -> string) :
  RelDecision (name_order f).
Proof. intros a b. unfold name_order. apply _. Defined.

(** [online] is false when a request does not reach the store. *)
Definition fetchExercises (online : bool) : M state unit :=
  emit (Read exercises_query);;
  if online
  then
    s ← get;
    modify (setExercises
              (merge_sort (name_order name)
                 (exercises_table (tables (server s)))))
  else toast (destructive "Error" "Failed to load exercises").

Definition fetchExerciseGroups (online : bool) : M state unit :=
  emit (Read exercise_groups_query);;
  if online
  then
    s ← get;
    modify (setExerciseGroups
              (merge_sort (name_order g_name) (groups_table (server s))))
  else toast (destructive "Error" "Failed to load exercise groups").

(** A write request: the store after it, or [None] for an error. *)
Definition request (online : bool) (answer : option catalog) : option catalog :=
  if online then answer else None.

Definition quoted (s : string) : string :=
  (String (Ascii.ascii_of_nat 34) s +:+
   String (Ascii.ascii_of_nat 34) EmptyString)%string.

(** *** The screen that trims names, confirms deletes and refuses to delete
        a group that still has exercises *)

Definition handleAddExercise (new_id : string) (online refetch : bool)
  : M state unit :=
  s ← get;
  if negb (truthy (trim (newExerciseName s))) ||
     negb (truthy (selectedGroupForExercise s))
  then toast (destructive "Missing Information"
                "Please enter exercise name and select a group")
  else
    modify (setLoading true);;
    match request online
            (insert_exercise (server s) new_id (trim (newExerciseName s))
               (selectedGroupForExercise s)) with
    | None =>
        toast (destructive "Error"
                 "Failed to add exercise. It might already exist.")
    | Some c' =>
        modify (setServer c');;
        toast (success "Exercise added successfully");;
        modify (setNewExerciseName EmptyString);;
        modify (setSelectedGroupForExercise EmptyString);;
        fetchExercises refetch
    end;;
    modify (setLoading false).

Definition handleAddGroup (new_id : string) (online refetch : bool)
  : M state unit :=
  s ← get;
  if negb (truthy (trim (newGroupName s)))
  then toast (destructive "Missing Information" "Please enter a group name")
  else
    modify (setLoading true);;
    match request online
            (insert_group (server s) new_id (trim (newGroupName s))) with
    | None =>
        toast (destructive "Error"
                 "Failed to add exercise group. It might already exist.")
    | Some c' =>
        modify (setServer c');;
        toast (success "Exercise group added successfully");;
        modify (setNewGroupName EmptyString);;
        fetchExerciseGroups refetch
    end;;
    modify (setLoading false).

(** [confirmed] is the answer to [confirm(...)], when it is asked. *)
Definition handleDeleteExercise (exerciseId exerciseName : string)
    (confirmed online refetch : bool) : M state unit :=
  s ← get;
  if negb confirmed then mret tt
  else
    match request online (Some (delete_exercise (server s) exerciseId)) with
    | None => toast (destructive "Error" "Failed to delete exercise")
    | Some c' =>
        modify (setServer c');;
        toast (success "Exercise deleted successfully");;
        fetchExercises refetch
    end.

Definition handleDeleteGroup (groupId groupName : string)
    (confirmed online refetch : bool) : M state unit :=
  s ← get;
  let exercisesInGroup :=
    List.filter (fun ex => bool_decide (group_id ex = groupId)) (exercises s) in
  if negb (Nat.eqb (length exercisesInGroup) 0)
  then toast (destructive "Cannot Delete"
                ("Please delete all exercises in " +:+ quoted groupName
                 +:+ " first"))
  else if negb confirmed then mret tt
  else
    match request online (Some (delete_group (server s) groupId)) with
    | None => toast (destructive "Error" "Failed to delete exercise group")
    | Some c' =>
        modify (setServer c');;
        toast (success "Exercise group deleted successfully");;
        fetchExerciseGroups refetch
    end.

(** What the user can do on this screen.  A delete button passes the id
    and the name of its list item, and the select the id of the group
    picked; the two submit buttons are disabled while loading.  [refetch]
    tells whether the read that follows a write is answered. *)
Inductive event :=
| ExerciseNameTyped (value : string)
| GroupPicked (value : string)
| GroupNameTyped (value : string)
| AddExerciseSubmitted (new_id : string) (online refetch : bool)
| AddGroupSubmitted (new_id : string) (online refetch : bool)
| DeleteExerciseClicked (exerciseId exerciseName : string)
    (confirmed online refetch : bool)
| DeleteGroupClicked (groupId groupName : string)
    (confirmed online refetch : bool).

Definition handle (ev : event) : M state unit :=
  match ev with
  | ExerciseNameTyped value => modify (setNewExerciseName value)
  | GroupPicked value => modify (setSelectedGroupForExercise value)
  | GroupNameTyped value => modify (setNewGroupName value)
  | AddExerciseSubmitted new_id online refetch =>
      s ← get;
      if loading s then mret tt else handleAddExercise new_id online refetch
  | AddGroupSubmitted new_id online refetch =>
      s ← get;
      if loading s then mret tt else handleAddGroup new_id online refetch
  | DeleteExerciseClicked exerciseId exerciseName confirmed online refetch =>
      handleDeleteExercise exerciseId exerciseName confirmed online refetch
  | DeleteGroupClicked groupId groupName confirmed online refetch =>
      handleDeleteGroup groupId groupName confirmed online refetch
  end.

(** The screen after a sequence of events, each handled to its end. *)
Definition run (evs : list event) (w : world state) : world state :=
  fold_left (fun w ev => (handle ev w).2) evs w.

(** The read after the write of the event, if any, is answered. *)
Definition answered (ev : event) : Prop :=
  match ev with
  | AddExerciseSubmitted _ _ refetch
  | AddGroupSubmitted _ _ refetch
  | DeleteExerciseClicked _ _ _ _ refetch
  | DeleteGroupClicked _ _ _ _ refetch => refetch = true
  | _ => True
  end.

(** *** The screen that deletes at once *)

Definition handleAddExercise2 (new_id : string) (online refetch : bool)
  : M state unit :=
  s ← get;
  if negb (truthy (newExerciseName s)) ||
     negb (truthy (selectedGroupForExercise s))
  then toast (destructive "Missing Information" "Please fill in all fields")
  else
    modify (setLoading true);;
    match request online
            (insert_exercise (server s) new_id (newExerciseName s)
               (selectedGroupForExercise s)) with
    | None => toast (destructive "Error" "Failed to add exercise")
    | Some c' =>
        modify (setServer c');;
        toast (success "Exercise added successfully");;
        modify (setNewExerciseName EmptyString);;
        modify (setSelectedGroupForExercise EmptyString);;
        fetchExercises refetch
    end;;
    modify (setLoading false).

Definition handleAddGroup2 (new_id : string) (online refetch : bool)
  : M state unit :=
  s ← get;
  if negb (truthy (newGroupName s))
  then toast (destructive "Missing Information" "Please enter a group name")
  else
    modify (setLoading true);;
    match request online (insert_group (server s) new_id (newGroupName s)) with
    | None => toast (destructive "Error" "Failed to add exercise group")
    | Some c' =>
        modify (setServer c');;
        toast (success "Exercise group added successfully");;
        modify (setNewGroupName EmptyString);;
        fetchExerciseGroups refetch
    end;;
    modify (setLoading false).

Definition handleDeleteExercise2 (exerciseId : string) (online refetch : bool)
  : M state unit :=
  s ← get;
  match request online (Some (delete_exercise (server s) exerciseId)) with
  | None => toast (destructive "Error" "Failed to delete exercise")
  | Some c' =>
      modify (setServer c');;
      toast (success "Exercise deleted successfully");;
      fetchExercises refetch
  end.

Definition handleDeleteGroup2 (groupId : string) (online refetch : bool)
  : M state unit :=
  s ← get;
  match request online (Some (delete_group (server s) groupId)) with
  | None => toast (destructive "Error" "Failed to delete exercise group")
  | Some c' =>
      modify (setServer c');;
      toast (success "Exercise group deleted successfully");;
      fetchExerciseGroups refetch;;
      fetchExercises refetch
  end.

End Screens.

End Management.

(** ** A stored catalogue and a management screen showing it *)

Module ManagementScenario.

Import Catalog Management.

Definition legs : exercise_group := ExerciseGroup "g1" "Legs".
Definition arms : exercise_group := ExerciseGroup "g2" "Arms".

Definition gym : catalog := Catalog [legs; arms] Scenario.db.

(** The screen after its first fetches. *)
Definition loaded : state :=
  State (exercises_table Scenario.db) [legs; arms]
    EmptyString EmptyString EmptyString false gym.

(** The screen before any fetch is answered. *)
Definition blank : state :=
  State [] [] EmptyString EmptyString EmptyString false gym.

(** The user has typed a name that is taken and picked a group. *)
Definition typed : state :=
  setSelectedGroupForExercise "g1" (setNewExerciseName "Squat" loaded).

(** A session on the screen that confirms deletes, every request answered:
    a group is added, Curl is deleted, and the delete of each of the two
    first groups is clicked and confirmed. *)
Definition session : list event :=
  [GroupNameTyped "Back"; AddGroupSubmitted "g3" true true;
   DeleteExerciseClicked "e3" "Curl" true true true;
   DeleteGroupClicked "g1" "Legs" true true true;
   DeleteGroupClicked "g2" "Arms" true true true].

End ManagementScenario.
(** * Properties *)

(** Membership in a list that is written out. *)
Ltac in_list := repeat (apply elem_of_cons; first [by left | right]).

(** ** Calendar arithmetic *)

Section CalendarFacts.

Lemma days_in_month_bounds (y m : Z) : 28 <= days_in_month y m <= 31.
Proof.
  unfold days_in_month.
  destruct (m =? 2); [destruct (is_leap y); lia|].
  destruct ((m =? 4) || (m =? 6) || (m =? 9) || (m =? 11)); lia.
Qed.

Lemma civil_ltb_lt (a b : civil) : civil_ltb a b = true <-> civil_lt a b.
Proof. unfold civil_ltb, civil_lt. lia. Qed.

Lemma civil_eqb_eq (a b : civil) : civil_eqb a b = true <-> a = b.
Proof.
  unfold civil_eqb. destruct a, b; simpl. split.
  - intros H. f_equal; lia.
  - intros [= -> -> ->]. lia.
Qed.

Lemma civil_leb_le (a b : civil) : civil_leb a b = true <-> civil_le a b.
Proof.
  unfold civil_leb, civil_le.
  rewrite orb_true_iff, civil_ltb_lt, civil_eqb_eq. tauto.
Qed.

Lemma civil_lt_irrefl (a : civil) : ~ civil_lt a a.
Proof. unfold civil_lt. lia. Qed.

Lemma civil_lt_trans (a b c : civil) :
  civil_lt a b -> civil_lt b c -> civil_lt a c.
Proof. unfold civil_lt. lia. Qed.

Lemma civil_le_refl (a : civil) : civil_le a a.
Proof. by right. Qed.

Lemma civil_le_trans (a b c : civil) :
  civil_le a b -> civil_le b c -> civil_le a c.
Proof.
  intros [H1| ->] [H2| ->]; unfold civil_le; eauto using civil_lt_trans.
Qed.

Lemma civil_lt_le_trans (a b c : civil) :
  civil_lt a b -> civil_le b c -> civil_lt a c.
Proof. intros H1 [H2| ->]; eauto using civil_lt_trans. Qed.

Lemma civil_le_lt_trans (a b c : civil) :
  civil_le a b -> civil_lt b c -> civil_lt a c.
Proof. intros [H1| ->] H2; eauto using civil_lt_trans. Qed.

Lemma civil_lt_total (a b : civil) : civil_lt a b \/ a = b \/ civil_lt b a.
Proof.
  destruct a as [ya ma da], b as [yb mb db]; unfold civil_lt; simpl.
  destruct (Z.lt_total ya yb) as [?|[->|?]]; [lia| |lia].
  destruct (Z.lt_total ma mb) as [?|[->|?]]; [lia| |lia].
  destruct (Z.lt_total da db) as [?|[->|?]]; [lia| |lia].
  right; left; reflexivity.
Qed.

Lemma civil_le_not_lt (a b : civil) : civil_le a b <-> ~ civil_lt b a.
Proof.
  split.
  - intros [H| ->] H'; [|by apply civil_lt_irrefl in H'].
    by apply (civil_lt_irrefl a), (civil_lt_trans a b a).
  - intros H. destruct (civil_lt_total a b) as [?|[?|?]];
      [by left|by right|done].
Qed.

Lemma civil_leb_false (a b : civil) : civil_leb a b = false <-> civil_lt b a.
Proof.
  rewrite <- not_true_iff_false, civil_leb_le, civil_le_not_lt.
  split; [|tauto]. intros H.
  destruct (civil_lt_total a b) as [?|[->|?]]; try done.
  - exfalso. apply H. intros H'.
    by apply (civil_lt_irrefl a), (civil_lt_trans a b a).
  - exfalso. apply H, civil_lt_irrefl.
Qed.

Lemma rank_lt (a b : civil) :
  valid a -> valid b -> civil_lt a b -> rank a < rank b.
Proof.
  intros [Hma Hda] [Hmb Hdb].
  pose proof (days_in_month_bounds (c_year a) (c_month a)).
  pose proof (days_in_month_bounds (c_year b) (c_month b)).
  unfold civil_lt, rank. lia.
Qed.

Lemma rank_le (a b : civil) :
  valid a -> valid b -> civil_le a b -> rank a <= rank b.
Proof.
  intros Ha Hb [H| ->]; [|lia].
  pose proof (rank_lt a b Ha Hb H). lia.
Qed.

Lemma valid_next_day (c : civil) : valid c -> valid (next_day c).
Proof.
  intros [Hm Hd]. unfold next_day.
  destruct (Z.ltb_spec (c_day c) (days_in_month (c_year c) (c_month c))).
  - split; simpl; lia.
  - destruct (Z.ltb_spec (c_month c) 12); split; simpl; try lia.
    + pose proof (days_in_month_bounds (c_year c) (c_month c + 1)). lia.
    + pose proof (days_in_month_bounds (c_year c + 1) 1). lia.
Qed.

Lemma valid_prev_day (c : civil) : valid c -> valid (prev_day c).
Proof.
  intros [Hm Hd]. unfold prev_day.
  destruct (Z.ltb_spec 1 (c_day c)).
  - split; simpl; lia.
  - destruct (Z.ltb_spec 1 (c_month c)); split; simpl; try lia.
    + pose proof (days_in_month_bounds (c_year c) (c_month c - 1)). lia.
    + unfold days_in_month; simpl. lia.
Qed.

Lemma next_day_lt (c : civil) : civil_lt c (next_day c).
Proof.
  unfold next_day, civil_lt.
  destruct (Z.ltb_spec (c_day c) (days_in_month (c_year c) (c_month c)));
    [simpl; lia|].
  destruct (Z.ltb_spec (c_month c) 12); simpl; lia.
Qed.

Lemma prev_day_lt (c : civil) : valid c -> civil_lt (prev_day c) c.
Proof.
  intros [Hm Hd]. unfold prev_day, civil_lt.
  destruct (Z.ltb_spec 1 (c_day c)); [simpl; lia|].
  destruct (Z.ltb_spec 1 (c_month c)); simpl; lia.
Qed.

(** No valid date lies strictly between a date and its successor. *)
Lemma next_day_least (c b : civil) :
  valid c -> valid b -> civil_lt c b -> civil_le (next_day c) b.
Proof.
  intros [Hmc Hdc] [Hmb Hdb] Hlt.
  destruct c as [y m d], b as [yb mb db]; simpl in *.
  assert (Hsame : y = yb -> m = mb -> db <= days_in_month y m)
    by (intros -> ->; lia).
  unfold next_day; simpl.
  destruct (Z.ltb_spec d (days_in_month y m)).
  - destruct (decide (Civil y m (d + 1) = Civil yb mb db)) as [->|Hne];
      [by right|].
    left. unfold civil_lt in *; simpl in *.
    assert (~ (y = yb /\ m = mb /\ d + 1 = db))
      by (intros (? & ? & ?); apply Hne; congruence).
    lia.
  - destruct (Z.ltb_spec m 12).
    + destruct (decide (Civil y (m + 1) 1 = Civil yb mb db)) as [->|Hne];
        [by right|].
      left. unfold civil_lt in *; simpl in *.
      assert (~ (y = yb /\ m + 1 = mb /\ 1 = db))
        by (intros (? & ? & ?); apply Hne; congruence).
      lia.
    + destruct (decide (Civil (y + 1) 1 1 = Civil yb mb db)) as [->|Hne];
        [by right|].
      left. unfold civil_lt in *; simpl in *.
      assert (~ (y + 1 = yb /\ 1 = mb /\ 1 = db))
        by (intros (? & ? & ?); apply Hne; congruence).
      lia.
Qed.

Lemma next_prev_day (c : civil) : valid c -> next_day (prev_day c) = c.
Proof.
  intros [Hm Hd]. destruct c as [y m d]; simpl in *.
  unfold prev_day; simpl.
  destruct (Z.ltb_spec 1 d).
  - unfold next_day; simpl.
    destruct (Z.ltb_spec (d - 1) (days_in_month y m)); [|lia].
    f_equal; lia.
  - assert (d = 1) as -> by lia.
    destruct (Z.ltb_spec 1 m).
    + unfold next_day; simpl. rewrite Z.ltb_irrefl.
      destruct (Z.ltb_spec (m - 1) 12); [|lia]. f_equal; lia.
    + assert (m = 1) as -> by lia.
      unfold next_day; simpl.
      replace (days_in_month (y - 1) 12) with 31 by done. simpl.
      f_equal; lia.
Qed.

End CalendarFacts.


(** ** Dates, windows and interval loops *)

Section DateFacts.

Lemma date_ltb_false_le (a b : jsdate) :
  date_ltb b a = false <-> date_le a b.
Proof.
  unfold date_ltb, date_le.
  rewrite orb_false_iff, andb_false_iff.
  split.
  - intros [Hlt Heq].
    destruct (civil_lt_total (date_of a) (date_of b)) as [?|[E|H]];
      [by left| |].
    + right. split; [done|].
      destruct Heq as [Heq|Heq]; [|lia].
      apply not_true_iff_false in Heq. exfalso. apply Heq.
      by apply civil_eqb_eq.
    + apply civil_ltb_lt in H. congruence.
  - intros [H|[E Ht]].
    + split.
      * apply not_true_iff_false. rewrite civil_ltb_lt. intros H'.
        by apply (civil_lt_irrefl (date_of a)), (civil_lt_trans _ (date_of b)).
      * left. apply not_true_iff_false. rewrite civil_eqb_eq. intros E.
        rewrite E in H. by apply civil_lt_irrefl in H.
    + split.
      * apply not_true_iff_false. rewrite civil_ltb_lt, E.
        apply civil_lt_irrefl.
      * right. lia.
Qed.

Lemma date_leb_le (a b : jsdate) : date_leb a b = true <-> date_le a b.
Proof.
  unfold date_leb. rewrite negb_true_iff. apply date_ltb_false_le.
Qed.

Lemma date_leb_midnight (c : civil) (e : jsdate) :
  0 <= time_of e ->
  date_leb (JsDate c 0) e = civil_leb c (date_of e).
Proof.
  intros Ht. apply eq_true_iff_eq.
  rewrite date_leb_le, civil_leb_le. unfold date_le, civil_le; simpl.
  intuition.
Qed.

(** *** The day loop *)

Lemma day_loop_elem fuel cur e x :
  0 <= time_of e -> valid cur ->
  x ∈ day_loop fuel cur e ->
  time_of x = 0 /\ valid (date_of x) /\
  civil_le cur (date_of x) /\ civil_le (date_of x) (date_of e).
Proof.
  intros Ht. revert cur. induction fuel as [|fuel IH]; intros cur Hv; simpl.
  - by intros ?%elem_of_nil.
  - rewrite date_leb_midnight by done.
    destruct (civil_leb cur (date_of e)) eqn:Hle;
      [|by intros ?%elem_of_nil].
    apply civil_leb_le in Hle.
    intros [->|Hin]%elem_of_cons.
    + simpl. split_and!; [done|done|apply civil_le_refl|done].
    + destruct (IH _ (valid_next_day _ Hv) Hin) as (? & ? & ? & ?).
      split_and!; [done..| |done].
      left. eapply civil_lt_le_trans; [apply next_day_lt|done].
Qed.

Lemma day_loop_sorted fuel cur e :
  0 <= time_of e -> valid cur ->
  StronglySorted (fun a b => civil_lt (date_of a) (date_of b))
    (day_loop fuel cur e).
Proof.
  intros Ht. revert cur. induction fuel as [|fuel IH]; intros cur Hv; simpl.
  - constructor.
  - destruct (date_leb (JsDate cur 0) e); [|constructor].
    constructor; [by apply IH, valid_next_day|].
    apply Forall_forall. intros x Hx.
    apply day_loop_elem in Hx as (_ & _ & Hx & _);
      [|done|by apply valid_next_day].
    simpl. eapply civil_lt_le_trans; [apply next_day_lt|done].
Qed.

Lemma day_loop_complete fuel cur e x :
  0 <= time_of e -> valid cur -> valid (date_of e) -> valid x ->
  rank (date_of e) - rank cur + 1 <= Z.of_nat fuel ->
  civil_le cur x -> civil_le x (date_of e) ->
  JsDate x 0 ∈ day_loop fuel cur e.
Proof.
  intros Ht. revert cur.
  induction fuel as [|fuel IH]; intros cur Hv Hve Hvx Hfuel Hcx Hxe.
  - pose proof (rank_le cur x Hv Hvx Hcx).
    pose proof (rank_le x (date_of e) Hvx Hve Hxe). lia.
  - simpl. rewrite date_leb_midnight by done.
    assert (Hce : civil_le cur (date_of e)) by eauto using civil_le_trans.
    apply civil_leb_le in Hce as ->.
    destruct Hcx as [Hlt| ->]; [|by left].
    right. apply IH; try done.
    + by apply valid_next_day.
    + pose proof (rank_lt cur (next_day cur) Hv (valid_next_day _ Hv)
                    (next_day_lt cur)). lia.
    + by apply next_day_least.
Qed.

(** With the fuel [eachDayOfInterval] is given, the loop stops on its own
    condition: more fuel does not change the result. *)
Lemma day_loop_fuel fuel cur e :
  0 <= time_of e -> valid cur -> valid (date_of e) ->
  rank (date_of e) - rank cur + 1 <= Z.of_nat fuel ->
  day_loop (S fuel) cur e = day_loop fuel cur e.
Proof.
  intros Ht. revert cur. induction fuel as [|fuel IH]; intros cur Hv Hve Hfuel.
  - simpl. rewrite date_leb_midnight by done.
    destruct (civil_leb cur (date_of e)) eqn:Hle; [|done].
    apply civil_leb_le in Hle.
    pose proof (rank_le cur (date_of e) Hv Hve Hle). lia.
  - change (day_loop (S (S fuel)) cur e) with
      (if date_leb (JsDate cur 0) e
       then JsDate cur 0 :: day_loop (S fuel) (next_day cur) e else []).
    change (day_loop (S fuel) cur e) with
      (if date_leb (JsDate cur 0) e
       then JsDate cur 0 :: day_loop fuel (next_day cur) e else []).
    destruct (date_leb (JsDate cur 0) e); [|done].
    f_equal. apply IH; [by apply valid_next_day|done|].
    pose proof (rank_lt cur (next_day cur) Hv (valid_next_day _ Hv)
                  (next_day_lt cur)). lia.
Qed.

(** *** The month loop *)

Lemma first_day_next_month c : first_day c -> first_day (next_month c).
Proof.
  intros [Hm Hd]. unfold next_month, first_day.
  destruct (Z.ltb_spec (c_month c) 12); simpl; lia.
Qed.

Lemma month_index_next_month c :
  first_day c -> month_index (next_month c) = month_index c + 1.
Proof.
  intros [Hm Hd]. unfold next_month, month_index.
  destruct (Z.ltb_spec (c_month c) 12); simpl; lia.
Qed.

Lemma first_day_le c e :
  first_day c -> valid e ->
  civil_le c e <-> month_index c <= month_index e.
Proof.
  intros [Hm Hd] [Hme Hde].
  pose proof (days_in_month_bounds (c_year e) (c_month e)).
  unfold civil_le, civil_lt, month_index. split.
  - intros [H'| ->]; lia.
  - intros Hle.
    destruct (decide (c = e)) as [->|Hne]; [by right|left].
    assert (~ (c_year c = c_year e /\ c_month c = c_month e /\ c_day c = c_day e)).
    { intros (? & ? & ?). apply Hne. destruct c, e; simpl in *; congruence. }
    lia.
Qed.

Lemma month_loop_elem fuel cur e x :
  0 <= time_of e -> valid (date_of e) -> first_day cur ->
  x ∈ month_loop fuel cur e ->
  time_of x = 0 /\ first_day (date_of x) /\
  month_index cur <= month_index (date_of x) <= month_index (date_of e).
Proof.
  intros Ht Hve. revert cur.
  induction fuel as [|fuel IH]; intros cur Hf; simpl.
  - by intros ?%elem_of_nil.
  - rewrite date_leb_midnight by done.
    destruct (civil_leb cur (date_of e)) eqn:Hle;
      [|by intros ?%elem_of_nil].
    apply civil_leb_le, first_day_le in Hle; [|done..].
    intros [->|Hin]%elem_of_cons.
    + simpl. split_and!; [done|done|lia|done].
    + destruct (IH _ (first_day_next_month _ Hf) Hin) as (? & ? & ? & ?).
      rewrite month_index_next_month in * by done.
      split_and!; [done|done|lia|done].
Qed.

Lemma month_loop_sorted fuel cur e :
  0 <= time_of e -> valid (date_of e) -> first_day cur ->
  StronglySorted
    (fun a b => month_index (date_of a) < month_index (date_of b))
    (month_loop fuel cur e).
Proof.
  intros Ht Hve. revert cur. induction fuel as [|fuel IH]; intros cur Hf; simpl.
  - constructor.
  - destruct (date_leb (JsDate cur 0) e); [|constructor].
    constructor; [by apply IH, first_day_next_month|].
    apply Forall_forall. intros x Hx.
    apply month_loop_elem in Hx as (_ & _ & Hx & _);
      [|done|done|by apply first_day_next_month].
    rewrite month_index_next_month in Hx by done. simpl. lia.
Qed.

Lemma month_loop_complete fuel cur e y m :
  0 <= time_of e -> valid (date_of e) -> first_day cur ->
  1 <= m <= 12 ->
  month_index (date_of e) - month_index cur + 1 <= Z.of_nat fuel ->
  month_index cur <= y * 12 + m <= month_index (date_of e) ->
  JsDate (Civil y m 1) 0 ∈ month_loop fuel cur e.
Proof.
  intros Ht Hve. revert cur.
  induction fuel as [|fuel IH]; intros cur Hf Hm Hfuel Hrange; [lia|].
  simpl. rewrite date_leb_midnight by done.
  assert (Hce : civil_le cur (date_of e)) by (apply first_day_le; [done..|lia]).
  apply civil_leb_le in Hce as ->.
  destruct (decide (month_index cur = y * 12 + m)) as [Heq|Hne].
  - apply elem_of_cons; left. f_equal.
    destruct Hf as [Hcm Hcd]. unfold month_index in Heq.
    destruct cur as [cy cm cd]; simpl in *. f_equal; lia.
  - right. apply IH; try done.
    + by apply first_day_next_month.
    + rewrite month_index_next_month by done. lia.
    + rewrite month_index_next_month by done. lia.
Qed.

Lemma month_loop_fuel fuel cur e :
  0 <= time_of e -> valid (date_of e) -> first_day cur ->
  month_index (date_of e) - month_index cur + 1 <= Z.of_nat fuel ->
  month_loop (S fuel) cur e = month_loop fuel cur e.
Proof.
  intros Ht Hve. revert cur. induction fuel as [|fuel IH]; intros cur Hf Hfuel.
  - simpl. rewrite date_leb_midnight by done.
    destruct (civil_leb cur (date_of e)) eqn:Hle; [|done].
    apply civil_leb_le, first_day_le in Hle; [|done..]. lia.
  - change (month_loop (S (S fuel)) cur e) with
      (if date_leb (JsDate cur 0) e
       then JsDate cur 0 :: month_loop (S fuel) (next_month cur) e else []).
    change (month_loop (S fuel) cur e) with
      (if date_leb (JsDate cur 0) e
       then JsDate cur 0 :: month_loop fuel (next_month cur) e else []).
    destruct (date_leb (JsDate cur 0) e); [|done].
    f_equal. apply IH; [by apply first_day_next_month|].
    rewrite month_index_next_month by done. lia.
Qed.

End DateFacts.

(** ** The date functions on sample dates *)

Section DateExamples.

Example format_label_day :
  format_MMM_dd (JsDate (Civil 2024 1 5) 0) = "Jan 05"%string.
Proof. reflexivity. Qed.

Example format_label_month :
  format_MMM_yyyy (JsDate (Civil 2024 1 5) 0) = "Jan 2024"%string.
Proof. reflexivity. Qed.

Example subDays_across_february :
  subDays (JsDate (Civil 2024 3 3) 5) 7 = JsDate (Civil 2024 2 25) 5.
Proof. reflexivity. Qed.

Example subMonths_clamps_to_month_end :
  subMonths (JsDate (Civil 2024 3 31) 5) 1 = JsDate (Civil 2024 2 29) 5.
Proof. reflexivity. Qed.

Example subMonths_across_new_year :
  subMonths (JsDate (Civil 2024 1 31) 5) 1 = JsDate (Civil 2023 12 31) 5.
Proof. reflexivity. Qed.

Example subYears_from_leap_day :
  subYears (JsDate (Civil 2024 2 29) 5) 1 = JsDate (Civil 2023 2 28) 5.
Proof. reflexivity. Qed.

Example eachDayOfInterval_over_leap_day :
  eachDayOfInterval (JsDate (Civil 2024 2 28) 5) (JsDate (Civil 2024 3 1) 2)
  = Returns [JsDate (Civil 2024 2 28) 0; JsDate (Civil 2024 2 29) 0;
             JsDate (Civil 2024 3 1) 0].
Proof. reflexivity. Qed.

Example eachMonthOfInterval_over_new_year :
  eachMonthOfInterval (JsDate (Civil 2023 11 27) 5) (JsDate (Civil 2024 2 2) 5)
  = Returns [JsDate (Civil 2023 11 1) 0; JsDate (Civil 2023 12 1) 0;
             JsDate (Civil 2024 1 1) 0; JsDate (Civil 2024 2 1) 0].
Proof. reflexivity. Qed.

Example newDate_iso_east_of_utc :
  newDate_iso 19800000 (Civil 2024 3 1) = JsDate (Civil 2024 3 1) 19800000.
Proof. reflexivity. Qed.

Example newDate_iso_west_of_utc :
  newDate_iso (-18000000) (Civil 2024 3 1) = JsDate (Civil 2024 2 29) 68400000.
Proof. reflexivity. Qed.

End DateExamples.

(** ** Windows and generated intervals *)

Section WindowFacts.

Lemma iter_prev_day (n : nat) (c : civil) :
  valid c ->
  valid (Nat.iter n prev_day c) /\ civil_le (Nat.iter n prev_day c) c.
Proof.
  intros Hv. induction n as [|n [IHv IHle]]; simpl.
  - split; [done|apply civil_le_refl].
  - split; [by apply valid_prev_day|].
    left. eapply civil_lt_le_trans; [by apply prev_day_lt|done].
Qed.

Lemma civil_le_date_le (a b : jsdate) :
  civil_le (date_of a) (date_of b) -> time_of a = time_of b -> date_le a b.
Proof. intros [H|H] Ht; [by left|right; split; [done|lia]]. Qed.

Lemma date_le_civil_le (a b : jsdate) :
  date_le a b -> civil_le (date_of a) (date_of b).
Proof. intros [H|[H _]]; [by left|by right]. Qed.

Lemma subDays_before (d : jsdate) (n : Z) :
  wf_date d -> 0 < n ->
  wf_date (subDays d n) /\ date_le (subDays d n) d.
Proof.
  intros [Hv Ht] Hn. unfold subDays, addDays, shift_days.
  destruct (Z.leb_spec 0 (- n)); [lia|].
  destruct (iter_prev_day (Z.to_nat (- - n)) (date_of d) Hv) as [Hv' Hle].
  split; [by split|]. by apply civil_le_date_le.
Qed.

Lemma addMonths_before (d : jsdate) (amount : Z) :
  wf_date d -> amount < 0 ->
  wf_date (addMonths d amount) /\ date_le (addMonths d amount) d.
Proof.
  intros [[Hm Hd] Ht] Ha. unfold addMonths.
  set (idx := c_year (date_of d) * 12 + (c_month (date_of d) - 1) + amount).
  pose proof (days_in_month_bounds (idx / 12) (idx mod 12 + 1)) as Hb.
  assert (Hmod : 0 <= idx mod 12 < 12) by (apply Z.mod_pos_bound; lia).
  assert (Hdiv : idx = 12 * (idx / 12) + idx mod 12)
    by (apply Z.div_mod; lia).
  assert (Hlt : civil_lt (Civil (idx / 12) (idx mod 12 + 1) 1)
                         (Civil (c_year (date_of d)) (c_month (date_of d)) 1) \/
                False).
  { left. unfold civil_lt; simpl. subst idx. lia. }
  destruct Hlt as [Hlt|[]].
  assert (Hlex : forall x,
             civil_lt (Civil (idx / 12) (idx mod 12 + 1) x) (date_of d)).
  { intros x. unfold civil_lt in *; simpl in *. lia. }
  destruct (Z.leb_spec (days_in_month (idx / 12) (idx mod 12 + 1))
              (c_day (date_of d))).
  - split; [split; [split; simpl; lia|done]|]. left. apply Hlex.
  - split; [split; [split; simpl; lia|done]|]. left. apply Hlex.
Qed.

Lemma getDateRange_ordered (viewMode : Analytics.ViewMode) (now : jsdate) :
  wf_date now ->
  wf_date (Analytics.getDateRange viewMode now).1 /\
  (Analytics.getDateRange viewMode now).2 = now /\
  date_le (Analytics.getDateRange viewMode now).1
          (Analytics.getDateRange viewMode now).2.
Proof.
  intros Hwf. destruct viewMode; simpl.
  - destruct (subDays_before now 7 Hwf) as [? ?]; [lia|done].
  - destruct (addMonths_before now (- 1) Hwf) as [? ?]; [lia|done].
  - destruct (addMonths_before now (- 1 * 12) Hwf) as [? ?]; [lia|done].
Qed.

Lemma sorted_last {A} (R : A -> A -> Prop) (l : list A) (x : A) :
  (forall a, ~ R a a) -> (forall a b c, R a b -> R b c -> R a c) ->
  StronglySorted R l -> x ∈ l -> (forall y, y ∈ l -> y = x \/ R y x) ->
  last l = Some x.
Proof.
  intros Hirr Htr Hs. induction Hs as [|a l Hs IH Hall]; intros Hx Hmax.
  - by apply elem_of_nil in Hx.
  - destruct l as [|b l]; [by apply list_elem_of_singleton in Hx as ->|].
    rewrite last_cons.
    assert (Hxl : x ∈ b :: l).
    { apply elem_of_cons in Hx as [->|Hx]; [|done].
      exfalso. rewrite Forall_forall in Hall.
      assert (Hb : b ∈ b :: l) by left.
      destruct (Hmax b) as [->|Hba]; [by right| |].
      - by apply (Hirr a), Hall.
      - apply (Hirr a). eapply Htr; [by apply Hall|done]. }
    rewrite IH; [done|done|]. intros y Hy. apply Hmax. by right.
Qed.

Lemma StronglySorted_map {A B} (R : A -> A -> Prop) (R' : B -> B -> Prop)
    (f : A -> B) (l : list A) :
  (forall a b, a ∈ l -> b ∈ l -> R a b -> R' (f a) (f b)) ->
  StronglySorted R l -> StronglySorted R' (map f l).
Proof.
  intros Hf Hs. induction Hs as [|a l Hs IH Hall]; simpl; [constructor|].
  constructor.
  - apply IH. intros x y Hx Hy. apply Hf; by right.
  - apply Forall_forall. intros k (x & -> & Hx)%list_elem_of_fmap.
    apply Hf; [by left|by right|].
    by apply (proj1 (Forall_forall _ _) Hall).
Qed.

Lemma eachDayOfInterval_returns (start end_ : jsdate) :
  date_le start end_ ->
  eachDayOfInterval start end_ =
    Returns (day_loop (day_fuel start end_) (date_of start) end_).
Proof.
  intros Hle. unfold eachDayOfInterval.
  by apply date_ltb_false_le in Hle as ->.
Qed.

Lemma eachMonthOfInterval_returns (start end_ : jsdate) :
  date_le start end_ ->
  eachMonthOfInterval start end_ =
    Returns (month_loop (month_fuel start end_)
               (first_of_month (date_of start)) end_).
Proof.
  intros Hle. unfold eachMonthOfInterval.
  by apply date_ltb_false_le in Hle as ->.
Qed.

Lemma day_fuel_enough (start end_ : jsdate) :
  valid (date_of start) -> valid (date_of end_) ->
  civil_le (date_of start) (date_of end_) ->
  rank (date_of end_) - rank (date_of start) + 1
    <= Z.of_nat (day_fuel start end_) /\
  exists n, day_fuel start end_ = S n.
Proof.
  intros Hs He Hle. pose proof (rank_le _ _ Hs He Hle).
  unfold day_fuel. split; [lia|].
  exists (Z.to_nat (rank (date_of end_) - rank (date_of start))). lia.
Qed.

Lemma month_fuel_enough (start end_ : jsdate) :
  valid (date_of start) -> valid (date_of end_) ->
  civil_le (date_of start) (date_of end_) ->
  month_index (date_of end_) - month_index (first_of_month (date_of start)) + 1
    <= Z.of_nat (month_fuel start end_) /\
  month_index (date_of start) <= month_index (date_of end_) /\
  exists n, month_fuel start end_ = S n.
Proof.
  intros [Hm Hd] [Hme Hde] Hle.
  assert (month_index (date_of start) <= month_index (date_of end_)).
  { unfold month_index. destruct Hle as [Hlt|E]; [|rewrite E; lia].
    unfold civil_lt in Hlt. lia. }
  unfold month_fuel, first_of_month, month_index in *; simpl.
  split; [lia|]. split; [lia|].
  exists (Z.to_nat (c_year (date_of end_) * 12 + c_month (date_of end_) -
                    (c_year (date_of start) * 12 + c_month (date_of start)))).
  lia.
Qed.

(** The keys of the day buckets from [start] to [end_]. *)
Lemma day_keys_spec (start end_ : jsdate) :
  wf_date start -> wf_date end_ -> date_le start end_ ->
  let l := day_loop (day_fuel start end_) (date_of start) end_ in
  let keys := map format_yyyy_MM_dd l in
  l <> [] /\
  StronglySorted key_lt keys /\
  head keys = Some (format_yyyy_MM_dd start) /\
  last keys = Some (format_yyyy_MM_dd end_) /\
  (forall c, DayKey c ∈ keys <->
     valid c /\ civil_le (date_of start) c /\ civil_le c (date_of end_)) /\
  (forall y m, MonthKey y m ∉ keys).
Proof.
  intros [Hvs Hts] [Hve Hte] Hle l keys.
  apply date_le_civil_le in Hle.
  destruct (day_fuel_enough start end_) as [Hfuel [n Hn]]; [done..|].
  assert (Ht0 : 0 <= time_of end_) by lia.
  assert (Hmem : forall c, DayKey c ∈ keys <->
     valid c /\ civil_le (date_of start) c /\ civil_le c (date_of end_)).
  { intros c. subst keys. rewrite list_elem_of_fmap. split.
    - intros (x & [= ->] & Hx).
      apply day_loop_elem in Hx as (? & ? & ? & ?); done.
    - intros (Hvc & H1 & H2). exists (JsDate c 0). split; [done|].
      by apply day_loop_complete. }
  assert (Hsorted : StronglySorted key_lt keys).
  { subst keys.
    eapply StronglySorted_map; [|by apply day_loop_sorted].
    by intros a b _ _ Hab. }
  split_and!; try done.
  - subst l. rewrite Hn. simpl.
    rewrite date_leb_midnight by done.
    by apply civil_leb_le in Hle as ->.
  - subst keys l. rewrite Hn. simpl.
    rewrite date_leb_midnight by done.
    by apply civil_leb_le in Hle as ->.
  - apply (sorted_last key_lt); try done.
    + intros [c|y m]; simpl; [apply civil_lt_irrefl|lia].
    + intros [a|y1 m1] [b|y2 m2] [c|y3 m3]; simpl; try done;
        [apply civil_lt_trans|lia].
    + apply Hmem. split_and!; [done|done|apply civil_le_refl].
    + intros [c|y m] Hy.
      * apply Hmem in Hy as (? & ? & [?| ->]); [by right|by left].
      * subst keys. apply list_elem_of_fmap in Hy as (x & [=] & _).
  - intros y m (x & [=] & _)%list_elem_of_fmap.
Qed.

(** The keys of the month buckets from [start] to [end_]. *)
Lemma month_keys_spec (start end_ : jsdate) :
  wf_date start -> wf_date end_ -> date_le start end_ ->
  let l := month_loop (month_fuel start end_)
             (first_of_month (date_of start)) end_ in
  let keys := map format_yyyy_MM l in
  l <> [] /\
  StronglySorted key_lt keys /\
  head keys = Some (format_yyyy_MM start) /\
  last keys = Some (format_yyyy_MM end_) /\
  (forall y m, MonthKey y m ∈ keys <->
     1 <= m <= 12 /\
     month_index (date_of start) <= y * 12 + m <= month_index (date_of end_)) /\
  (forall c, DayKey c ∉ keys).
Proof.
  intros [Hvs Hts] [Hve Hte] Hle l keys.
  apply date_le_civil_le in Hle.
  destruct (month_fuel_enough start end_) as (Hfuel & Hidx & [n Hn]);
    [done..|].
  assert (Ht0 : 0 <= time_of end_) by lia.
  assert (Hf : first_day (first_of_month (date_of start))).
  { destruct Hvs as [? _]. by split. }
  assert (Hfirst : civil_leb (first_of_month (date_of start)) (date_of end_)
                   = true).
  { apply civil_leb_le, first_day_le; [done..|].
    unfold first_of_month, month_index in *; simpl. lia. }
  assert (Hmem : forall y m, MonthKey y m ∈ keys <->
     1 <= m <= 12 /\
     month_index (date_of start) <= y * 12 + m <= month_index (date_of end_)).
  { intros y m. subst keys. rewrite list_elem_of_fmap. split.
    - intros (x & [= -> ->] & Hx).
      apply month_loop_elem in Hx as (? & [? ?] & ?); [|done..].
      unfold first_of_month, month_index in *; simpl in *. lia.
    - intros (Hm & H1). exists (JsDate (Civil y m 1) 0). split; [done|].
      by apply month_loop_complete. }
  assert (Hsorted : StronglySorted key_lt keys).
  { subst keys.
    eapply StronglySorted_map; [|by apply month_loop_sorted].
    intros a b Ha Hb Hab. simpl.
    apply month_loop_elem in Ha as (_ & [Ha _] & _); [|done..].
    apply month_loop_elem in Hb as (_ & [Hb _] & _); [|done..].
    unfold month_index in Hab. lia. }
  split_and!; try done.
  - subst l. rewrite Hn. simpl.
    rewrite date_leb_midnight by done. by rewrite Hfirst.
  - subst keys l. rewrite Hn. simpl.
    rewrite date_leb_midnight by done. by rewrite Hfirst.
  - apply (sorted_last key_lt); try done.
    + intros [c|y m]; simpl; [apply civil_lt_irrefl|lia].
    + intros [a|y1 m1] [b|y2 m2] [c|y3 m3]; simpl; try done;
        [apply civil_lt_trans|lia].
    + apply Hmem. destruct Hve as [? _]. unfold month_index in *. lia.
    + intros [c|y m] Hy.
      * subst keys. apply list_elem_of_fmap in Hy as (x & [=] & _).
      * apply Hmem in Hy as [Hm Hr]. destruct Hve as [Hme _].
        unfold format_yyyy_MM, month_index in *; simpl.
        destruct (decide (y = c_year (date_of end_) /\
                          m = c_month (date_of end_))) as [[-> ->]|Hne];
          [by left|right; lia].
  - intros c (x & [=] & _)%list_elem_of_fmap.
Qed.

End WindowFacts.

(** ** The interval generator *)

Section IntervalGenerator.

Import Analytics.

Lemma generateDateIntervals_keys (viewMode : ViewMode) (start end_ : jsdate) :
  date_le start end_ ->
  exists intervals,
    generateDateIntervals viewMode start end_ = Returns intervals /\
    length intervals =
      length (match viewMode with
              | year => month_loop (month_fuel start end_)
                          (first_of_month (date_of start)) end_
              | _ => day_loop (day_fuel start end_) (date_of start) end_
              end) /\
    map dateValue intervals =
      match viewMode with
      | year => map format_yyyy_MM
                  (month_loop (month_fuel start end_)
                     (first_of_month (date_of start)) end_)
      | _ => map format_yyyy_MM_dd
               (day_loop (day_fuel start end_) (date_of start) end_)
      end.
Proof.
  intros Hle. unfold generateDateIntervals.
  destruct viewMode;
    rewrite ?eachDayOfInterval_returns, ?eachMonthOfInterval_returns by done;
    simpl; eexists; (split; [reflexivity|]);
    rewrite length_map, map_map; done.
Qed.

Lemma generated_keys_spec (viewMode : ViewMode) (start end_ : jsdate) :
  wf_date start -> wf_date end_ -> date_le start end_ ->
  exists intervals,
    generateDateIntervals viewMode start end_ = Returns intervals /\
    intervals <> [] /\
    StronglySorted key_lt (map dateValue intervals) /\
    head (map dateValue intervals) = Some (bucket_key viewMode start) /\
    last (map dateValue intervals) = Some (bucket_key viewMode end_) /\
    forall k, k ∈ map dateValue intervals <-> window_key viewMode start end_ k.
Proof.
  intros Hs He Hle.
  destruct (generateDateIntervals_keys viewMode start end_ Hle)
    as (intervals & Hgen & Hlen & Hkeys).
  exists intervals. split; [done|]. rewrite Hkeys.
  assert (Hne : forall {A} (l : list A),
             length intervals = length l -> l <> [] -> intervals <> []).
  { intros A l Hl Hnil ->. destruct l; simpl in *; congruence. }
  destruct viewMode.
  - destruct (day_keys_spec start end_ Hs He Hle) as (Hn & ? & ? & ? & Hd & Hm).
    split_and!; try done; [by eapply Hne|].
    intros [c|y m]; simpl; [apply Hd|]. split; [by intros ?%Hm|done].
  - destruct (day_keys_spec start end_ Hs He Hle) as (Hn & ? & ? & ? & Hd & Hm).
    split_and!; try done; [by eapply Hne|].
    intros [c|y m]; simpl; [apply Hd|]. split; [by intros ?%Hm|done].
  - destruct (month_keys_spec start end_ Hs He Hle)
      as (Hn & ? & ? & ? & Hm & Hd).
    split_and!; try done; [by eapply Hne|].
    intros [c|y m]; simpl; [|apply Hm]. split; [by intros ?%Hd|done].
Qed.

(** C3: for [start <= end_] and either granularity (the day buckets of the
    week and month presets, the month buckets of the year preset) the
    interval generator returns a non-empty list of buckets whose keys are
    strictly chronologically ascending, begin with the key of [start], end
    with the key of [end_], and are exactly the calendar days (calendar
    months) from the one of [start] to the one of [end_]. *)
Theorem generateDateIntervals_ascending_inclusive
    (viewMode : ViewMode) (start end_ : jsdate) :
  wf_date start -> wf_date end_ -> date_le start end_ ->
  exists intervals,
    generateDateIntervals viewMode start end_ = Returns intervals /\
    intervals <> [] /\
    StronglySorted key_lt (map dateValue intervals) /\
    head (map dateValue intervals) = Some (bucket_key viewMode start) /\
    last (map dateValue intervals) = Some (bucket_key viewMode end_) /\
    forall k, k ∈ map dateValue intervals <-> window_key viewMode start end_ k.
Proof. apply generated_keys_spec. Qed.

Lemma generateDateIntervals_ascending_inclusive_witness :
  exists intervals,
    generateDateIntervals week
      (JsDate (Civil 2024 2 27) 1000) (JsDate (Civil 2024 3 2) 500)
    = Returns intervals /\
    intervals <> [] /\
    StronglySorted key_lt (map dateValue intervals) /\
    head (map dateValue intervals)
    = Some (bucket_key week (JsDate (Civil 2024 2 27) 1000)) /\
    last (map dateValue intervals)
    = Some (bucket_key week (JsDate (Civil 2024 3 2) 500)) /\
    forall k, k ∈ map dateValue intervals <->
              window_key week (JsDate (Civil 2024 2 27) 1000)
                (JsDate (Civil 2024 3 2) 500) k.
Proof.
  apply (generateDateIntervals_ascending_inclusive week
           (JsDate (Civil 2024 2 27) 1000) (JsDate (Civil 2024 3 2) 500)).
  - repeat split; vm_compute; congruence.
  - repeat split; vm_compute; congruence.
  - apply date_leb_le. reflexivity.
Defined.

Lemma generateDateIntervals_reversed
    (viewMode : ViewMode) (start end_ : jsdate) :
  date_ltb end_ start = true ->
  generateDateIntervals viewMode start end_
  = Throws (RangeError "Invalid interval").
Proof.
  intros H. unfold generateDateIntervals, eachDayOfInterval,
    eachMonthOfInterval. rewrite H. by destruct viewMode.
Qed.

(** C9: the interval generator fails with the invalid-range condition when
    [start] is after [end_]; the window of every preset, anchored at any
    moment [now], has its start no later than its end, so that on the
    windows the program builds the generator returns. *)
Theorem invalid_range_unreachable
    (viewMode preset : ViewMode) (start end_ now : jsdate) :
  date_ltb end_ start = true ->
  wf_date now ->
  generateDateIntervals viewMode start end_
  = Throws (RangeError "Invalid interval") /\
  date_ltb (getDateRange preset now).2 (getDateRange preset now).1 = false /\
  exists intervals,
    generateDateIntervals preset
      (getDateRange preset now).1 (getDateRange preset now).2
    = Returns intervals.
Proof.
  intros Hrev Hnow. split; [by apply generateDateIntervals_reversed|].
  destruct (getDateRange_ordered preset now Hnow) as (Hwf & Hend & Hle).
  split; [by apply date_ltb_false_le|].
  destruct (generateDateIntervals_keys preset _ _ Hle) as (ivs & Hgen & _).
  by exists ivs.
Qed.

Lemma invalid_range_unreachable_witness :
  generateDateIntervals month
    (JsDate (Civil 2024 3 2) 0) (JsDate (Civil 2024 3 1) 0)
  = Throws (RangeError "Invalid interval") /\
  date_ltb (getDateRange year (JsDate (Civil 2024 2 29) 43200000)).2
           (getDateRange year (JsDate (Civil 2024 2 29) 43200000)).1 = false /\
  exists intervals,
    generateDateIntervals year
      (getDateRange year (JsDate (Civil 2024 2 29) 43200000)).1
      (getDateRange year (JsDate (Civil 2024 2 29) 43200000)).2
    = Returns intervals.
Proof.
  apply (invalid_range_unreachable month year
           (JsDate (Civil 2024 3 2) 0) (JsDate (Civil 2024 3 1) 0)
           (JsDate (Civil 2024 2 29) 43200000)).
  - reflexivity.
  - repeat split; vm_compute; congruence.
Defined.

End IntervalGenerator.

(** ** Aggregation into buckets *)

Section Aggregation.

Import Analytics.

Lemma fold_left_ext_in {A B} (f g : A -> B -> A) (l : list B) (a : A) :
  (forall x b, b ∈ l -> f x b = g x b) -> fold_left f l a = fold_left g l a.
Proof.
  revert a. induction l as [|b l IH]; intros a H; simpl; [done|].
  rewrite (H a b) by left. apply IH. intros x b' Hb. apply H. by right.
Qed.

Lemma filter_ext_bool {A} (p q : A -> bool) (l : list A) :
  (forall a, p a = q a) -> List.filter p l = List.filter q l.
Proof.
  intros H. induction l as [|x l IH]; simpl; [done|]. by rewrite H, IH.
Qed.

Lemma filter_bool_all {A} (p : A -> bool) (l : list A) :
  (forall a, a ∈ l -> p a = true) -> List.filter p l = l.
Proof.
  induction l as [|x l IH]; intros H; simpl; [done|].
  rewrite (H x) by left. f_equal. apply IH. intros a Ha. apply H. by right.
Qed.

Lemma filter_bool_none {A} (p : A -> bool) (l : list A) :
  (forall a, a ∈ l -> p a = false) -> List.filter p l = [].
Proof.
  induction l as [|x l IH]; intros H; simpl; [done|].
  rewrite (H x) by left. apply IH. intros a Ha. apply H. by right.
Qed.

Lemma flat_map_fmap {A B C} (f : B -> list C) (g : A -> B) (l : list A) :
  flat_map f (map g l) = flat_map (fun a => f (g a)) l.
Proof. induction l as [|a l IH]; simpl; [done|]. by rewrite IH. Qed.

(** Matching every key of a duplicate-free list in turn takes each entry
    once if its key is in the list, and not at all otherwise. *)
Lemma buckets_partition {K} `{EqDecision K}
    (key : entry -> K) (keys : list K) (data : list entry) :
  NoDup keys ->
  (flat_map (fun k => List.filter (fun e => bool_decide (key e = k)) data)
     keys)
  ≡ₚ List.filter (fun e => bool_decide (key e ∈ keys)) data.
Proof.
  induction 1 as [|k keys Hk Hnd IH]; simpl.
  - by rewrite filter_bool_none.
  - rewrite IH. clear IH. induction data as [|e data IHd]; simpl; [done|].
    destruct (decide (key e = k)) as [Hek|Hek].
    + rewrite (bool_decide_eq_true_2 (key e = k)) by done.
      rewrite (bool_decide_eq_true_2 (key e ∈ k :: keys))
        by (rewrite Hek; left).
      rewrite (bool_decide_eq_false_2 (key e ∈ keys)) by by rewrite Hek.
      simpl. by constructor.
    + rewrite (bool_decide_eq_false_2 (key e = k)) by done.
      destruct (decide (key e ∈ keys)) as [Hin|Hnin].
      * rewrite (bool_decide_eq_true_2 (key e ∈ keys)) by done.
        rewrite (bool_decide_eq_true_2 (key e ∈ k :: keys)) by by right.
        rewrite <- Permutation_middle. by constructor.
      * rewrite (bool_decide_eq_false_2 (key e ∈ keys)) by done.
        rewrite (bool_decide_eq_false_2 (key e ∈ k :: keys));
          [done|by intros [?|?]%elem_of_cons].
Qed.

Lemma sorted_keys_NoDup (keys : list datekey) :
  StronglySorted key_lt keys -> NoDup keys.
Proof.
  induction 1 as [|k keys Hs IH Hall]; constructor; [|done].
  intros Hin. apply (proj1 (Forall_forall _ _) Hall) in Hin.
  destruct k; simpl in Hin; [by apply civil_lt_irrefl in Hin|lia].
Qed.

Lemma matches_interval_key (viewMode : ViewMode) (tz : Z)
    (iv : interval) (e : entry) :
  matches_interval viewMode tz iv e
  = bool_decide (entry_key viewMode tz e = dateValue iv).
Proof. by destruct viewMode. Qed.

(** The key an entry is compared under is the key of its date, for the day
    buckets always and for the month buckets at or east of UTC. *)
Lemma entry_key_of_date (viewMode : ViewMode) (tz : Z) (e : entry) :
  viewMode <> year \/ 0 <= tz ->
  entry_key viewMode tz e = key_of_date viewMode (workout_date e).
Proof.
  intros Hmode. destruct viewMode; try done.
  destruct Hmode as [?|Htz]; [done|].
  unfold entry_key, key_of_date, newDate_iso.
  by destruct (Z.leb_spec 0 tz); [|lia].
Qed.

Lemma civil_le_month_index (a b : civil) :
  valid a -> valid b -> civil_le a b -> month_index a <= month_index b.
Proof.
  intros [Ha _] [Hb _] [Hlt| ->]; [|lia].
  unfold civil_lt in Hlt. unfold month_index. lia.
Qed.

(** The key of a valid date within the window is the key of a bucket. *)
Lemma key_of_date_in_window (viewMode : ViewMode) (start end_ : jsdate)
    (e : entry) :
  wf_date start -> wf_date end_ -> valid (workout_date e) ->
  in_window start end_ e = true ->
  window_key viewMode start end_ (key_of_date viewMode (workout_date e)).
Proof.
  intros [Hs _] [He _] Hv [H1%civil_leb_le H2%civil_leb_le]%andb_true_iff.
  destruct viewMode; simpl; try done.
  split; [apply Hv|]. change (c_year (workout_date e) * 12
                              + c_month (workout_date e))
    with (month_index (workout_date e)).
  split; by apply civil_le_month_index.
Qed.

Lemma single_record_date viewMode tz data iv :
  single_record viewMode tz data iv !! "date" = Some (JStr (date iv)).
Proof. unfold single_record. by rewrite lookup_insert_eq. Qed.

Lemma single_record_effort viewMode tz (data : list entry) iv :
  single_record viewMode tz (Some data) iv !! "effort"
  = Some (JNum (or_zero
                  (Some (reduce_effort
                           (List.filter
                              (fun e => bool_decide
                                          (entry_key viewMode tz e
                                           = dateValue iv))
                              data))))).
Proof.
  unfold single_record. rewrite lookup_insert_ne by done.
  rewrite lookup_insert_eq. simpl.
  rewrite (filter_ext_bool (matches_interval viewMode tz iv)
             (fun e => bool_decide (entry_key viewMode tz e = dateValue iv)));
    [done|].
  intros e. apply matches_interval_key.
Qed.

Lemma single_record_effort_none viewMode tz iv :
  single_record viewMode tz None iv !! "effort" = Some (JNum 0).
Proof.
  unfold single_record. rewrite lookup_insert_ne by done.
  by rewrite lookup_insert_eq.
Qed.

Lemma single_record_keys viewMode tz data iv :
  dom (single_record viewMode tz data iv)
  = ({["date"; "effort"]} : gset string).
Proof. unfold single_record. rewrite !dom_insert_L. set_solver. Qed.

(** The sum of a bucket, for stored rows: each effort is read as the number
    nearest [weight_kg * reps]. *)
Lemma reduce_effort_stored (l : list entry) :
  Forall (fun e => effort e = generated_effort (weight_kg e) (reps e)) l ->
  reduce_effort l
  = fold_left
      (fun sum e => (sum + parse_decimal (weight_kg e * reps e))%float)
      l 0%float.
Proof.
  intros Hstored. unfold reduce_effort. apply fold_left_ext_in.
  intros x e He. apply (proj1 (Forall_forall _ _) Hstored) in He.
  by rewrite He.
Qed.

(** C2, as amended: for every bucket sequence and every list of stored
    entries, single-exercise aggregation returns one record per bucket, in
    bucket order.  A record carries its bucket's label and, as effort, the
    binary64 sum, taken from 0 in row order, of the numbers nearest
    [weight_kg * reps] of the entries whose date has the bucket's key; it
    carries 0 when there is none.  When the buckets are those of a window,
    every entry dated within the window is summed in exactly one bucket.
    This is stated for the day buckets, and for the month buckets at or
    east of UTC. *)
Theorem single_aggregation_records
    (viewMode : ViewMode) (tz : Z) (buckets : list interval)
    (data : list entry) (start end_ : jsdate) :
  Forall (fun e => effort e = generated_effort (weight_kg e) (reps e)) data ->
  Forall (fun e => valid (workout_date e)) data ->
  wf_date start -> wf_date end_ -> date_le start end_ ->
  viewMode <> year \/ 0 <= tz ->
  let processedData := map (single_record viewMode tz (Some data)) buckets in
  let matched (iv : interval) :=
    List.filter
      (fun e => bool_decide
                  (key_of_date viewMode (workout_date e) = dateValue iv)) in
  length processedData = length buckets /\
  (forall i iv, buckets !! i = Some iv ->
     exists r, processedData !! i = Some r /\
       r !! "date" = Some (JStr (date iv)) /\
       r !! "effort"
       = Some (JNum
                 (or_zero
                    (Some (fold_left
                             (fun sum e =>
                                (sum + parse_decimal (weight_kg e * reps e))
                                  %float)
                             (matched iv data) 0%float)))) /\
       (matched iv data = [] -> r !! "effort" = Some (JNum 0))) /\
  (generateDateIntervals viewMode start end_ = Returns buckets ->
   let window := List.filter (in_window start end_) data in
   (flat_map (fun iv => matched iv window) buckets) ≡ₚ window).
Proof.
  intros Hstored Hvalid Hs He Hle Hmode processedData matched.
  assert (Hmatched : forall iv l,
    List.filter
      (fun e => bool_decide (entry_key viewMode tz e = dateValue iv)) l
    = matched iv l).
  { intros iv l. apply filter_ext_bool. intros e.
    by rewrite entry_key_of_date. }
  split; [apply length_map|]. split.
  - intros i iv Hi. exists (single_record viewMode tz (Some data) iv).
    assert (Heff : single_record viewMode tz (Some data) iv !! "effort"
      = Some (JNum
                (or_zero
                   (Some (fold_left
                            (fun sum e =>
                               (sum + parse_decimal (weight_kg e * reps e))
                                 %float)
                            (matched iv data) 0%float))))).
    { rewrite single_record_effort, Hmatched, reduce_effort_stored; [done|].
      apply Forall_forall. intros e Hin. subst matched. simpl in Hin.
      apply list_elem_of_In, filter_In in Hin as [Hin _].
      apply list_elem_of_In in Hin.
      by apply (proj1 (Forall_forall _ _) Hstored). }
    split; [|split; [apply single_record_date|split; [exact Heff|]]].
    + subst processedData.
      change (map ?f ?l) with (f <$> l). by rewrite list_lookup_fmap, Hi.
    + intros Hnone. by rewrite Heff, Hnone.
  - intros Hgen window.
    destruct (generated_keys_spec viewMode start end_ Hs He Hle)
      as (ivs & Hgen' & _ & Hsorted & _ & _ & Hmem).
    rewrite Hgen in Hgen'. injection Hgen' as <-. unfold matched.
    pose proof (flat_map_fmap
                  (fun k => List.filter
                              (fun e => bool_decide
                                          (key_of_date viewMode (workout_date e)
                                           = k)) window) dateValue buckets)
      as Hkeys.
    cbv beta in *. rewrite <- Hkeys.
    rewrite buckets_partition by by apply sorted_keys_NoDup.
    rewrite filter_bool_all; [done|].
    intros e Hin. apply bool_decide_eq_true_2, Hmem.
    subst window. apply list_elem_of_In, filter_In in Hin as [Hin Hw].
    apply list_elem_of_In in Hin.
    apply key_of_date_in_window; try done.
    by apply (proj1 (Forall_forall _ _) Hvalid).
Qed.

End Aggregation.

(** ** Group series *)

Section GroupSeries.

Import Analytics.

Lemma distinct_spec (seen l : list string) (x : string) :
  x ∈ distinct seen l <-> x ∈ l /\ x ∉ seen.
Proof.
  revert seen. induction l as [|y l IH]; intros seen; simpl.
  - split; [by intros ?%elem_of_nil|by intros [?%elem_of_nil _]].
  - case_bool_decide as Hy.
    + rewrite IH, elem_of_cons. split; [tauto|].
      intros [[->|?] ?]; [done|tauto].
    + rewrite !elem_of_cons, IH, elem_of_cons. split.
      * intros [->|[? ?]]; [tauto|]. split; [tauto|]. intros ?. tauto.
      * intros [[->|?] ?]; [tauto|].
        destruct (decide (x = y)) as [->|?]; [tauto|]. right. split; [done|].
        intros [?|?]; done.
Qed.

Lemma distinct_NoDup (seen l : list string) : NoDup (distinct seen l).
Proof.
  revert seen. induction l as [|y l IH]; intros seen; simpl; [constructor|].
  case_bool_decide as Hy; [apply IH|].
  constructor; [|apply IH].
  rewrite distinct_spec. intros [_ H]. apply H. by left.
Qed.

Lemma truthy_spec (s : string) : truthy s = true <-> s <> EmptyString.
Proof.
  unfold truthy. rewrite negb_true_iff, bool_decide_eq_false. done.
Qed.

Lemma exerciseNames_of_spec (data : list entry) (n : string) :
  n ∈ exerciseNames_of (Some data) <->
  n <> EmptyString /\
  exists e, e ∈ data /\ name <$> exercises e = Some n.
Proof.
  unfold exerciseNames_of. rewrite distinct_spec, list_elem_of_omap. split.
  - intros [(e & He & Hn) _]. destruct (name <$> exercises e) as [m|] eqn:Hm;
      [|done].
    destruct (truthy m) eqn:Ht; [|done]. injection Hn as ->.
    apply truthy_spec in Ht. eauto.
  - intros (Hne & e & He & Hn). split; [|by intros ?%elem_of_nil].
    exists e. split; [done|]. rewrite Hn.
    by apply truthy_spec in Hne as ->.
Qed.

Lemma exerciseNames_of_NoDup data : NoDup (exerciseNames_of data).
Proof. destruct data; [apply distinct_NoDup|constructor]. Qed.

Lemma exerciseNames_of_truthy data :
  Forall (fun n => truthy n = true) (exerciseNames_of data).
Proof.
  destruct data as [l|]; [|constructor]. apply Forall_forall. intros n Hn.
  apply exerciseNames_of_spec in Hn as [Hne _]. by apply truthy_spec.
Qed.

Lemma fold_js_set_lookup (g : string -> jsval) (names : list string)
    (m : gmap string jsval) (k : string) :
  fold_left (fun r n => js_set n (g n) r) names m !! k
  = if bool_decide (k ∈ names) && negb (bool_decide (k = "__proto__"))
    then Some (g k) else m !! k.
Proof.
  revert m. induction names as [|n names IH]; intros m; simpl; [done|].
  rewrite IH. destruct (decide (k = "__proto__")) as [->|Hproto].
  - rewrite (bool_decide_eq_true_2 ("__proto__" = "__proto__")) by done.
    rewrite !andb_false_r. unfold js_set.
    destruct (decide (n = "__proto__")) as [Hn|Hn].
    + by rewrite (bool_decide_eq_true_2 (n = "__proto__")).
    + rewrite (bool_decide_eq_false_2 (n = "__proto__")) by done.
      by rewrite lookup_insert_ne.
  - rewrite (bool_decide_eq_false_2 (k = "__proto__")) by done.
    rewrite !andb_true_r. destruct (decide (k ∈ names)) as [Hin|Hnin].
    + rewrite !bool_decide_eq_true_2; [done|by right|done].
    + rewrite (bool_decide_eq_false_2 (k ∈ names)) by done.
      destruct (decide (k = n)) as [->|Hne].
      * rewrite bool_decide_eq_true_2 by left. unfold js_set.
        rewrite bool_decide_eq_false_2 by done. apply lookup_insert_eq.
      * rewrite bool_decide_eq_false_2 by (by intros [?|?]%elem_of_cons).
        unfold js_set. destruct (decide (n = "__proto__")) as [Hn|Hn].
        -- by rewrite (bool_decide_eq_true_2 (n = "__proto__")).
        -- rewrite (bool_decide_eq_false_2 (n = "__proto__")) by done.
           by apply lookup_insert_ne.
Qed.

(** What a record of group mode holds under a name: the series value of
    every exercise name but [__proto__], which a plain object does not
    take; otherwise the label under [date], and nothing else. *)
Lemma group_record_lookup viewMode tz data names iv (k : string) :
  Forall (fun n => truthy n = true) names ->
  group_record viewMode tz data names iv !! k
  = if bool_decide (k ∈ names) && negb (bool_decide (k = "__proto__"))
    then Some (JNum (series_value viewMode tz data iv k))
    else if bool_decide (k = "date") then Some (JStr (date iv)) else None.
Proof.
  intros Htruthy. unfold group_record.
  rewrite (fold_left_ext_in _
    (fun r n => js_set n (JNum (series_value viewMode tz data iv n)) r)).
  - rewrite (fold_js_set_lookup
               (fun n => JNum (series_value viewMode tz data iv n))).
    destruct (_ && _); [done|].
    case_bool_decide as Hk; [subst; apply lookup_insert_eq|].
    rewrite lookup_insert_ne by done. apply lookup_empty.
  - intros r n Hn. apply (proj1 (Forall_forall _ _) Htruthy) in Hn.
    by rewrite Hn.
Qed.

Lemma group_record_dom viewMode tz data names iv :
  Forall (fun n => truthy n = true) names ->
  dom (group_record viewMode tz data names iv)
  = ({["date"]} ∪ (list_to_set names ∖ {["__proto__"]}) : gset string).
Proof.
  intros Htruthy. apply set_eq. intros k.
  rewrite elem_of_dom, group_record_lookup by done.
  rewrite elem_of_union, elem_of_difference, !elem_of_singleton,
    elem_of_list_to_set.
  case_bool_decide as Hin; case_bool_decide as Hproto; simpl.
  - case_bool_decide as Hk; [split; [tauto|by eauto]|].
    split; [by intros [? ?]|]. intros [?|[? ?]]; done.
  - split; [tauto|by eauto].
  - case_bool_decide as Hk; [split; [tauto|by eauto]|].
    split; [by intros [? ?]|]. intros [?|[? ?]]; done.
  - case_bool_decide as Hk; [split; [tauto|by eauto]|].
    split; [by intros [? ?]|]. intros [?|[? ?]]; done.
Qed.

Lemma series_value_rows viewMode tz (data : list entry) iv n :
  series_value viewMode tz (Some data) iv n
  = or_zero
      (Some (reduce_effort
               (List.filter
                  (fun e =>
                     bool_decide (entry_key viewMode tz e = dateValue iv) &&
                     bool_decide (name <$> exercises e = Some n))
                  data))).
Proof.
  assert (Hrows :
    List.filter (fun e => bool_decide (name <$> exercises e = Some n))
      (List.filter (matches_interval viewMode tz iv) data)
    = List.filter
        (fun e => bool_decide (entry_key viewMode tz e = dateValue iv) &&
                  bool_decide (name <$> exercises e = Some n))
        data).
  { induction data as [|e data IH]; simpl; [done|].
    rewrite matches_interval_key.
    destruct (bool_decide (entry_key viewMode tz e = dateValue iv)); simpl;
      [|done].
    destruct (bool_decide (name <$> exercises e = Some n)); by rewrite IH. }
  unfold series_value. cbn [fmap option_fmap option_map]. by rewrite Hrows.
Qed.

Lemma series_value_zero viewMode tz data iv n :
  (forall e, e ∈ default [] data ->
             entry_key viewMode tz e <> dateValue iv \/
             name <$> exercises e <> Some n) ->
  series_value viewMode tz data iv n = 0%float.
Proof.
  destruct data as [data|]; [|done]. intros Hnone.
  rewrite series_value_rows, filter_bool_none; [done|].
  intros e He. apply andb_false_iff.
  destruct (Hnone e He) as [?|?]; [left|right];
    by apply bool_decide_eq_false_2.
Qed.

End GroupSeries.

(** ** The fetch handlers, step by step *)

Section Handlers.

Import Analytics.

Ltac run_handler :=
  cbv [fetchSingleExerciseData fetchGroupData handleAnalyze handle
       mbind mret handler_bind handler_ret bind ret get modify emit toast
       read_entries read_exercises lift throw].

Lemma fetchSingleExerciseData_skip be now tz (w : world state) :
  truthy (selectedExercise (ui w)) = false ->
  fetchSingleExerciseData be now tz w = (Returns tt, w).
Proof. intros H. run_handler. by rewrite H. Qed.

Lemma fetchSingleExerciseData_run be now tz (w : world state) :
  truthy (selectedExercise (ui w)) = true ->
  let s := ui w in
  let range := getDateRange (viewMode s) now in
  let q := single_query (selectedExercise s) range.1 range.2 in
  let r := from_workout_entries be q in
  fetchSingleExerciseData be now tz w
  = match error r with
    | Some _ =>
        (Returns tt,
         World (setLoading false (setLoading true s))
           ((trace w ++ [Read q]) ++ [Notify workout_data_error]))
    | None =>
        match generateDateIntervals (viewMode s) range.1 range.2 with
        | Returns intervals =>
            (Returns tt,
             World (setLoading false
                      (setChartData
                         (map (single_record (viewMode s) tz (data r)) intervals)
                         (setLoading true s)))
               (trace w ++ [Read q]))
        | Throws e => (Throws e, World (setLoading true s) (trace w ++ [Read q]))
        end
    end.
Proof.
  intros H. run_handler. rewrite H. simpl.
  destruct (getDateRange (viewMode (ui w)) now) as [start end_]. simpl.
  destruct (error _); [done|].
  by destruct (generateDateIntervals _ _ _).
Qed.

Lemma fetchGroupData_skip be now tz (w : world state) :
  truthy (selectedGroup (ui w)) = false ->
  fetchGroupData be now tz w = (Returns tt, w).
Proof. intros H. run_handler. by rewrite H. Qed.

Lemma fetchGroupData_run be now tz (w : world state) :
  truthy (selectedGroup (ui w)) = true ->
  let s := ui w in
  let range := getDateRange (viewMode s) now in
  let qg := group_exercises_query (selectedGroup s) in
  let g := from_exercises be qg in
  let q := group_query (data g) range.1 range.2 in
  let r := from_workout_entries be q in
  fetchGroupData be now tz w
  = match error g with
    | Some _ =>
        (Returns tt,
         World (setLoading false (setLoading true s))
           ((trace w ++ [Read qg]) ++ [Notify group_exercises_error]))
    | None =>
        match error r with
        | Some _ =>
            (Returns tt,
             World (setLoading false (setLoading true s))
               (((trace w ++ [Read qg]) ++ [Read q])
                  ++ [Notify workout_data_error]))
        | None =>
            match generateDateIntervals (viewMode s) range.1 range.2 with
            | Returns intervals =>
                (Returns tt,
                 World (setLoading false
                          (setChartData
                             (map (group_record (viewMode s) tz (data r)
                                     (exerciseNames_of (data r))) intervals)
                             (setLoading true s)))
                   ((trace w ++ [Read qg]) ++ [Read q]))
            | Throws e =>
                (Throws e,
                 World (setLoading true s) ((trace w ++ [Read qg]) ++ [Read q]))
            end
        end
    end.
Proof.
  intros H. run_handler. rewrite H. simpl.
  destruct (getDateRange (viewMode (ui w)) now) as [start end_]. simpl.
  destruct (error (from_exercises _ _)); [done|].
  destruct (error (from_workout_entries _ _)); [done|].
  by destruct (generateDateIntervals _ _ _).
Qed.

Lemma handleAnalyze_run be now tz (w : world state) :
  handleAnalyze be now tz w
  = if truthy (selectedExercise (ui w)) then fetchSingleExerciseData be now tz w
    else if truthy (selectedGroup (ui w)) then fetchGroupData be now tz w
    else (Returns tt, w).
Proof.
  unfold handleAnalyze. cbv [mbind handler_bind bind get mret handler_ret ret].
  by destruct (truthy (selectedExercise (ui w))),
              (truthy (selectedGroup (ui w))).
Qed.

End Handlers.

(** ** Failed reads *)

Section Failure.

Import Analytics.

(** C7: when a read issued by an analysis is answered with an error, the
    handler returns without touching the chart data: what it did is the
    reads up to the failed one, each issued once and none after it, and one
    destructive "Error" toast with a fixed message; no record is built. *)
Theorem failed_fetch_leaves_chart
    (be : backend) (now : jsdate) (tz : Z) (w w' : world state)
    (o : outcome unit) (extra : list effect) :
  handleAnalyze be now tz w = (o, w') ->
  trace w' = trace w ++ extra ->
  Exists (read_failed be) extra ->
  o = Returns tt /\
  chartData (ui w') = chartData (ui w) /\
  loading (ui w') = false /\
  exists reads q t,
    extra = reads ++ [Read q; Notify t] /\
    read_failed be (Read q) /\
    Forall (fun e => is_read e /\ ~ read_failed be e) reads /\
    (t = workout_data_error \/ t = group_exercises_error).
Proof.
  intros Hrun Htrace Hfail. rewrite handleAnalyze_run in Hrun.
  destruct (truthy (selectedExercise (ui w))) eqn:Hex.
  - rewrite fetchSingleExerciseData_run in Hrun by done.
    cbv zeta in Hrun.
    set (q := single_query _ _ _) in Hrun.
    destruct (error (from_workout_entries be q)) as [msg|] eqn:Herr.
    + injection Hrun as <- <-. simpl in Htrace.
      rewrite <- !(assoc_L (++)) in Htrace. apply app_inv_head in Htrace.
      subst extra. split_and!; try done.
      exists [], q, workout_data_error. split_and!; try done.
      * simpl. rewrite Herr. by eexists.
      * by left.
    + exfalso.
      assert (extra = [Read q]) as ->.
      { destruct (generateDateIntervals _ _ _); injection Hrun as <- <-;
          simpl in Htrace; by apply app_inv_head in Htrace. }
      apply Exists_cons in Hfail as [Hq|Hnil]; [|by apply Exists_nil in Hnil].
      simpl in Hq. rewrite Herr in Hq. by destruct Hq.
  - destruct (truthy (selectedGroup (ui w))) eqn:Hgr.
    + rewrite fetchGroupData_run in Hrun by done.
      cbv zeta in Hrun.
      set (qg := group_exercises_query _) in Hrun.
      destruct (error (from_exercises be qg)) as [msg|] eqn:Hgerr.
      * injection Hrun as <- <-. simpl in Htrace.
        rewrite <- !(assoc_L (++)) in Htrace. apply app_inv_head in Htrace.
        subst extra. split_and!; try done.
        exists [], qg, group_exercises_error. split_and!; try done.
        -- simpl. rewrite Hgerr. by eexists.
        -- by right.
      * set (q := group_query _ _ _) in Hrun.
        destruct (error (from_workout_entries be q)) as [msg|] eqn:Herr.
        -- injection Hrun as <- <-. simpl in Htrace.
           rewrite <- !(assoc_L (++)) in Htrace. apply app_inv_head in Htrace.
           subst extra. split_and!; try done.
           exists [Read qg], q, workout_data_error. split_and!; try done.
           ++ simpl. rewrite Herr. by eexists.
           ++ constructor; [|constructor]. split; [done|].
              simpl. rewrite Hgerr. by intros [? ?].
           ++ by left.
        -- exfalso.
           assert (extra = [Read qg; Read q]) as ->.
           { destruct (generateDateIntervals _ _ _); injection Hrun as <- <-;
               simpl in Htrace; rewrite <- !(assoc_L (++)) in Htrace;
               by apply app_inv_head in Htrace. }
           apply Exists_cons in Hfail as [Hq|Hfail].
           { simpl in Hq. rewrite Hgerr in Hq. by destruct Hq. }
           apply Exists_cons in Hfail as [Hq|Hnil];
             [|by apply Exists_nil in Hnil].
           simpl in Hq. rewrite Herr in Hq. by destruct Hq.
    + injection Hrun as <- <-.
      rewrite <- (app_nil_r (trace w)) in Htrace at 1.
      apply app_inv_head in Htrace. subst extra.
      by apply Exists_nil in Hfail.
Qed.

End Failure.

Section FailureExample.

Import Analytics.

Lemma failed_fetch_leaves_chart_witness :
  let w := World (State "e1" EmptyString week [] false) [] in
  let run := handleAnalyze Scenario.failing Scenario.now 0 w in
  let q := single_query "e1" (getDateRange week Scenario.now).1
             (getDateRange week Scenario.now).2 in
  run.1 = Returns tt /\
  chartData (ui run.2) = chartData (ui w) /\
  loading (ui run.2) = false /\
  exists reads q' t,
    [Read q; Notify workout_data_error] = reads ++ [Read q'; Notify t] /\
    read_failed Scenario.failing (Read q') /\
    Forall (fun e => is_read e /\ ~ read_failed Scenario.failing e) reads /\
    (t = workout_data_error \/ t = group_exercises_error).
Proof.
  intros w run q.
  apply (failed_fetch_leaves_chart Scenario.failing Scenario.now 0 w
           run.2 run.1 [Read q; Notify workout_data_error]).
  - apply surjective_pairing.
  - reflexivity.
  - apply Exists_cons. left. simpl. by eexists.
Defined.

End FailureExample.

(** ** Scope selection *)

Section Selection.

Import Analytics.

Lemma handleAnalyze_selection be now tz (w : world state) :
  selectedExercise (ui (handleAnalyze be now tz w).2) = selectedExercise (ui w) /\
  selectedGroup (ui (handleAnalyze be now tz w).2) = selectedGroup (ui w).
Proof.
  rewrite handleAnalyze_run.
  destruct (truthy (selectedExercise (ui w))) eqn:Hex.
  - rewrite fetchSingleExerciseData_run by done. cbv zeta.
    destruct (error _); [done|]. by destruct (generateDateIntervals _ _ _).
  - destruct (truthy (selectedGroup (ui w))) eqn:Hgr; [|done].
    rewrite fetchGroupData_run by done. cbv zeta.
    destruct (error (from_exercises _ _)); [done|].
    destruct (error (from_workout_entries _ _)); [done|].
    by destruct (generateDateIntervals _ _ _).
Qed.

Lemma handle_keeps_one_scope (ev : event) (w : world state) :
  selectedExercise (ui w) = EmptyString \/ selectedGroup (ui w) = EmptyString ->
  selectedExercise (ui (handle ev w).2) = EmptyString \/
  selectedGroup (ui (handle ev w).2) = EmptyString.
Proof.
  intros Hinv. destruct ev as [value|value|mode|be now tz].
  - by right.
  - by left.
  - done.
  - unfold handle. cbv [mbind handler_bind bind get mret handler_ret ret].
    destruct (analyze_disabled (ui w)); [done|].
    destruct (handleAnalyze_selection be now tz w) as [-> ->]. done.
Qed.

Lemma reachable_one_scope (w : world state) :
  reachable w ->
  selectedExercise (ui w) = EmptyString \/ selectedGroup (ui w) = EmptyString.
Proof.
  induction 1 as [|w ev Hw IH]; [by left|by apply handle_keeps_one_scope].
Qed.

(** C10: in every state the screen can reach, at most one of the exercise
    and the group is selected: choosing an exercise clears the group and
    choosing a group clears the exercise.  A click on the enabled Analyze
    button therefore runs exactly one fetch, the single-exercise one when an
    exercise is selected and the group one otherwise; and whatever the
    state, a selected exercise makes the dispatch run the single-exercise
    fetch. *)
Theorem one_scope_one_fetch
    (w any : world state) (be : backend) (now : jsdate) (tz : Z)
    (value : string) :
  reachable w ->
  (selectedExercise (ui w) = EmptyString \/
   selectedGroup (ui w) = EmptyString) /\
  selectedGroup (ui (handle (ExerciseChosen value) w).2) = EmptyString /\
  selectedExercise (ui (handle (ExerciseChosen value) w).2) = value /\
  selectedExercise (ui (handle (GroupChosen value) w).2) = EmptyString /\
  selectedGroup (ui (handle (GroupChosen value) w).2) = value /\
  (analyze_disabled (ui w) = false ->
   (selectedExercise (ui w) <> EmptyString /\
    selectedGroup (ui w) = EmptyString /\
    handle (AnalyzeClicked be now tz) w
    = fetchSingleExerciseData be now tz w /\
    fetchGroupData be now tz w = (Returns tt, w)) \/
   (selectedExercise (ui w) = EmptyString /\
    selectedGroup (ui w) <> EmptyString /\
    handle (AnalyzeClicked be now tz) w = fetchGroupData be now tz w /\
    fetchSingleExerciseData be now tz w = (Returns tt, w))) /\
  (truthy (selectedExercise (ui any)) = true ->
   handleAnalyze be now tz any = fetchSingleExerciseData be now tz any).
Proof.
  intros Hreach. pose proof (reachable_one_scope w Hreach) as Hinv.
  split_and!; try done.
  - intros Henabled.
    assert (Hrun : handle (AnalyzeClicked be now tz) w
                   = handleAnalyze be now tz w).
    { unfold handle. cbv [mbind handler_bind bind get].
      by rewrite Henabled. }
    rewrite Hrun, handleAnalyze_run.
    unfold analyze_disabled in Henabled.
    apply orb_false_iff in Henabled as [_ Hsel].
    destruct (truthy (selectedExercise (ui w))) eqn:Hex.
    + left. apply truthy_spec in Hex.
      destruct Hinv as [?|Hg]; [done|].
      split_and!; try done.
      apply fetchGroupData_skip. unfold truthy. rewrite Hg. done.
    + right. destruct (truthy (selectedGroup (ui w))) eqn:Hgr; [|done].
      apply truthy_spec in Hgr.
      assert (selectedExercise (ui w) = EmptyString).
      { unfold truthy in Hex. apply negb_false_iff in Hex.
        by apply bool_decide_eq_true in Hex. }
      split_and!; try done.
      by apply fetchSingleExerciseData_skip.
  - intros Hex. by rewrite handleAnalyze_run, Hex.
Qed.

Lemma one_scope_one_fetch_witness :
  let w := (handle (ExerciseChosen "e1")
              (handle (GroupChosen "g1") (World initial [])).2).2 in
  selectedExercise (ui w) = "e1"%string /\
  selectedGroup (ui w) = EmptyString /\
  handle (AnalyzeClicked (supabase Scenario.db) Scenario.now 0) w
  = fetchSingleExerciseData (supabase Scenario.db) Scenario.now 0 w.
Proof.
  intros w.
  destruct (one_scope_one_fetch w w (supabase Scenario.db) Scenario.now 0 "e1")
    as (_ & _ & _ & _ & _ & Hclick & _).
  - subst w. do 2 apply reachable_handle. apply reachable_initial.
  - destruct Hclick as [(_ & _ & Hrun & _)|(Hnone & _)]; [done| |].
    + split_and!; [reflexivity|reflexivity|exact Hrun].
    + exfalso. discriminate Hnone.
Defined.

End Selection.

(** ** One record per bucket *)

Section Buckets.

Import Analytics.

Lemma lookup_map {A B} (f : A -> B) (l : list A) (i : nat) :
  map f l !! i = f <$> l !! i.
Proof. apply (list_lookup_fmap f l i). Qed.

(** C1, as amended, for the screen with view modes: when its reads succeed,
    an analysis (single-exercise or group) replaces the chart data by
    exactly one record per bucket of the interval generator for the window
    of the selected preset, whatever rows the read returned.  In
    single-exercise mode a record has the properties [date], the bucket's
    label, and [effort], which is 0 in a bucket no returned entry matches.
    In group mode every record has the same properties: [date], and one per
    distinct non-empty exercise name found in the returned entries other
    than [__proto__]; in a bucket no returned entry matches each of them is
    present with value 0. *)
Theorem chart_has_one_record_per_bucket
    (be : backend) (now : jsdate) (tz : Z) (w : world state) :
  wf_date now ->
  (forall q, error (from_exercises be q) = None) ->
  (forall q, error (from_workout_entries be q) = None) ->
  truthy (selectedExercise (ui w)) || truthy (selectedGroup (ui w)) = true ->
  let s := ui w in
  let range := getDateRange (viewMode s) now in
  let run := handleAnalyze be now tz w in
  exists intervals q,
    generateDateIntervals (viewMode s) range.1 range.2 = Returns intervals /\
    run.1 = Returns tt /\
    last (trace run.2) = Some (Read q) /\
    length (chartData (ui run.2)) = length intervals /\
    forall i iv, intervals !! i = Some iv ->
      let rows := data (from_workout_entries be q) in
      let unmatched :=
        forall e, e ∈ default [] rows ->
                  entry_key (viewMode s) tz e <> dateValue iv in
      exists r, chartData (ui run.2) !! i = Some r /\
        (truthy (selectedExercise s) = true ->
         dom r = ({["date"; "effort"]} : gset string) /\
         r !! "date" = Some (JStr (date iv)) /\
         (unmatched -> r !! "effort" = Some (JNum 0))) /\
        (truthy (selectedExercise s) = false ->
         (forall n, n ∈ exerciseNames_of rows <->
            n <> EmptyString /\
            exists e, e ∈ default [] rows /\
                      name <$> exercises e = Some n) /\
         dom r = ({["date"]} ∪
                  (list_to_set (exerciseNames_of rows) ∖ {["__proto__"]})
                  : gset string) /\
         ("date" ∉ exerciseNames_of rows ->
          r !! "date" = Some (JStr (date iv))) /\
         (unmatched ->
          forall n, n ∈ exerciseNames_of rows -> n <> "__proto__" ->
                    r !! n = Some (JNum 0))).
Proof.
  intros Hnow Hex Hen Hsel s range run.
  destruct (getDateRange_ordered (viewMode s) now Hnow) as (Hwf & Hend & Hle).
  destruct (generateDateIntervals_keys (viewMode s) _ _ Hle)
    as (intervals & Hgen & _).
  fold range in Hgen. exists intervals.
  subst run. rewrite handleAnalyze_run.
  destruct (truthy (selectedExercise (ui w))) eqn:Hse.
  - rewrite fetchSingleExerciseData_run by done. cbv zeta.
    fold s. fold range. set (q := single_query _ _ _).
    rewrite Hen, Hgen. exists q. simpl.
    split_and!; [done|done|apply last_snoc|apply length_map|].
    intros i iv Hi.
    exists (single_record (viewMode s) tz (data (from_workout_entries be q)) iv).
    split_and!.
    + by rewrite lookup_map, Hi.
    + intros _. split_and!.
      * apply single_record_keys.
      * apply single_record_date.
      * intros Hnone.
        destruct (data (from_workout_entries be q)) as [rows|];
          [|apply single_record_effort_none].
        rewrite single_record_effort, filter_bool_none; [done|].
        intros e He. apply bool_decide_eq_false_2. by apply Hnone.
    + intros Ht. unfold s in Ht. congruence.
  - simpl in Hsel. rewrite Hsel, fetchGroupData_run by done. cbv zeta.
    fold s. fold range. set (qg := group_exercises_query _).
    set (q := group_query _ _ _).
    rewrite Hex, Hen, Hgen. exists q. simpl.
    split_and!; [done|done|apply last_snoc|apply length_map|].
    intros i iv Hi.
    set (rows := data (from_workout_entries be q)).
    exists (group_record (viewMode s) tz rows (exerciseNames_of rows) iv).
    pose proof (exerciseNames_of_truthy rows) as Htruthy.
    split_and!.
    + by rewrite lookup_map, Hi.
    + intros Ht. unfold s in Ht. congruence.
    + intros _. split_and!.
      * intros n. destruct rows as [l|]; [apply exerciseNames_of_spec|].
        simpl. split; [by intros ?%elem_of_nil|].
        by intros (_ & e & ?%elem_of_nil & _).
      * by apply group_record_dom.
      * intros Hdate. rewrite group_record_lookup by done.
        by rewrite (bool_decide_eq_false_2 ("date" ∈ exerciseNames_of rows)).
      * intros Hnone n Hn Hproto. rewrite group_record_lookup by done.
        rewrite (bool_decide_eq_true_2 (n ∈ exerciseNames_of rows)) by done.
        rewrite (bool_decide_eq_false_2 (n = "__proto__")) by done. simpl.
        rewrite series_value_zero; [done|]. intros e He. left. by apply Hnone.
Qed.

Lemma chart_has_one_record_per_bucket_witness :
  let be := supabase Scenario.db in
  let w := World (State EmptyString "g1" week [] false) [] in
  let run := handleAnalyze be Scenario.now 0 w in
  exists intervals q,
    generateDateIntervals week (getDateRange week Scenario.now).1
      (getDateRange week Scenario.now).2 = Returns intervals /\
    run.1 = Returns tt /\
    last (trace run.2) = Some (Read q) /\
    length (chartData (ui run.2)) = length intervals /\
    forall i iv, intervals !! i = Some iv ->
      let rows := data (from_workout_entries be q) in
      exists r, chartData (ui run.2) !! i = Some r /\
        (truthy EmptyString = false ->
         dom r = ({["date"]} ∪
                  (list_to_set (exerciseNames_of rows) ∖ {["__proto__"]})
                  : gset string)).
Proof.
  intros be w run.
  destruct (chart_has_one_record_per_bucket be Scenario.now 0 w)
    as (intervals & q & Hgen & Hret & Hlast & Hlen & Hrec).
  - repeat split; vm_compute; congruence.
  - reflexivity.
  - reflexivity.
  - reflexivity.
  - exists intervals, q. split_and!; try done.
    intros i iv Hi rows. destruct (Hrec i iv Hi) as (r & Hr & _ & Hgroup).
    exists r. split; [done|]. intros Ht. by destruct (Hgroup Ht) as (_ & ? & _).
Defined.

(** C1 fails in two ways.  The screen that refetches on every change hands
    the chart one record per returned row (three rows, three records), where
    the interval generator has eight buckets for the week ending now.  And
    on the screen with view modes, when the entries of a group are those of
    an exercise named [__proto__], the record of a bucket without entries
    holds its label only: no 0 is there. *)
Lemma rows_not_buckets_in_refetching_screen :
  (let be := supabase Scenario.db in
   let w := World (Analytics2.State "e1" EmptyString "week" [] []) [] in
   let run := Analytics2.fetchSingleExerciseData be w in
   exists intervals rows,
     generateDateIntervals week (getDateRange week Scenario.now).1
       (getDateRange week Scenario.now).2 = Returns intervals /\
     data (from_workout_entries be (Analytics2.single_query "e1"))
     = Some rows /\
     length intervals = 8%nat /\
     length rows = 3%nat /\
     length (Analytics2.singleExerciseData (ui run.2)) = 3%nat) /\
  (let rows := [Scenario.proto_row] in
   let empty := Interval "Mar 07" (DayKey (Civil 2024 3 7)) in
   exerciseNames_of (Some rows) = ["__proto__"]%string /\
   matches_interval week 0 empty Scenario.proto_row = false /\
   group_record week 0 (Some rows) (exerciseNames_of (Some rows)) empty
   = {[ "date" := JStr "Mar 07" ]}).
Proof.
  split.
  - vm_compute. eexists _, _. split_and!; reflexivity.
  - split_and!; reflexivity.
Qed.

(** C4, as amended, for the screen with view modes: the series are the
    distinct non-empty exercise names found in the returned entries, and
    nothing else.  Every record has exactly the properties [date] and one
    per series other than [__proto__]; such a property holds the binary64
    sum, from 0 in row order, of the efforts of the entries matching both
    the bucket and the exercise, and 0 when there is none; [date] holds the
    bucket's label when no series is itself named "date". *)
Theorem group_series_from_entries
    (viewMode : ViewMode) (tz : Z) (data : list entry) (iv : interval) :
  let exerciseNames := exerciseNames_of (Some data) in
  let r := group_record viewMode tz (Some data) exerciseNames iv in
  let rows_of (n : string) :=
    List.filter
      (fun e => bool_decide (entry_key viewMode tz e = dateValue iv) &&
                bool_decide (name <$> exercises e = Some n))
      data in
  NoDup exerciseNames /\
  (forall n, n ∈ exerciseNames <->
     n <> EmptyString /\
     exists e, e ∈ data /\ name <$> exercises e = Some n) /\
  dom r = ({["date"]} ∪ (list_to_set exerciseNames ∖ {["__proto__"]})
           : gset string) /\
  ("date" ∉ exerciseNames -> r !! "date" = Some (JStr (date iv))) /\
  forall n, n ∈ exerciseNames -> n <> "__proto__" ->
    r !! n = Some (JNum (or_zero (Some (reduce_effort (rows_of n))))) /\
    (rows_of n = [] -> r !! n = Some (JNum 0)).
Proof.
  intros exerciseNames r rows_of.
  pose proof (exerciseNames_of_truthy (Some data)) as Htruthy.
  split_and!.
  - apply exerciseNames_of_NoDup.
  - apply exerciseNames_of_spec.
  - by apply group_record_dom.
  - intros Hdate. subst r. rewrite group_record_lookup by done.
    by rewrite (bool_decide_eq_false_2 ("date" ∈ exerciseNames)).
  - intros n Hn Hproto.
    assert (Hr : r !! n
                 = Some (JNum (or_zero (Some (reduce_effort (rows_of n)))))).
    { subst r. rewrite group_record_lookup by done.
      rewrite (bool_decide_eq_true_2 (n ∈ exerciseNames)) by done.
      rewrite (bool_decide_eq_false_2 (n = "__proto__")) by done. simpl.
      by rewrite series_value_rows. }
    split; [exact Hr|]. intros Hnone. by rewrite Hr, Hnone.
Qed.

Lemma group_series_from_entries_witness :
  let data := workout_entries_table Scenario.db in
  let iv := Interval "Mar 08" (DayKey (Civil 2024 3 8)) in
  let exerciseNames := exerciseNames_of (Some data) in
  let r := group_record week 0 (Some data) exerciseNames iv in
  exerciseNames = ["Squat"; "Leg Press"; "Curl"]%string /\
  dom r = ({["date"]} ∪ (list_to_set exerciseNames ∖ {["__proto__"]})
           : gset string) /\
  r !! "Squat" = Some (JNum 800) /\
  r !! "date" = Some (JStr "Mar 08").
Proof.
  intros data iv exerciseNames r.
  destruct (group_series_from_entries week 0 data iv)
    as (_ & _ & Hdom & Hlabel & Hvalue).
  split_and!; [reflexivity|exact Hdom| |].
  - destruct (Hvalue "Squat") as [Hsquat _]; [|done|].
    + apply elem_of_cons. by left.
    + etrans; [exact Hsquat|reflexivity].
  - apply Hlabel. intros Hin.
    repeat (apply elem_of_cons in Hin as [Hin|Hin]; [discriminate Hin|]).
    by apply elem_of_nil in Hin.
Defined.

(** C4 fails in four ways.  On the screen that refetches on every change
    "Leg Press" is among the exercise names of the returned entries, yet the
    record of 8 March 2023 has no property for it (no 0 is filled in).  On
    the screen with view modes an exercise whose name is empty appears in
    the entries and gets no series; an exercise named [__proto__] is a
    series and no record has a property for it; and the series of an
    exercise named "date" takes the place of the label. *)
Lemma no_zero_fill_in_refetching_screen :
  (let be := supabase Scenario.db in
   let w := World (Analytics2.State EmptyString "g1" "week" [] []) [] in
   let run := Analytics2.fetchGroupData be w in
   exists rows r,
     data (from_workout_entries be (Analytics2.group_query "g1"))
     = Some rows /\
     exerciseNames_of (Some rows) = ["Squat"; "Leg Press"]%string /\
     Analytics2.groupData (ui run.2) !! 0%nat = Some r /\
     r !! "date" = Some (JKey (DayKey (Civil 2023 3 8))) /\
     r !! "Squat" = Some (JNum 800) /\
     r !! "Leg Press" = None) /\
  (let day := Interval "Mar 08" (DayKey (Civil 2024 3 8)) in
   let record rows :=
     group_record week 0 (Some rows) (exerciseNames_of (Some rows)) day in
   (matches_interval week 0 day Scenario.unnamed_row = true /\
    exerciseNames_of (Some [Scenario.unnamed_row]) = [] /\
    record [Scenario.unnamed_row] = {[ "date" := JStr "Mar 08" ]}) /\
   (matches_interval week 0 day Scenario.proto_row = true /\
    exerciseNames_of (Some [Scenario.proto_row]) = ["__proto__"]%string /\
    record [Scenario.proto_row] = {[ "date" := JStr "Mar 08" ]}) /\
   (matches_interval week 0 day Scenario.date_row = true /\
    exerciseNames_of (Some [Scenario.date_row]) = ["date"]%string /\
    record [Scenario.date_row] = {[ "date" := JNum 300 ]})).
Proof.
  split.
  - vm_compute. eexists _, _. split_and!; reflexivity.
  - split_and!; reflexivity.
Qed.

End Buckets.

(** ** The reads the screens issue *)

Section Reads.

Import Analytics.

#[local] Instance date_order_total : Total date_order.
Proof.
  intros a b. unfold date_order. rewrite !civil_leb_le.
  destruct (civil_lt_total (workout_date a) (workout_date b)) as [?|[->|?]];
    [by left; left|left; apply civil_le_refl|by right; left].
Qed.

Lemma order_by_date (l : list entry) :
  Sorted date_order (order_entries (Some "workout_date") l) /\
  order_entries (Some "workout_date") l ≡ₚ l.
Proof.
  simpl. split; [apply Sorted_merge_sort, _|apply merge_sort_Permutation].
Qed.

Lemma select_entries_subset db q e :
  e ∈ select_entries db q -> e ∈ workout_entries_table db.
Proof.
  unfold select_entries. intros He.
  assert (Hperm : forall o (l : list entry), order_entries o l ≡ₚ l).
  { intros [c|] l; simpl; [|done].
    case_bool_decide; [apply merge_sort_Permutation|done]. }
  rewrite Hperm in He.
  apply list_elem_of_In, filter_In in He as [He _]. by apply list_elem_of_In.
Qed.

Lemma select_entries_stored db q :
  stored_ok db ->
  Forall (fun e => effort e = generated_effort (weight_kg e) (reps e))
    (select_entries db q).
Proof.
  intros Hok. apply Forall_forall. intros e He.
  apply select_entries_subset in He.
  by apply (proj1 (Forall_forall _ _) Hok).
Qed.

Lemma insert_keeps_generated_effort db n db' :
  stored_ok db -> insert_workout_entry db n = Some db' -> stored_ok db'.
Proof.
  unfold insert_workout_entry, stored_ok. intros Hok Hins.
  destruct (find _ _) as [ex|]; [|done].
  destruct (_ && _); [|done]. injection Hins as <-. simpl.
  apply Forall_app. split; [done|]. by repeat constructor.
Qed.

Lemma entry_text_exercise_id (e : entry) :
  entry_text "exercise_id" e = Some (exercise_id e).
Proof. reflexivity. Qed.

(** The read of single-exercise mode returns, in ascending date order, the
    rows of the selected exercise dated from the day of [start] to the day
    of [end_]. *)
Lemma single_query_rows db sel (start end_ : jsdate) :
  let rows := select_entries db (single_query sel start end_) in
  Sorted date_order rows /\
  rows ≡ₚ List.filter
            (fun e => bool_decide (exercise_id e = sel) &&
                      civil_leb (date_of start) (workout_date e) &&
                      civil_leb (workout_date e) (date_of end_))
            (workout_entries_table db).
Proof.
  unfold select_entries, single_query. cbn [q_order q_filters].
  split; [apply order_by_date|].
  etrans; [apply order_by_date|].
  erewrite filter_ext_bool; [done|]. intros e. simpl.
  rewrite entry_text_exercise_id, andb_true_r, andb_assoc. do 2 f_equal.
  apply bool_decide_ext. split; congruence.
Qed.

(** The reads of group mode: the exercises of the selected group, then, in
    ascending date order, the rows of those exercises dated from the day
    of [start] to the day of [end_]. *)
Lemma group_query_rows db sel (start end_ : jsdate) :
  let groupExercises := select_exercises db (group_exercises_query sel) in
  let rows := select_entries db (group_query (Some groupExercises) start end_) in
  (forall x, x ∈ groupExercises <->
             x ∈ exercises_table db /\ group_id x = sel) /\
  Sorted date_order rows /\
  rows ≡ₚ List.filter
            (fun e => bool_decide (exercise_id e ∈ map id groupExercises) &&
                      civil_leb (date_of start) (workout_date e) &&
                      civil_leb (workout_date e) (date_of end_))
            (workout_entries_table db).
Proof.
  intros groupExercises rows. split_and!.
  - intros x. subst groupExercises. unfold select_exercises. simpl.
    rewrite list_elem_of_In, filter_In, <- list_elem_of_In.
    rewrite andb_true_r, bool_decide_eq_true.
    change (exercise_text "group_id" x) with (Some (group_id x)).
    split; [intros [? [= ?]]|intros [? ?]]; split; congruence.
  - apply order_by_date.
  - subst rows. unfold select_entries, group_query. cbn [q_order q_filters].
    etrans; [apply order_by_date|].
    erewrite filter_ext_bool; [done|]. intros e. simpl.
    by rewrite andb_true_r, andb_assoc.
Qed.

(** The screen that refetches on every change reads all rows of the
    selected exercise and charts one record per row. *)
Lemma refetching_screen_charts_rows (be : backend)
    (w : world Analytics2.state) :
  truthy (Analytics2.selectedExercise (ui w)) = true ->
  let q := Analytics2.single_query (Analytics2.selectedExercise (ui w)) in
  error (from_workout_entries be q) = None ->
  let run := Analytics2.fetchSingleExerciseData be w in
  trace run.2 = trace w ++ [Read q] /\
  q_filters q = [F_eq "exercise_id" (Analytics2.selectedExercise (ui w))] /\
  Analytics2.singleExerciseData (ui run.2)
  = map Analytics2.single_record
      (default [] (data (from_workout_entries be q))).
Proof.
  intros Hsel q Herr run. subst run.
  cbv [Analytics2.fetchSingleExerciseData mbind mret handler_bind handler_ret
       bind ret get modify emit toast read_entries].
  rewrite Hsel. simpl. fold q. rewrite Herr. simpl.
  by destruct (data (from_workout_entries be q)).
Qed.

(** C5 fails on the screen that refetches on every change: with the "week"
    preset selected its read carries the exercise filter only, so the row of
    8 March 2023 is returned and charted on 10 March 2024, although it lies
    outside the week's window. *)
Lemma timeframe_does_not_filter_reads :
  let be := supabase Scenario.db in
  let w := World (Analytics2.State "e1" EmptyString "week" [] []) [] in
  let run := Analytics2.fetchSingleExerciseData be w in
  let old := Entry "e1" 8000 10 80000 (Civil 2023 3 8) (Some Scenario.squat) in
  trace run.2 = [Read (Analytics2.single_query "e1")] /\
  q_filters (Analytics2.single_query "e1") = [F_eq "exercise_id" "e1"] /\
  select_entries Scenario.db (Analytics2.single_query "e1") !! 0%nat = Some old /\
  Analytics2.singleExerciseData (ui run.2) !! 0%nat
  = Some (Analytics2.single_record old) /\
  in_window (getDateRange week Scenario.now).1
    (getDateRange week Scenario.now).2 old = false.
Proof. vm_compute. split_and!; reflexivity. Qed.

End Reads.

(** ** Matching entries to buckets *)

Section Matching.

Import Analytics.

Lemma entry_key_day (viewMode : ViewMode) (tz : Z) (e : entry) :
  viewMode <> year -> entry_key viewMode tz e = DayKey (workout_date e).
Proof. by destruct viewMode. Qed.

(** At or east of UTC the month key is the year and month of the date. *)
Lemma entry_key_year_east (tz : Z) (e : entry) :
  0 <= tz ->
  entry_key year tz e
  = MonthKey (c_year (workout_date e)) (c_month (workout_date e)).
Proof.
  intros Htz. unfold entry_key, newDate_iso.
  by destruct (Z.leb_spec 0 tz); [|lia].
Qed.

(** West of UTC it is the year and month of the day before. *)
Lemma entry_key_year_west (tz : Z) (e : entry) :
  tz < 0 ->
  entry_key year tz e
  = MonthKey (c_year (prev_day (workout_date e)))
             (c_month (prev_day (workout_date e))).
Proof.
  intros Htz. unfold entry_key, newDate_iso.
  by destruct (Z.leb_spec 0 tz); [lia|].
Qed.

(** What falling within the window means: a date from the day of [start]
    to the day of [end_]. *)
Lemma in_window_spec (start end_ : jsdate) (e : entry) :
  in_window start end_ e = true <->
  civil_le (date_of start) (workout_date e) /\
  civil_le (workout_date e) (date_of end_).
Proof. unfold in_window. by rewrite andb_true_iff, !civil_leb_le. Qed.

(** An entry whose key is not the key of any bucket matches no bucket. *)
Lemma unmatched_entry_excluded (viewMode : ViewMode) (tz : Z)
    (intervals : list interval) (e : entry) :
  entry_key viewMode tz e ∉ map dateValue intervals ->
  forall iv, iv ∈ intervals -> matches_interval viewMode tz iv e = false.
Proof.
  intros Hnot iv Hiv. rewrite matches_interval_key.
  apply bool_decide_eq_false_2. intros Heq. apply Hnot.
  rewrite Heq. apply list_elem_of_fmap. by exists iv.
Qed.

(** West of UTC an entry within the window can be in no bucket at all:
    on 1 March 2024 the year preset starts on 1 March 2023, an entry of
    that day is compared under the key of February 2023, and the first
    bucket is March 2023. *)
Lemma window_entry_in_no_bucket_west_of_utc :
  let now := JsDate (Civil 2024 3 1) 3600000 in
  let range := getDateRange year now in
  let e := Entry "e1" 10000 5 50000 (Civil 2023 3 1) (Some Scenario.squat) in
  in_window range.1 range.2 e = true /\
  exists buckets,
    generateDateIntervals year range.1 range.2 = Returns buckets /\
    length buckets = 13%nat /\
    forallb (fun iv => negb (matches_interval year Scenario.tz_new_york iv e))
      buckets = true.
Proof. split; [reflexivity|]. eexists. split_and!; reflexivity. Qed.

(** C8 fails five hours west of UTC: under the year preset an entry dated
    1 March 2024 is compared under the key of February 2024, so it is
    counted in that month's bucket and not in March's. *)
Lemma first_of_month_counted_in_previous_month :
  let e := Entry "e1" 10000 5 50000 (Civil 2024 3 1) (Some Scenario.squat) in
  entry_key year Scenario.tz_new_york e = MonthKey 2024 2 /\
  matches_interval year Scenario.tz_new_york
    (Interval "Mar 2024" (MonthKey 2024 3)) e = false /\
  matches_interval year Scenario.tz_new_york
    (Interval "Feb 2024" (MonthKey 2024 2)) e = true /\
  (single_record year Scenario.tz_new_york (Some [e])
     (Interval "Feb 2024" (MonthKey 2024 2))) !! "effort"
  = Some (JNum 500) /\
  (single_record year Scenario.tz_new_york (Some [e])
     (Interval "Mar 2024" (MonthKey 2024 3))) !! "effort"
  = Some (JNum 0).
Proof. vm_compute. split_and!; reflexivity. Qed.

End Matching.

Section AggregationExample.

Import Analytics.

Lemma single_aggregation_records_witness :
  let start := (getDateRange week Scenario.now).1 in
  let end_ := (getDateRange week Scenario.now).2 in
  let data := select_entries Scenario.db (single_query "e1" start end_) in
  let window := List.filter (in_window start end_) data in
  exists buckets,
    generateDateIntervals week start end_ = Returns buckets /\
    length (map (single_record week 0 (Some data)) buckets) = 8%nat /\
    (flat_map
       (fun iv =>
          List.filter
            (fun e => bool_decide
                        (key_of_date week (workout_date e) = dateValue iv))
            window)
       buckets) ≡ₚ window.
Proof.
  intros start end_ data window.
  destruct (getDateRange_ordered week Scenario.now) as (Hwf & _ & Hle).
  { repeat split; vm_compute; congruence. }
  destruct (generateDateIntervals_keys week _ _ Hle) as (buckets & Hgen & _).
  exists buckets. split; [exact Hgen|].
  destruct (single_aggregation_records week 0 buckets data start end_)
    as (Hlen & _ & Hwindow).
  - apply select_entries_stored. unfold stored_ok. simpl.
    repeat constructor.
  - repeat constructor; vm_compute; congruence.
  - exact Hwf.
  - repeat split; vm_compute; congruence.
  - exact Hle.
  - by left.
  - split; [|exact (Hwindow Hgen)].
    assert (Hb : Returns buckets = generateDateIntervals week start end_)
      by (symmetry; exact Hgen).
    vm_compute in Hb. injection Hb as ->. reflexivity.
Defined.

(** C2 fails: the effort a record holds is a binary64 sum.  Two stored
    entries of one day account for 0.10 and 0.20; the exact total of
    [weight_kg * reps] is 0.30, and the record of that day holds
    0.30000000000000004, which is not the number nearest 0.30. *)
Lemma bucket_sum_is_not_the_decimal_total :
  let day := Interval "Mar 08" (DayKey (Civil 2024 3 8)) in
  let data :=
    [Entry "e1" 10 1 10 (Civil 2024 3 8) (Some Scenario.squat);
     Entry "e1" 10 2 20 (Civil 2024 3 8) (Some Scenario.squat)] in
  Forall (fun e => effort e = generated_effort (weight_kg e) (reps e)) data /\
  Forall (fun e => matches_interval week 0 day e = true) data /\
  total (fun e => weight_kg e * reps e) data = 30 /\
  exists x,
    single_record week 0 (Some data) day !! "effort" = Some (JNum x) /\
    (x =? parse_decimal 30)%float = false.
Proof.
  split_and!; [by repeat constructor|by repeat constructor|reflexivity|].
  eexists. split; reflexivity.
Qed.

End AggregationExample.

(** ** How many buckets a preset has *)

Section BucketCounts.

Import Analytics.

Lemma iter_next_day_valid (k : nat) (x : civil) :
  valid x -> valid (Nat.iter k next_day x).
Proof. intros Hx. induction k; simpl; [done|by apply valid_next_day]. Qed.

Lemma iter_next_day_rank (k : nat) (x : civil) :
  valid x -> rank x + Z.of_nat k <= rank (Nat.iter k next_day x).
Proof.
  intros Hx. induction k as [|k IH]; simpl; [lia|].
  pose proof (iter_next_day_valid k x Hx) as Hv.
  pose proof (rank_lt _ _ Hv (valid_next_day _ Hv) (next_day_lt _)). lia.
Qed.

Lemma iter_next_day_le (k : nat) (x : civil) :
  civil_le x (Nat.iter k next_day x).
Proof.
  induction k as [|k IH]; simpl; [apply civil_le_refl|].
  left. eapply civil_le_lt_trans; [done|apply next_day_lt].
Qed.

(** When [endDate] is the [k]-th day after [x], the loop pushes [k + 1]
    days. *)
Lemma day_loop_reach (k fuel : nat) (x : civil) (e : jsdate) :
  0 <= time_of e ->
  Nat.iter k next_day x = date_of e ->
  (k < fuel)%nat ->
  length (day_loop fuel x e) = S k.
Proof.
  intros Ht. revert fuel x. induction k as [|k IH]; intros fuel x Hk Hfuel.
  - destruct fuel as [|fuel]; [lia|]. simpl in Hk. subst x. simpl.
    rewrite date_leb_midnight by done.
    rewrite (proj2 (civil_leb_le _ _) (civil_le_refl _)). simpl. f_equal.
    destruct fuel as [|fuel]; [done|]. simpl.
    rewrite date_leb_midnight by done.
    by rewrite (proj2 (civil_leb_false _ _) (next_day_lt _)).
  - destruct fuel as [|fuel]; [lia|]. simpl.
    rewrite date_leb_midnight by done.
    rewrite Nat.iter_succ_r in Hk.
    assert (Hle : civil_le x (date_of e)).
    { rewrite <- Hk. left.
      eapply civil_lt_le_trans; [apply next_day_lt|apply iter_next_day_le]. }
    rewrite (proj2 (civil_leb_le _ _) Hle). simpl. f_equal.
    apply IH; [done|lia].
Qed.

Lemma day_fuel_reach (k : nat) (start end_ : jsdate) :
  valid (date_of start) ->
  Nat.iter k next_day (date_of start) = date_of end_ ->
  (k < day_fuel start end_)%nat.
Proof.
  intros Hv Hk. pose proof (iter_next_day_rank k _ Hv) as Hr.
  rewrite Hk in Hr. unfold day_fuel. lia.
Qed.

Lemma iter_next_prev_day (k : nat) (c : civil) :
  valid c -> Nat.iter k next_day (Nat.iter k prev_day c) = c.
Proof.
  intros Hv. induction k as [|k IH]; [done|].
  rewrite Nat.iter_succ_r. simpl.
  rewrite next_prev_day; [done|]. by apply iter_prev_day.
Qed.

Lemma iter_next_day_in_month (k : nat) (y m a : Z) :
  a + Z.of_nat k <= days_in_month y m ->
  Nat.iter k next_day (Civil y m a) = Civil y m (a + Z.of_nat k).
Proof.
  induction k as [|k IH]; intros Hk; simpl.
  - f_equal. lia.
  - rewrite IH by lia. unfold next_day. simpl.
    destruct (Z.ltb_spec (a + Z.of_nat k) (days_in_month y m)); [|lia].
    f_equal. lia.
Qed.

Lemma next_day_month_end (y m : Z) :
  next_day (Civil y m (days_in_month y m))
  = if m <? 12 then Civil y (m + 1) 1 else Civil (y + 1) 1 1.
Proof. unfold next_day. simpl. by rewrite Z.ltb_irrefl. Qed.

Lemma month_loop_length (k fuel : nat) (cur : civil) (e : jsdate) :
  0 <= time_of e -> valid (date_of e) -> first_day cur ->
  month_index (date_of e) - month_index cur = Z.of_nat k ->
  (k < fuel)%nat ->
  length (month_loop fuel cur e) = S k.
Proof.
  intros Ht Hve. revert fuel cur.
  induction k as [|k IH]; intros fuel cur Hf Hk Hfuel.
  - destruct fuel as [|fuel]; [lia|]. simpl.
    rewrite date_leb_midnight by done.
    rewrite (proj2 (civil_leb_le _ _)) by (apply first_day_le; [done..|lia]).
    simpl. f_equal. destruct fuel as [|fuel]; [done|]. simpl.
    rewrite date_leb_midnight by done.
    destruct (civil_leb (next_month cur) (date_of e)) eqn:Hle; [|done].
    apply civil_leb_le, first_day_le in Hle;
      [|by apply first_day_next_month|done].
    rewrite month_index_next_month in Hle by done. lia.
  - destruct fuel as [|fuel]; [lia|]. simpl.
    rewrite date_leb_midnight by done.
    rewrite (proj2 (civil_leb_le _ _)) by (apply first_day_le; [done..|lia]).
    simpl. f_equal. apply IH; [by apply first_day_next_month| |lia].
    rewrite month_index_next_month by done. lia.
Qed.

Lemma addMonths_month_index (d : jsdate) (amount : Z) :
  month_index (date_of (addMonths d amount))
  = month_index (date_of d) + amount.
Proof.
  unfold addMonths, month_index.
  set (idx := c_year (date_of d) * 12 + (c_month (date_of d) - 1) + amount).
  pose proof (Z.div_mod idx 12) as Hdm.
  assert (Hidx : idx = c_year (date_of d) * 12 + (c_month (date_of d) - 1)
                       + amount) by done.
  clearbody idx. destruct (_ <=? _); simpl; lia.
Qed.

(** X1: the week preset always has eight day buckets: the seven days before
    today, and today. *)
Theorem week_preset_has_eight_buckets (now : jsdate) :
  wf_date now ->
  exists intervals,
    generateDateIntervals week (getDateRange week now).1
      (getDateRange week now).2 = Returns intervals /\
    length intervals = 8%nat.
Proof.
  intros Hnow.
  destruct (getDateRange_ordered week now Hnow) as ([Hvs _] & _ & Hle).
  destruct (generateDateIntervals_keys week _ _ Hle) as (ivs & Hgen & Hlen & _).
  exists ivs. split; [done|]. rewrite Hlen.
  destruct Hnow as [Hv Ht].
  assert (Hreach : Nat.iter 7 next_day (date_of (getDateRange week now).1)
                   = date_of (getDateRange week now).2)
    by apply (iter_next_prev_day 7 _ Hv).
  apply (day_loop_reach 7); [simpl; lia|done|].
  by apply day_fuel_reach.
Qed.

Lemma week_preset_has_eight_buckets_witness :
  exists intervals,
    generateDateIntervals week (getDateRange week Scenario.now).1
      (getDateRange week Scenario.now).2 = Returns intervals /\
    length intervals = 8%nat.
Proof.
  apply (week_preset_has_eight_buckets Scenario.now).
  repeat split; vm_compute; congruence.
Defined.

(** X2: the year preset always has thirteen month buckets: this month and the
    twelve before it. *)
Theorem year_preset_has_thirteen_buckets (now : jsdate) :
  wf_date now ->
  exists intervals,
    generateDateIntervals year (getDateRange year now).1
      (getDateRange year now).2 = Returns intervals /\
    length intervals = 13%nat.
Proof.
  intros Hnow.
  destruct (getDateRange_ordered year now Hnow) as ([Hvs _] & _ & Hle).
  destruct (generateDateIntervals_keys year _ _ Hle) as (ivs & Hgen & Hlen & _).
  exists ivs. split; [done|]. rewrite Hlen.
  destruct Hnow as [[Hm Hd] Ht].
  assert (Hidx : month_index (date_of (getDateRange year now).2) -
                 month_index (first_of_month (date_of (getDateRange year now).1))
                 = 12).
  { change (month_index (first_of_month (date_of (getDateRange year now).1)))
      with (month_index (date_of (addMonths now (- 1 * 12)))).
    rewrite addMonths_month_index. simpl. lia. }
  apply (month_loop_length 12); [simpl; lia|done| |by rewrite Hidx|].
  - destruct Hvs as [? _]. by split.
  - unfold month_fuel.
    change (month_index (date_of (getDateRange year now).1))
      with (month_index (first_of_month (date_of (getDateRange year now).1))).
    lia.
Qed.

Lemma year_preset_has_thirteen_buckets_witness :
  exists intervals,
    generateDateIntervals year (getDateRange year Scenario.now).1
      (getDateRange year Scenario.now).2 = Returns intervals /\
    length intervals = 13%nat.
Proof.
  apply (year_preset_has_thirteen_buckets Scenario.now).
  repeat split; vm_compute; congruence.
Defined.

(** X3: the month preset has one day bucket per day from the same day of the
    previous month (its last day, when that month is shorter) to today:
    between 29 and 32 buckets. *)
Theorem month_preset_bucket_count (now : jsdate) :
  wf_date now ->
  let start := date_of (getDateRange month now).1 in
  exists intervals,
    generateDateIntervals month (getDateRange month now).1
      (getDateRange month now).2 = Returns intervals /\
    Z.of_nat (length intervals)
    = days_in_month (c_year start) (c_month start) - c_day start
      + c_day (date_of now) + 1 /\
    (29 <= length intervals <= 32)%nat.
Proof.
  intros Hnow start.
  destruct (getDateRange_ordered month now Hnow) as ([Hvs _] & _ & Hle).
  destruct (generateDateIntervals_keys month _ _ Hle) as (ivs & Hgen & Hlen & _).
  exists ivs. split; [done|]. rewrite Hlen. clear Hgen Hlen Hle.
  destruct Hnow as [[Hm Hd] Ht]. fold start in Hvs.
  pose proof (addMonths_month_index now (- 1)) as Hidx.
  change (date_of (addMonths now (- 1))) with start in Hidx.
  unfold month_index in Hidx.
  assert (Hday : c_day start
                 = Z.min (c_day (date_of now))
                     (days_in_month (c_year start) (c_month start))).
  { subst start. simpl. unfold subMonths, addMonths.
    destruct (Z.leb_spec
                (days_in_month
                   ((c_year (date_of now) * 12 + (c_month (date_of now) - 1)
                     + - (1)) / 12)
                   ((c_year (date_of now) * 12 + (c_month (date_of now) - 1)
                     + - (1)) mod 12 + 1))
                (c_day (date_of now))); simpl; lia. }
  destruct Hvs as [Hms Hds].
  pose proof (days_in_month_bounds (c_year start) (c_month start)) as Hb.
  pose proof (days_in_month_bounds (c_year (date_of now))
                (c_month (date_of now))) as Hb'.
  set (n1 := Z.to_nat (days_in_month (c_year start) (c_month start)
                       - c_day start)).
  set (n2 := Z.to_nat (c_day (date_of now) - 1)).
  assert (Hreach : Nat.iter (n2 + S n1) next_day start = date_of now).
  { rewrite Nat.iter_add. simpl.
    replace start with (Civil (c_year start) (c_month start) (c_day start))
      at 1 by by destruct start.
    rewrite iter_next_day_in_month by (subst n1; lia).
    replace (c_day start + Z.of_nat n1)
      with (days_in_month (c_year start) (c_month start)) by (subst n1; lia).
    rewrite next_day_month_end.
    assert (Hnext : (if c_month start <? 12
                     then Civil (c_year start) (c_month start + 1) 1
                     else Civil (c_year start + 1) 1 1)
                    = Civil (c_year (date_of now)) (c_month (date_of now)) 1).
    { destruct (Z.ltb_spec (c_month start) 12); f_equal; lia. }
    rewrite Hnext, iter_next_day_in_month by (subst n2; lia).
    destruct (date_of now) as [y m d]; simpl in *. f_equal. subst n2. lia. }
  assert (Hlen : length (day_loop
                   (day_fuel (getDateRange month now).1
                      (getDateRange month now).2)
                   start (getDateRange month now).2) = S (n2 + S n1)).
  { apply day_loop_reach; [simpl; lia|done|].
    apply day_fuel_reach; [by split|done]. }
  change (date_of (getDateRange month now).1) with start.
  rewrite Hlen. subst n1 n2. split; lia.
Qed.

Lemma month_preset_bucket_count_witness :
  exists intervals,
    generateDateIntervals month
      (getDateRange month (JsDate (Civil 2024 3 31) 0)).1
      (getDateRange month (JsDate (Civil 2024 3 31) 0)).2
    = Returns intervals /\
    length intervals = 32%nat.
Proof.
  destruct (month_preset_bucket_count (JsDate (Civil 2024 3 31) 0))
    as (ivs & Hgen & Hlen & _).
  - repeat split; vm_compute; congruence.
  - exists ivs. split; [exact Hgen|].
    apply Nat2Z.inj. rewrite Hlen. reflexivity.
Defined.

End BucketCounts.

(** ** The analysis handler as a whole *)

Section AnalysisRuns.

Import Analytics.

(** X4: an analysis started at any moment returns (it never throws); it leaves
    the selections and the view mode as they were, issues at most two
    reads and at most one toast, ends with [loading] false when a scope is
    selected, and does nothing at all when none is. *)
Theorem analysis_returns_and_stops_loading
    (be : backend) (now : jsdate) (tz : Z) (w : world state) :
  wf_date now ->
  let run := handleAnalyze be now tz w in
  run.1 = Returns tt /\
  selectedExercise (ui run.2) = selectedExercise (ui w) /\
  selectedGroup (ui run.2) = selectedGroup (ui w) /\
  viewMode (ui run.2) = viewMode (ui w) /\
  (exists extra,
     trace run.2 = trace w ++ extra /\
     (length (List.filter (fun e => bool_decide (is_read e)) extra) <= 2)%nat /\
     (length (List.filter (fun e => negb (bool_decide (is_read e))) extra)
      <= 1)%nat) /\
  (truthy (selectedExercise (ui w)) || truthy (selectedGroup (ui w)) = true ->
   loading (ui run.2) = false) /\
  (truthy (selectedExercise (ui w)) || truthy (selectedGroup (ui w)) = false ->
   run.2 = w).
Proof.
  intros Hnow run.
  destruct (getDateRange_ordered (viewMode (ui w)) now Hnow) as (_ & _ & Hle).
  destruct (generateDateIntervals_keys (viewMode (ui w)) _ _ Hle)
    as (ivs & Hgen & _).
  subst run. rewrite handleAnalyze_run.
  destruct (truthy (selectedExercise (ui w))) eqn:Hex.
  - rewrite fetchSingleExerciseData_run by done. cbv zeta. rewrite Hgen.
    destruct (error _); simpl; split_and!; try done.
    + eexists. split; [by rewrite <- (assoc_L (++))|]. simpl. lia.
    + eexists. split; [done|]. simpl. lia.
  - destruct (truthy (selectedGroup (ui w))) eqn:Hgr.
    + rewrite fetchGroupData_run by done. cbv zeta. rewrite Hgen.
      destruct (error (from_exercises _ _)); simpl.
      * split_and!; try done.
        eexists. split; [by rewrite <- (assoc_L (++))|]. simpl. lia.
      * destruct (error (from_workout_entries _ _)); simpl;
          split_and!; try done.
        -- eexists. split; [by rewrite <- !(assoc_L (++))|]. simpl. lia.
        -- eexists. split; [by rewrite <- !(assoc_L (++))|]. simpl. lia.
    + simpl. split_and!; try done.
      exists []. split; [by rewrite app_nil_r|]. simpl. lia.
Qed.

Lemma analysis_returns_and_stops_loading_witness :
  let w := World (State "e1" EmptyString year [] true) [] in
  let run := handleAnalyze (supabase Scenario.db) Scenario.now 0 w in
  run.1 = Returns tt /\ loading (ui run.2) = false.
Proof.
  intros w run.
  destruct (analysis_returns_and_stops_loading (supabase Scenario.db)
              Scenario.now 0 w) as (Hret & _ & _ & _ & _ & Hload & _).
  - repeat split; vm_compute; congruence.
  - split; [exact Hret|]. apply Hload. reflexivity.
Defined.

End AnalysisRuns.

(** ** The lines of the group chart *)

Section ChartLines.

Import Analytics Chart.

(** X5: after a group analysis whose reads succeed the chart is shown and
    every record has the same properties: [date], and one per exercise
    name found in the returned entries other than [__proto__], which a
    plain object does not take.  The lines drawn (read off the first
    record) are exactly the exercise names that are neither [__proto__]
    nor "date". *)
Theorem group_chart_draws_every_series
    (be : backend) (now : jsdate) (tz : Z) (w : world state) :
  wf_date now ->
  truthy (selectedGroup (ui w)) = true ->
  (forall q, error (from_exercises be q) = None) ->
  (forall q, error (from_workout_entries be q) = None) ->
  let range := getDateRange (viewMode (ui w)) now in
  let q := group_query
             (data (from_exercises be
                      (group_exercises_query (selectedGroup (ui w)))))
             range.1 range.2 in
  let exerciseNames := exerciseNames_of (data (from_workout_entries be q)) in
  let chart := chartData (ui (fetchGroupData be now tz w).2) in
  chart_shown chart = true /\
  (forall r, r ∈ chart ->
     dom r = ({["date"]} ∪ (list_to_set exerciseNames ∖ {["__proto__"]})
              : gset string)) /\
  line_keys chart = list_to_set exerciseNames ∖ {["__proto__"; "date"]}.
Proof.
  intros Hnow Hsel Hex Hen range q exerciseNames chart.
  destruct (getDateRange_ordered (viewMode (ui w)) now Hnow)
    as (Hwf & Hend & Hle).
  assert (Hwf2 : wf_date (getDateRange (viewMode (ui w)) now).2)
    by by rewrite Hend.
  destruct (generated_keys_spec (viewMode (ui w)) _ _ Hwf Hwf2 Hle)
    as (ivs & Hgen & Hne & _).
  assert (Hchart : chart
                   = map (group_record (viewMode (ui w)) tz
                            (data (from_workout_entries be q)) exerciseNames)
                       ivs).
  { unfold chart, exerciseNames, q, range.
    rewrite fetchGroupData_run by done. cbv zeta.
    by rewrite Hex, Hen, Hgen. }
  pose proof (exerciseNames_of_truthy (data (from_workout_entries be q)))
    as Htruthy.
  rewrite Hchart. destruct ivs as [|iv ivs]; [done|].
  split_and!.
  - done.
  - intros r (iv' & -> & _)%list_elem_of_fmap. by apply group_record_dom.
  - unfold line_keys. simpl. rewrite group_record_dom by done.
    apply set_eq. intros k.
    rewrite !elem_of_difference, !elem_of_union, !elem_of_singleton,
      !elem_of_difference, !elem_of_singleton.
    tauto.
Qed.

Lemma group_chart_draws_every_series_witness :
  let w := World (State EmptyString "g1" week [] false) [] in
  let chart := chartData
                 (ui (fetchGroupData (supabase Scenario.db) Scenario.now 0 w).2) in
  chart_shown chart = true /\
  line_keys chart
  = list_to_set ["Leg Press"; "Squat"]%string ∖ {["__proto__"; "date"]}.
Proof.
  intros w chart.
  destruct (group_chart_draws_every_series (supabase Scenario.db)
              Scenario.now 0 w) as (Hshown & _ & Hlines).
  - repeat split; vm_compute; congruence.
  - reflexivity.
  - reflexivity.
  - reflexivity.
  - split; [exact Hshown|exact Hlines].
Defined.

End ChartLines.
(** ** Grouping by date on the refetching screen *)

Section GroupedFacts.

Import Analytics2 Grouped Chart.

Lemma grouped_add_dates g date n x :
  map fst (grouped_add g date n x)
  = if bool_decide (date ∈ map fst g) then map fst g
    else map fst g ++ [date].
Proof.
  induction g as [|[d m] g IH]; simpl; [done|].
  destruct (decide (d = date)) as [->|Hd].
  - rewrite (bool_decide_eq_true_2 (date = date)) by done. simpl.
    by rewrite (bool_decide_eq_true_2 (date ∈ date :: map fst g)) by left.
  - rewrite (bool_decide_eq_false_2 (d = date)) by done. simpl. rewrite IH.
    destruct (decide (date ∈ map fst g)) as [Hin|Hnin].
    + rewrite (bool_decide_eq_true_2 (date ∈ map fst g)) by done.
      by rewrite (bool_decide_eq_true_2 (date ∈ d :: map fst g)) by by right.
    + rewrite (bool_decide_eq_false_2 (date ∈ map fst g)) by done.
      rewrite (bool_decide_eq_false_2 (date ∈ d :: map fst g)); [done|].
      intros [?|?]%elem_of_cons; congruence.
Qed.

Lemma lookup_date_grouped_add g date n x d' :
  lookup_date (grouped_add g date n x) d'
  = if bool_decide (date = d')
    then Some (add_effort (default ∅ (lookup_date g date)) n x)
    else lookup_date g d'.
Proof.
  induction g as [|[d m] g IH]; simpl.
  - by case_bool_decide.
  - destruct (decide (d = date)) as [->|Hd].
    + rewrite !bool_decide_eq_true_2 by done. simpl.
      by destruct (bool_decide (date = d')).
    + rewrite !(bool_decide_eq_false_2 (d = date)) by done. simpl.
      rewrite IH. destruct (decide (date = d')) as [<-|Hd'].
      * by rewrite bool_decide_eq_false_2, bool_decide_eq_true_2.
      * by rewrite (bool_decide_eq_false_2 (date = d')).
Qed.

Lemma lookup_date_None g d : lookup_date g d = None <-> d ∉ map fst g.
Proof.
  induction g as [|[d0 m] g IH]; simpl.
  - split; [by intros _ ?%elem_of_nil|done].
  - case_bool_decide as Hd.
    + subst. split; [done|]. intros H. exfalso. apply H. by left.
    + rewrite IH, not_elem_of_cons. split; [by intros ?|by intros [_ ?]].
Qed.

Lemma lookup_date_elem g d m :
  NoDup (map fst g) -> (d, m) ∈ g <-> lookup_date g d = Some m.
Proof.
  induction g as [|[d0 m0] g IH]; simpl; intros Hnd.
  - split; [by intros ?%elem_of_nil|done].
  - apply NoDup_cons in Hnd as [Hnotin Hnd]. rewrite elem_of_cons.
    case_bool_decide as Hd.
    + subst. split.
      * intros [[= -> ]|Hin]; [done|]. exfalso. apply Hnotin.
        apply list_elem_of_fmap. by exists (d, m).
      * intros [= ->]. by left.
    + rewrite <- IH by done. split; [|by right].
      intros [[= ? ?]|?]; [congruence|done].
Qed.

Lemma group_rows_snoc rows e :
  group_rows (rows ++ [e]) = group_step (group_rows rows) e.
Proof. unfold group_rows. by rewrite fold_left_app. Qed.

Lemma filter_snoc {A} (p : A -> bool) (l : list A) (a : A) :
  List.filter p (l ++ [a])
  = List.filter p l ++ (if p a then [a] else []).
Proof.
  induction l as [|x l IH]; simpl; [done|].
  rewrite IH. by destruct (p x).
Qed.

Lemma existsb_filter_nil {A} (p : A -> bool) (l : list A) :
  existsb p l = false <-> List.filter p l = [].
Proof.
  induction l as [|x l IH]; simpl; [done|].
  destruct (p x); simpl; [split; done|apply IH].
Qed.

Lemma proto_inherited : "__proto__" ∈ object_prototype.
Proof. unfold object_prototype. in_list. Qed.

(** The two statements of the loop body come to one write of the
    accumulated value; under [__proto__] nothing is written. *)
Lemma add_effort_lookup (o : gmap string jsval) (n : string) (x : float)
    (k : string) :
  add_effort o n x !! k
  = if bool_decide (k = n) && negb (bool_decide (k = "__proto__"))
    then Some (accumulate (js_get o n) x)
    else o !! k.
Proof.
  unfold add_effort, accumulate, js_set.
  destruct (decide (n = "__proto__")) as [Hn|Hn].
  - rewrite !(bool_decide_eq_true_2 (n = "__proto__")) by done.
    destruct (decide (k = n)) as [->|Hk].
    + rewrite (bool_decide_eq_true_2 (n = "__proto__")) by done.
      rewrite andb_false_r. by destruct (js_truthy _).
    + rewrite (bool_decide_eq_false_2 (k = n)) by done.
      by destruct (js_truthy _).
  - rewrite !(bool_decide_eq_false_2 (n = "__proto__")) by done.
    destruct (decide (k = n)) as [->|Hk].
    + rewrite (bool_decide_eq_true_2 (n = n)) by done.
      rewrite (bool_decide_eq_false_2 (n = "__proto__")) by done. simpl.
      destruct (js_truthy (js_get o n)) eqn:Ht.
      * by rewrite lookup_insert_eq.
      * rewrite lookup_insert_eq. unfold js_get at 1.
        by rewrite lookup_insert_eq.
    + rewrite (bool_decide_eq_false_2 (k = n)) by done. simpl.
      destruct (js_truthy (js_get o n)).
      * by rewrite lookup_insert_ne.
      * by rewrite !lookup_insert_ne.
Qed.

Lemma cell_nil (n : string) : cell n [] = None.
Proof. unfold cell. by destruct (bool_decide _). Qed.

Lemma cell_proto (mine : list entry) : cell "__proto__" mine = None.
Proof. reflexivity. Qed.

Lemma cell_snoc (n : string) (mine : list entry) (e : entry) :
  n <> "__proto__" ->
  cell n (mine ++ [e])
  = Some (accumulate
            (match cell n mine with Some v => Some v | None => inherited n end)
            (effort_of e)).
Proof.
  intros Hn. unfold cell.
  rewrite (bool_decide_eq_false_2 (n = "__proto__")) by done.
  rewrite fold_left_app. simpl. by destruct (fold_left _ mine None).
Qed.

(** A cell exists exactly when the name is not [__proto__] and there is a
    row. *)
Lemma cell_is_Some (n : string) (mine : list entry) :
  is_Some (cell n mine) <-> n <> "__proto__" /\ mine <> [].
Proof.
  destruct (decide (n = "__proto__")) as [->|Hn].
  - rewrite cell_proto. split; [by intros [? ?]|by intros [? _]].
  - destruct mine as [|e mine] using rev_ind.
    + rewrite cell_nil. split; [by intros [? ?]|by intros [_ ?]].
    + rewrite cell_snoc by done. split; [|by eexists].
      intros _. split; [done|]. by destruct mine.
Qed.

(** Under a name that [Object.prototype] does not have, the cell is a
    number: the sum of the products in row order. *)
Lemma cell_ordinary (n : string) (mine : list entry) :
  n ∉ object_prototype ->
  cell n mine
  = match mine with
    | [] => None
    | _ :: _ => Some (JNum (group_sum mine))
    end.
Proof.
  intros Hn.
  assert (Hproto : n <> "__proto__")
    by (intros ->; apply Hn, proto_inherited).
  assert (Hinh : inherited n = None)
    by (unfold inherited; by rewrite bool_decide_eq_false_2).
  induction mine as [|e mine IH] using rev_ind; [apply cell_nil|].
  rewrite cell_snoc, IH, Hinh by done.
  unfold group_sum. rewrite fold_left_app. simpl.
  destruct mine as [|e0 mine]; simpl.
  - unfold accumulate. simpl. by destruct (e :: []).
  - unfold accumulate. simpl.
    destruct (number_truthy _); simpl; by destruct (mine ++ [e]).
Qed.

(** Under a name of [Object.prototype] other than [__proto__], the cell is
    a string: the inherited function is not falsy, so no 0 is stored, and
    adding a number to it concatenates. *)
Lemma cell_inherited (n : string) (mine : list entry) :
  n ∈ object_prototype -> n <> "__proto__" -> mine <> [] ->
  exists v x, cell n mine = Some (JCat v x).
Proof.
  intros Hn Hproto.
  assert (Hinh : inherited n = Some (JProto n))
    by (unfold inherited; by rewrite bool_decide_eq_true_2).
  induction mine as [|e mine IH] using rev_ind; [done|]. intros _.
  rewrite cell_snoc by done. destruct mine as [|e0 mine].
  - rewrite cell_nil, Hinh. by eexists _, _.
  - destruct IH as (v & x & ->); [done|]. by eexists _, _.
Qed.

(** What the grouping holds after all rows: the dates of the rows, each
    once, in order of first appearance; under a date, for every name, the
    cell of the rows of that date and name. *)
Lemma group_rows_spec (rows : list entry) :
  Forall (fun e => is_Some (exercises e)) rows ->
  exists g,
    group_rows rows = Returns g /\
    NoDup (map fst g) /\
    (forall d, d ∈ map fst g <-> exists e, e ∈ rows /\ workout_date e = d) /\
    head (map fst g) = workout_date <$> head rows /\
    (forall d m n, lookup_date g d = Some m ->
       m !! n = cell n (List.filter (on_date_for d n) rows)).
Proof.
  induction rows as [|e rows IH] using rev_ind; intros Hex.
  - exists []. split_and!; try done; [constructor|].
    intros d. split; [by intros ?%elem_of_nil|].
    by intros (e & ?%elem_of_nil & _).
  - apply Forall_app in Hex as [Hex He].
    apply Forall_cons in He as [[x Hx] _].
    destruct (IH Hex) as (g & Hg & Hnd & Hdates & Hhead & Hcells).
    exists (grouped_add g (workout_date e) (name x) (effort_of e)).
    rewrite group_rows_snoc, Hg. simpl. rewrite Hx.
    split; [done|]. rewrite grouped_add_dates.
    split_and!.
    + case_bool_decide as Hin; [done|].
      apply NoDup_app. split_and!; [done| |apply NoDup_singleton].
      intros d Hd ->%list_elem_of_singleton. done.
    + intros d. case_bool_decide as Hin.
      * rewrite Hdates. split.
        -- intros (e' & He' & <-). exists e'. split; [|done].
           apply elem_of_app. by left.
        -- intros (e' & [He'|He']%elem_of_app & <-); [by eauto|].
           apply list_elem_of_singleton in He' as ->. by apply Hdates.
      * rewrite elem_of_app, Hdates, list_elem_of_singleton. split.
        -- intros [(e' & He' & <-)| ->].
           ++ exists e'. split; [|done]. apply elem_of_app. by left.
           ++ exists e. split; [|done]. apply elem_of_app. right. by left.
        -- intros (e' & [He'|He']%elem_of_app & <-); [left; by eauto|].
           apply list_elem_of_singleton in He' as ->. by right.
    + destruct rows as [|e0 rows]; simpl.
      * destruct g; [|done]. by rewrite bool_decide_eq_false_2
          by by intros ?%elem_of_nil.
      * simpl in Hhead. case_bool_decide; [done|].
        destruct g; [done|]. done.
    + assert (Hbefore : forall k,
        default ∅ (lookup_date g (workout_date e)) !! k
        = cell k (List.filter (on_date_for (workout_date e) k) rows)).
      { intros k.
        destruct (lookup_date g (workout_date e)) as [m0|] eqn:Hm0; simpl.
        - by apply Hcells.
        - rewrite lookup_empty, filter_bool_none; [by rewrite cell_nil|].
          intros a Ha. unfold on_date_for.
          rewrite bool_decide_eq_false_2; [done|].
          intros Hda. apply lookup_date_None in Hm0. apply Hm0.
          apply Hdates. by exists a. }
      intros d m n. rewrite lookup_date_grouped_add, filter_snoc.
      unfold on_date_for at 2. rewrite Hx. simpl.
      destruct (decide (workout_date e = d)) as [<-|Hd].
      * rewrite !(bool_decide_eq_true_2 (workout_date e = workout_date e))
          by done.
        intros [= <-]. rewrite add_effort_lookup. simpl.
        destruct (decide (name x = n)) as [<-|Hn].
        -- rewrite (bool_decide_eq_true_2 (name x = name x)) by done.
           rewrite (bool_decide_eq_true_2 (Some (name x) = Some (name x)))
             by done.
           simpl.
           destruct (decide (name x = "__proto__")) as [Hp|Hp].
           ++ rewrite (bool_decide_eq_true_2 (name x = "__proto__")) by done.
              simpl. rewrite Hbefore, Hp. by rewrite !cell_proto.
           ++ rewrite (bool_decide_eq_false_2 (name x = "__proto__")) by done.
              simpl. rewrite cell_snoc by done. unfold js_get.
              by rewrite Hbefore.
        -- rewrite (bool_decide_eq_false_2 (n = name x)) by done.
           rewrite (bool_decide_eq_false_2 (Some (name x) = Some n))
             by congruence.
           simpl. by rewrite app_nil_r, Hbefore.
      * rewrite !(bool_decide_eq_false_2 (workout_date e = d)) by done.
        simpl. rewrite app_nil_r. by apply Hcells.
Qed.

Lemma fetchGroupData2_run (be : backend) (w : world state) :
  truthy (selectedGroup (ui w)) = true ->
  let q := group_query (selectedGroup (ui w)) in
  let r := from_workout_entries be q in
  fetchGroupData be w
  = match error r with
    | Some _ =>
        (Returns tt,
         World (ui w) ((trace w ++ [Read q]) ++ [Notify group_workout_data_error]))
    | None =>
        match group_rows (default [] (data r)) with
        | Returns g =>
            (Returns tt,
             World (setGroupData (map group_record g) (ui w))
               (trace w ++ [Read q]))
        | Throws x => (Throws x, World (ui w) (trace w ++ [Read q]))
        end
    end.
Proof.
  intros Hsel.
  cbv [fetchGroupData mbind mret handler_bind handler_ret bind ret get modify
       emit toast read_entries lift].
  rewrite Hsel. simpl. destruct (error _); [done|].
  unfold group_rows. by destruct (fold_left _ _ _).
Qed.

Lemma fetchSingleExerciseData2_run (be : backend) (w : world state) :
  truthy (selectedExercise (ui w)) = true ->
  let q := single_query (selectedExercise (ui w)) in
  let r := from_workout_entries be q in
  fetchSingleExerciseData be w
  = match error r with
    | Some _ =>
        (Returns tt,
         World (ui w) ((trace w ++ [Read q]) ++ [Notify workout_data_error]))
    | None =>
        (Returns tt,
         World (setSingleExerciseData
                  (default [] (map single_record <$> data r)) (ui w))
           (trace w ++ [Read q]))
    end.
Proof.
  intros Hsel.
  cbv [fetchSingleExerciseData mbind mret handler_bind handler_ret bind ret
       get modify emit toast read_entries].
  rewrite Hsel. simpl. by destruct (error _).
Qed.

Lemma fetchSingleExerciseData2_skip (be : backend) (w : world state) :
  truthy (selectedExercise (ui w)) = false ->
  fetchSingleExerciseData be w = (Returns tt, w).
Proof.
  intros H.
  cbv [fetchSingleExerciseData mbind mret handler_bind handler_ret bind ret get].
  by rewrite H.
Qed.

Lemma fetchGroupData2_skip (be : backend) (w : world state) :
  truthy (selectedGroup (ui w)) = false ->
  fetchGroupData be w = (Returns tt, w).
Proof.
  intros H.
  cbv [fetchGroupData mbind mret handler_bind handler_ret bind ret get].
  by rewrite H.
Qed.

Lemma group_record_lookup2 (d : civil) (m : gmap string jsval) (n : string) :
  group_record (d, m) !! n
  = match m !! n with
    | Some v => Some v
    | None => if bool_decide (n = "date") then Some (JKey (DayKey d)) else None
    end.
Proof.
  unfold group_record. simpl. rewrite lookup_union.
  destruct (m !! n) as [v|]; simpl.
  - by destruct (_ !! n).
  - case_bool_decide as Hn.
    + subst. by rewrite lookup_insert_eq.
    + by rewrite lookup_insert_ne, lookup_empty.
Qed.

(** X6: on the refetching screen a group fetch whose read succeeds charts
    one record per distinct date of the returned rows.  Under a date, an
    exercise whose name is not a name of [Object.prototype] has a property
    exactly when it has a row on that date, and its value is the binary64
    sum, in row order, of the products [weight_kg * reps] of its rows of
    that date (restarted from 0 whenever it is zero or NaN).  Under a name
    of [Object.prototype] the property is missing or a string, and under
    [__proto__] it is always missing.  [date] holds the date unless an
    exercise of that day is named "date". *)
Theorem refetching_group_chart_sums
    (be : backend) (w : world state) (rows : list entry) :
  truthy (selectedGroup (ui w)) = true ->
  from_workout_entries be (group_query (selectedGroup (ui w)))
  = Response (Some rows) None ->
  Forall (fun e => is_Some (exercises e)) rows ->
  let run := fetchGroupData be w in
  run.1 = Returns tt /\
  exists g,
    groupData (ui run.2) = map group_record g /\
    NoDup (map fst g) /\
    (forall d, d ∈ map fst g <-> exists e, e ∈ rows /\ workout_date e = d) /\
    forall d m, (d, m) ∈ g -> forall n,
      (n ∉ object_prototype ->
       m !! n
       = if existsb (on_date_for d n) rows
         then Some (JNum (group_sum (List.filter (on_date_for d n) rows)))
         else None) /\
      (n ∈ object_prototype ->
       m !! n = None \/ exists v x, m !! n = Some (JCat v x)) /\
      (n = "__proto__" -> m !! n = None) /\
      (n <> "date" -> group_record (d, m) !! n = m !! n) /\
      (m !! "date" = None ->
       group_record (d, m) !! "date" = Some (JKey (DayKey d))).
Proof.
  intros Hsel Hresp Hex run.
  destruct (group_rows_spec rows Hex) as (g & Hg & Hnd & Hdates & _ & Hcells).
  subst run. rewrite fetchGroupData2_run by done. cbv zeta.
  rewrite Hresp. simpl. rewrite Hg. simpl. split; [done|].
  exists g. split_and!; try done.
  intros d m Hin n. apply lookup_date_elem in Hin; [|done].
  rewrite (Hcells d m n Hin).
  split_and!.
  - intros Hn. rewrite cell_ordinary by done.
    destruct (existsb _ rows) eqn:Hany.
    + destruct (List.filter _ rows) eqn:Hf; [|done].
      apply existsb_filter_nil in Hf. congruence.
    + apply existsb_filter_nil in Hany. by rewrite Hany.
  - intros Hn. destruct (decide (n = "__proto__")) as [->|Hp];
      [left; apply cell_proto|].
    destruct (List.filter (on_date_for d n) rows) eqn:Hf;
      [left; apply cell_nil|].
    right. by apply cell_inherited.
  - intros ->. apply cell_proto.
  - intros Hn. rewrite group_record_lookup2, (Hcells d m n Hin).
    destruct (cell n _); [done|]. by rewrite bool_decide_eq_false_2.
  - intros Hnone. by rewrite group_record_lookup2, Hnone.
Qed.

Lemma refetching_group_chart_sums_witness :
  let be := supabase Scenario.db in
  let w := World (State EmptyString "g1" "month" [] []) [] in
  let run := fetchGroupData be w in
  run.1 = Returns tt /\
  exists g,
    groupData (ui run.2) = map group_record g /\
    NoDup (map fst g) /\
    length (groupData (ui run.2)) = 3%nat.
Proof.
  intros be w run.
  destruct (refetching_group_chart_sums be w
              (select_entries Scenario.db (group_query "g1")))
    as (Hret & g & Hg & Hnd & _).
  - reflexivity.
  - reflexivity.
  - vm_compute. repeat constructor; by eexists.
  - split; [exact Hret|]. exists g. split_and!; [exact Hg|exact Hnd|].
    reflexivity.
Defined.

(** X7: the lines of the refetching screen's group chart are read off its
    first record: an exercise gets a line exactly when it has a row on the
    date of the first returned row and is named neither "date" nor
    [__proto__], whatever rows it has on later dates. *)
Theorem refetching_group_lines
    (be : backend) (w : world state) (first : entry) (rest : list entry) :
  truthy (selectedGroup (ui w)) = true ->
  from_workout_entries be (group_query (selectedGroup (ui w)))
  = Response (Some (first :: rest)) None ->
  Forall (fun e => is_Some (exercises e)) (first :: rest) ->
  forall n,
    n ∈ line_keys (groupData (ui (fetchGroupData be w).2)) <->
    n <> "date" /\ n <> "__proto__" /\
    exists e, e ∈ first :: rest /\
              workout_date e = workout_date first /\
              name <$> exercises e = Some n.
Proof.
  intros Hsel Hresp Hex n.
  destruct (group_rows_spec _ Hex) as (g & Hg & Hnd & Hdates & Hhead & Hcells).
  rewrite fetchGroupData2_run by done. cbv zeta.
  rewrite Hresp. simpl default. rewrite Hg. simpl.
  destruct g as [|[d m] g]; [done|]. simpl in Hhead. injection Hhead as ->.
  unfold line_keys. simpl.
  rewrite elem_of_difference, elem_of_singleton, elem_of_dom.
  rewrite group_record_lookup2.
  assert (Hm : lookup_date ((workout_date first, m) :: g) (workout_date first)
               = Some m) by (simpl; by rewrite bool_decide_eq_true_2).
  rewrite (Hcells _ _ n Hm).
  split.
  - intros [Hsome Hn]. split; [done|].
    assert (Hcell : is_Some (cell n (List.filter
                                       (on_date_for (workout_date first) n)
                                       (first :: rest)))).
    { destruct (cell n _); [by eexists|].
      rewrite bool_decide_eq_false_2 in Hsome by done. by destruct Hsome. }
    apply cell_is_Some in Hcell as [Hproto Hrows]. split; [done|].
    destruct (List.filter _ _) as [|e l] eqn:Hf; [done|].
    assert (He : e ∈ List.filter (on_date_for (workout_date first) n)
                       (first :: rest)) by (rewrite Hf; by left).
    apply list_elem_of_In, filter_In in He as [He Hp].
    apply andb_true_iff in Hp as
      [Hd%bool_decide_eq_true Hname%bool_decide_eq_true].
    exists e. split_and!; [by apply list_elem_of_In|done|done].
  - intros (Hn & Hproto & e & He & Hd & Hname). split; [|done].
    assert (Hcell : is_Some (cell n (List.filter
                                       (on_date_for (workout_date first) n)
                                       (first :: rest)))).
    { apply cell_is_Some. split; [done|]. intros Hnil.
      assert (Hin : e ∈ List.filter (on_date_for (workout_date first) n)
                          (first :: rest)).
      { apply list_elem_of_In, filter_In. split; [by apply list_elem_of_In|].
        unfold on_date_for. by rewrite !bool_decide_eq_true_2. }
      rewrite Hnil in Hin. by apply elem_of_nil in Hin. }
    destruct Hcell as [v ->]. by eexists.
Qed.

Lemma refetching_group_lines_witness :
  let be := supabase Scenario.db in
  let w := World (State EmptyString "g1" "month" [] []) [] in
  ("Squat" ∈ line_keys (groupData (ui (fetchGroupData be w).2))) /\
  ("Leg Press" ∉ line_keys (groupData (ui (fetchGroupData be w).2))).
Proof.
  intros be w.
  pose proof (refetching_group_lines be w
                (Entry "e1" 8000 10 80000 (Civil 2023 3 8) (Some Scenario.squat))
                [Entry "e2" 6000 12 72000 (Civil 2024 3 8)
                   (Some Scenario.leg_press);
                 Entry "e1" 8000 10 80000 (Civil 2024 3 8) (Some Scenario.squat);
                 Entry "e1" 10000 5 50000 (Civil 2024 3 9) (Some Scenario.squat)]
                eq_refl eq_refl) as Hlines.
  assert (Hex : Forall (fun e : entry => is_Some (exercises e))
            [Entry "e1" 8000 10 80000 (Civil 2023 3 8) (Some Scenario.squat);
             Entry "e2" 6000 12 72000 (Civil 2024 3 8)
               (Some Scenario.leg_press);
             Entry "e1" 8000 10 80000 (Civil 2024 3 8) (Some Scenario.squat);
             Entry "e1" 10000 5 50000 (Civil 2024 3 9) (Some Scenario.squat)])
    by (repeat constructor; by eexists).
  specialize (Hlines Hex). split.
  - apply Hlines. split_and!; [done|done|].
    eexists. split; [by left|]. done.
  - intros Hin. apply Hlines in Hin as (_ & _ & e & He & Hd & Hname).
    repeat (apply elem_of_cons in He as [->|He]; [by inversion Hd; inversion Hname|]).
    by apply elem_of_nil in He.
Defined.

Lemma date_order_trans (a b c : entry) :
  date_order a b -> date_order b c -> date_order a c.
Proof. unfold date_order. rewrite !civil_leb_le. apply civil_le_trans. Qed.

Lemma date_order_is_total (a b : entry) : date_order a b \/ date_order b a.
Proof.
  unfold date_order. rewrite !civil_leb_le.
  destruct (civil_lt_total (workout_date a) (workout_date b)) as [?|[->|?]];
    [by left; left|left; apply civil_le_refl|by right; left].
Qed.

Lemma select_entries_elem db q e :
  e ∈ select_entries db q <->
  e ∈ workout_entries_table db /\
  forallb (fun f => entry_satisfies f e) (q_filters q) = true.
Proof.
  unfold select_entries.
  assert (Hperm : forall o (l : list entry), order_entries o l ≡ₚ l).
  { intros [c|] l; simpl; [|done].
    destruct (bool_decide _); [apply merge_sort_Permutation|done]. }
  rewrite Hperm, list_elem_of_In, filter_In, <- list_elem_of_In. done.
Qed.

Lemma select_entries_sorted db q :
  q_order q = Some "workout_date"%string ->
  StronglySorted date_order (select_entries db q).
Proof.
  intros Ho. unfold select_entries. rewrite Ho. simpl.
  apply (@StronglySorted_merge_sort _ date_order _).
  - intros a b c. apply date_order_trans.
  - intros a b. apply date_order_is_total.
Qed.

Lemma group_rows_ascending (rows : list entry) g :
  StronglySorted date_order rows ->
  Forall (fun e => is_Some (exercises e)) rows ->
  group_rows rows = Returns g ->
  StronglySorted civil_lt (map fst g).
Proof.
  revert g. induction rows as [|e rows IH] using rev_ind; intros g Hs Hex Hg.
  - injection Hg as <-. constructor.
  - apply Forall_app in Hex as [Hex He].
    destruct (group_rows_spec rows Hex) as (g0 & Hg0 & _ & Hdates & _).
    apply Forall_cons in He as [[x Hx] _].
    rewrite group_rows_snoc, Hg0 in Hg. simpl in Hg. rewrite Hx in Hg.
    injection Hg as <-. rewrite grouped_add_dates.
    pose proof (StronglySorted_app_1_l _ _ _ Hs) as Hs0.
    specialize (IH g0 Hs0 Hex Hg0).
    destruct (decide (workout_date e ∈ map fst g0)) as [Hin|Hnin].
    + by rewrite bool_decide_eq_true_2.
    + rewrite bool_decide_eq_false_2 by done.
      apply StronglySorted_app_2; [|done|repeat constructor].
      intros d1 d2 Hd1 Hd2. apply list_elem_of_singleton in Hd2 as ->.
      pose proof Hd1 as Hd1'. apply Hdates in Hd1 as (e' & He' & <-).
      assert (Hord : date_order e' e).
      { eapply StronglySorted_app_1_elem_of; [done|done|by left]. }
      apply civil_leb_le in Hord as [Hlt|Heq]; [done|].
      exfalso. apply Hnin. by rewrite <- Heq.
Qed.

(** X8: against the store, a group fetch of the refetching screen returns, and
    its records come in strictly ascending date order, one for every date
    on which an exercise of the group has a row: all of them, whatever the
    chosen time period. *)
Theorem refetching_group_chart_ascending (db : database) (w : world state) :
  truthy (selectedGroup (ui w)) = true ->
  let run := fetchGroupData (supabase db) w in
  run.1 = Returns tt /\
  exists g,
    groupData (ui run.2) = map group_record g /\
    StronglySorted civil_lt (map fst g) /\
    forall d, d ∈ map fst g <->
      exists e, e ∈ workout_entries_table db /\ workout_date e = d /\
                group_id <$> exercises e = Some (selectedGroup (ui w)).
Proof.
  intros Hsel run.
  set (rows := select_entries db (group_query (selectedGroup (ui w)))).
  assert (Hrows : forall e, e ∈ rows <->
            e ∈ workout_entries_table db /\
            group_id <$> exercises e = Some (selectedGroup (ui w))).
  { intros e. subst rows. rewrite select_entries_elem. simpl.
    rewrite andb_true_r, bool_decide_eq_true. done. }
  assert (Hex : Forall (fun e => is_Some (exercises e)) rows).
  { apply Forall_forall. intros e [_ He]%Hrows.
    destruct (exercises e); [by eexists|done]. }
  destruct (group_rows_spec rows Hex) as (g & Hg & _ & Hdates & _).
  subst run. rewrite fetchGroupData2_run by done. cbv zeta. simpl.
  fold rows. rewrite Hg. simpl. split; [done|].
  exists g. split_and!; [done| |].
  - eapply group_rows_ascending; [|done|done].
    by apply select_entries_sorted.
  - intros d. rewrite Hdates. split.
    + intros (e & [He Hgr]%Hrows & Hd). by exists e.
    + intros (e & He & Hd & Hgr). exists e. split; [|done]. by apply Hrows.
Qed.

Lemma refetching_group_chart_ascending_witness :
  let w := World (State EmptyString "g1" "week" [] []) [] in
  let run := fetchGroupData (supabase Scenario.db) w in
  run.1 = Returns tt /\
  exists g,
    groupData (ui run.2) = map group_record g /\
    StronglySorted civil_lt (map fst g).
Proof.
  intros w run.
  destruct (refetching_group_chart_ascending Scenario.db w)
    as (Hret & g & Hg & Hs & _).
  - reflexivity.
  - split; [exact Hret|]. exists g. split; [exact Hg|exact Hs].
Defined.

(** X9: against the store, a single-exercise fetch of the refetching screen
    charts exactly the rows of the selected exercise, all of them, in
    ascending date order; a record holds the row's date and the binary64
    product of the numbers the row's weight and repetitions are read as. *)
Theorem refetching_single_chart_rows (db : database) (w : world state) :
  truthy (selectedExercise (ui w)) = true ->
  let run := fetchSingleExerciseData (supabase db) w in
  run.1 = Returns tt /\
  exists rows,
    singleExerciseData (ui run.2) = map single_record rows /\
    StronglySorted date_order rows /\
    rows ≡ₚ List.filter
              (fun e => bool_decide (exercise_id e = selectedExercise (ui w)))
              (workout_entries_table db) /\
    forall e, e ∈ rows ->
      single_record e !! "date" = Some (JKey (DayKey (workout_date e))) /\
      single_record e !! "effort"
      = Some (JNum (parse_decimal (weight_kg e) * number_of_Z (reps e))).
Proof.
  intros Hsel run.
  subst run. rewrite fetchSingleExerciseData2_run by done. cbv zeta. simpl.
  split; [done|].
  exists (select_entries db (single_query (selectedExercise (ui w)))).
  split_and!; [done|by apply select_entries_sorted| |].
  - unfold select_entries. simpl.
    etrans; [apply merge_sort_Permutation|].
    erewrite filter_ext_bool; [done|]. intros e. simpl.
    rewrite andb_true_r. apply bool_decide_ext.
    change (entry_text "exercise_id" e) with (Some (exercise_id e)).
    split; congruence.
  - intros e _. unfold single_record. split.
    + by rewrite lookup_insert_eq.
    + by rewrite lookup_insert_ne, lookup_insert_eq.
Qed.

Lemma refetching_single_chart_rows_witness :
  let w := World (State "e1" EmptyString "week" [] []) [] in
  let run := fetchSingleExerciseData (supabase Scenario.db) w in
  run.1 = Returns tt /\
  exists rows,
    singleExerciseData (ui run.2) = map single_record rows /\
    StronglySorted date_order rows /\
    (map (fun r => r !! "effort") (singleExerciseData (ui run.2))
     = [Some (JNum 800); Some (JNum 800); Some (JNum 500)]).
Proof.
  intros w run.
  destruct (refetching_single_chart_rows Scenario.db w)
    as (Hret & rows & Hchart & Hs & _).
  - reflexivity.
  - split; [exact Hret|]. exists rows.
    split_and!; [exact Hchart|exact Hs|reflexivity].
Defined.

(** X10: a failed read on the refetching screen changes nothing on the screen:
    the data charted before stays, and the only effects are the read and one
    destructive "Error" toast. *)
Theorem refetching_failed_read_keeps_charts (be : backend) (w : world state) :
  (forall q, is_Some (error (from_workout_entries be q))) ->
  let single := fetchSingleExerciseData be w in
  let grouped := fetchGroupData be w in
  single.1 = Returns tt /\ ui single.2 = ui w /\
  grouped.1 = Returns tt /\ ui grouped.2 = ui w /\
  trace single.2
  = trace w ++
    (if truthy (selectedExercise (ui w))
     then [Read (single_query (selectedExercise (ui w)));
           Notify workout_data_error]
     else []) /\
  trace grouped.2
  = trace w ++
    (if truthy (selectedGroup (ui w))
     then [Read (group_query (selectedGroup (ui w)));
           Notify group_workout_data_error]
     else []).
Proof.
  intros Hfail single grouped. subst single grouped.
  assert (Hs : fetchSingleExerciseData be w
               = if truthy (selectedExercise (ui w))
                 then (Returns tt,
                       World (ui w)
                         ((trace w
                           ++ [Read (single_query (selectedExercise (ui w)))])
                          ++ [Notify workout_data_error]))
                 else (Returns tt, w)).
  { destruct (truthy (selectedExercise (ui w))) eqn:Hex.
    - rewrite fetchSingleExerciseData2_run by done. cbv zeta.
      by destruct (Hfail (single_query (selectedExercise (ui w)))) as [? ->].
    - by apply fetchSingleExerciseData2_skip. }
  assert (Hg : fetchGroupData be w
               = if truthy (selectedGroup (ui w))
                 then (Returns tt,
                       World (ui w)
                         ((trace w
                           ++ [Read (group_query (selectedGroup (ui w)))])
                          ++ [Notify group_workout_data_error]))
                 else (Returns tt, w)).
  { destruct (truthy (selectedGroup (ui w))) eqn:Hgr.
    - rewrite fetchGroupData2_run by done. cbv zeta.
      by destruct (Hfail (group_query (selectedGroup (ui w)))) as [? ->].
    - by apply fetchGroupData2_skip. }
  rewrite Hs, Hg.
  destruct (truthy (selectedExercise (ui w))),
           (truthy (selectedGroup (ui w)));
    simpl; rewrite <- ?(assoc_L (++)), ?app_nil_r; done.
Qed.

Lemma refetching_failed_read_keeps_charts_witness :
  let w := World (State "e1" "g1" "week" [] []) [] in
  ui (fetchSingleExerciseData Scenario.failing w).2 = ui w /\
  ui (fetchGroupData Scenario.failing w).2 = ui w.
Proof.
  intros w.
  destruct (refetching_failed_read_keeps_charts Scenario.failing w)
    as (_ & Hs & _ & Hg & _).
  - intros q. by eexists.
  - split; [exact Hs|exact Hg].
Defined.

End GroupedFacts.

(** ** Logging an entry *)

Section EntryForm.

Import WorkoutEntry.

Lemma truthy_false (s : string) : truthy s = false <-> s = EmptyString.
Proof.
  unfold truthy. rewrite negb_false_iff. apply bool_decide_eq_true.
Qed.

Lemma insert_workout_entry_accepts (db db' : database) (n : new_entry) :
  insert_workout_entry db n = Some db' ->
  exists x,
    x ∈ exercises_table db /\ id x = ne_exercise_id n /\
    Z.abs (ne_weight_kg n) < 100000 /\
    Z.abs (ne_weight_kg n * ne_reps n) < 100000000 /\
    db' = Database (exercises_table db)
            (workout_entries_table db ++
               [Entry (ne_exercise_id n) (ne_weight_kg n) (ne_reps n)
                  (ne_weight_kg n * ne_reps n) (ne_workout_date n) (Some x)]).
Proof.
  unfold insert_workout_entry, generated_effort. intros H.
  destruct (find _ _) as [x|] eqn:Hfind; [|done].
  apply find_some in Hfind as [Hin Hid].
  apply bool_decide_eq_true in Hid.
  destruct (_ && _) eqn:Hfit; [|done].
  apply andb_true_iff in Hfit as [Hfit H2%Z.ltb_lt].
  apply andb_true_iff in Hfit as [Hfit _].
  apply andb_true_iff in Hfit as [H1%Z.ltb_lt _].
  injection H as <-. exists x. split_and!; try done.
  by apply list_elem_of_In.
Qed.

(** X11: what a submit of the form with the date picker does.  It always
    returns and shows exactly one toast.  With a field missing nothing
    else happens.  Otherwise it ends with [loading] false, and either the
    store is unchanged and the fields are kept, or one row is appended for
    the selected exercise, an existing one, dated the picked day, with
    [effort = weight_kg * reps], and the form is reset, its date to the
    current moment.  Rows already stored and the exercises are never
    touched. *)
Theorem workout_form_submit
    (parseFloat parseInt : string -> option Z) (online : bool) (now : jsdate)
    (w : world state) :
  let s := ui w in
  let run := handleSubmit parseFloat parseInt online now w in
  let s' := ui run.2 in
  run.1 = Returns tt /\
  exercises_table (server s') = exercises_table (server s) /\
  (stored_ok (server s) -> stored_ok (server s')) /\
  (exists t, trace run.2 = trace w ++ [Notify t]) /\
  ((selectedExercise s = EmptyString \/ weight s = EmptyString \/
    reps s = EmptyString \/ workoutDate s = None) ->
   run.2 = World s (trace w ++ [Notify missing_information])) /\
  ((selectedExercise s <> EmptyString /\ weight s <> EmptyString /\
    reps s <> EmptyString /\ workoutDate s <> None) ->
   loading s' = false /\
   ((server s' = server s /\
     selectedExercise s' = selectedExercise s /\ weight s' = weight s /\
     reps s' = reps s /\ workoutDate s' = workoutDate s /\
     trace run.2 = trace w ++ [Notify log_error]) \/
    (exists date wv rv x,
       workoutDate s = Some date /\
       parseFloat (weight s) = Some wv /\ parseInt (reps s) = Some rv /\
       x ∈ exercises_table (server s) /\ id x = selectedExercise s /\
       workout_entries_table (server s')
       = workout_entries_table (server s) ++
         [Entry (selectedExercise s) wv rv (wv * rv) (date_of date) (Some x)] /\
       selectedExercise s' = EmptyString /\ weight s' = EmptyString /\
       reps s' = EmptyString /\ workoutDate s' = Some now /\
       trace run.2 = trace w ++ [Notify log_success]))).
Proof.
  intros s run s'. subst run s'.
  cbv [handleSubmit mbind mret handler_bind handler_ret bind ret get modify
       emit toast].
  fold s.
  destruct (workoutDate s) as [date|] eqn:Hdate.
  2: { simpl. split_and!; try done; [by eexists|].
       intros (_ & _ & _ & ?). done. }
  destruct (truthy (selectedExercise s)) eqn:Hex; simpl.
  2: { apply truthy_false in Hex.
       split_and!; try done; [by eexists|]. intros (? & _). done. }
  destruct (truthy (weight s)) eqn:Hw; simpl.
  2: { apply truthy_false in Hw.
       split_and!; try done; [by eexists|]. intros (_ & ? & _). done. }
  destruct (truthy (reps s)) eqn:Hr; simpl.
  2: { apply truthy_false in Hr.
       split_and!; try done; [by eexists|]. intros (_ & _ & ? & _). done. }
  apply truthy_spec in Hex, Hw, Hr.
  destruct (insert_request _ _ _ _ _ _ _ _) as [db'|] eqn:Hins; simpl.
  - unfold insert_request in Hins. destruct online; [|done].
    destruct (parseFloat (weight s)) as [wv|] eqn:Hwv; [|done].
    destruct (parseInt (reps s)) as [rv|] eqn:Hrv; [|done].
    pose proof Hins as Hins'.
    apply insert_workout_entry_accepts in Hins
      as (x & Hx & Hid & _ & _ & ->). simpl in *.
    split_and!; try done.
    + intros Hok. by eapply insert_keeps_generated_effort.
    + by eexists.
    + intros [?|[?|[?|?]]]; done.
    + intros _. split; [done|]. right.
      exists date, wv, rv, x. split_and!; done.
  - split_and!; try done.
    + by eexists.
    + intros [?|[?|[?|?]]]; done.
    + intros _. split; [done|]. by left.
Qed.

(** X12: what a submit of the form without a date picker does.  It always
    returns; with a field missing the one effect is the Missing Information
    toast.  Otherwise it ends with [loading] false, and either the store is
    unchanged and the fields are kept, or one row is appended for the
    selected exercise with [effort = weight_kg * reps] and the form is
    reset.  No date is sent: the row is dated the store's current date, not
    a date of the browser. *)
Theorem workout_form2_submit
    (parseFloat parseInt : string -> option Z) (online : bool) (today : civil)
    (w : world WorkoutEntry2.state) :
  let s := ui w in
  let run := WorkoutEntry2.handleSubmit parseFloat parseInt online today w in
  let s' := ui run.2 in
  run.1 = Returns tt /\
  exercises_table (WorkoutEntry2.server s')
  = exercises_table (WorkoutEntry2.server s) /\
  (stored_ok (WorkoutEntry2.server s) -> stored_ok (WorkoutEntry2.server s')) /\
  ((WorkoutEntry2.selectedExercise s = EmptyString \/
    WorkoutEntry2.weight s = EmptyString \/
    WorkoutEntry2.reps s = EmptyString) ->
   run.2 = World s (trace w ++ [Notify missing_information])) /\
  ((WorkoutEntry2.selectedExercise s <> EmptyString /\
    WorkoutEntry2.weight s <> EmptyString /\
    WorkoutEntry2.reps s <> EmptyString) ->
   WorkoutEntry2.loading s' = false /\
   ((WorkoutEntry2.server s' = WorkoutEntry2.server s /\
     WorkoutEntry2.selectedExercise s' = WorkoutEntry2.selectedExercise s /\
     WorkoutEntry2.weight s' = WorkoutEntry2.weight s /\
     WorkoutEntry2.reps s' = WorkoutEntry2.reps s /\
     trace run.2 = trace w ++ [Notify log_error]) \/
    (exists wv rv x,
       parseFloat (WorkoutEntry2.weight s) = Some wv /\
       parseInt (WorkoutEntry2.reps s) = Some rv /\
       x ∈ exercises_table (WorkoutEntry2.server s) /\
       id x = WorkoutEntry2.selectedExercise s /\
       workout_entries_table (WorkoutEntry2.server s')
       = workout_entries_table (WorkoutEntry2.server s) ++
         [Entry (WorkoutEntry2.selectedExercise s) wv rv (wv * rv) today
            (Some x)] /\
       WorkoutEntry2.selectedExercise s' = EmptyString /\
       WorkoutEntry2.weight s' = EmptyString /\
       WorkoutEntry2.reps s' = EmptyString /\
       trace run.2 = trace w ++ [Notify log_success]))).
Proof.
  intros s run s'. subst run s'.
  cbv [WorkoutEntry2.handleSubmit mbind mret handler_bind handler_ret bind ret
       get modify emit toast].
  fold s.
  destruct (truthy (WorkoutEntry2.selectedExercise s)) eqn:Hex; simpl.
  2: { apply truthy_false in Hex.
       split_and!; try done. intros (? & _). done. }
  destruct (truthy (WorkoutEntry2.weight s)) eqn:Hw; simpl.
  2: { apply truthy_false in Hw.
       split_and!; try done. intros (_ & ? & _). done. }
  destruct (truthy (WorkoutEntry2.reps s)) eqn:Hr; simpl.
  2: { apply truthy_false in Hr.
       split_and!; try done. intros (_ & _ & ?). done. }
  apply truthy_spec in Hex, Hw, Hr.
  destruct (insert_request _ _ _ _ _ _ _ _) as [db'|] eqn:Hins; simpl.
  - unfold insert_request in Hins. destruct online; [|done].
    destruct (parseFloat (WorkoutEntry2.weight s)) as [wv|] eqn:Hwv; [|done].
    destruct (parseInt (WorkoutEntry2.reps s)) as [rv|] eqn:Hrv; [|done].
    pose proof Hins as Hins'.
    apply insert_workout_entry_accepts in Hins
      as (x & Hx & Hid & _ & _ & ->). simpl in *.
    split_and!; try done.
    + intros Hok. by eapply insert_keeps_generated_effort.
    + intros [?|[?|?]]; done.
    + intros _. split; [done|]. right.
      exists wv, rv, x. split_and!; done.
  - split_and!; try done.
    + intros [?|[?|?]]; done.
    + intros _. split; [done|]. by left.
Qed.

End EntryForm.

(** ** Stored precision and binary64 sums *)

Section Precision.

Import Analytics.

(** C6, as amended: the effort of a stored entry is [weight_kg * reps] at
    all times, generated by the store: an insert carries no effort, the row
    it stores holds the product, and the rows already stored keep theirs.
    The effort a bucket charts is summed in binary64: each stored product
    is read as the number nearest to it, and the numbers are added from 0
    in row order. *)
Theorem stored_effort_summed_in_binary64
    (db db' : database) (n : new_entry) (q : query)
    (viewMode : ViewMode) (tz : Z) (iv : interval) :
  stored_ok db ->
  insert_workout_entry db n = Some db' ->
  stored_ok db' /\
  (exists x,
     workout_entries_table db'
     = workout_entries_table db ++
       [Entry (ne_exercise_id n) (ne_weight_kg n) (ne_reps n)
          (ne_weight_kg n * ne_reps n) (ne_workout_date n) (Some x)]) /\
  single_record viewMode tz (Some (select_entries db' q)) iv !! "effort"
  = Some (JNum
            (or_zero
               (Some (fold_left
                        (fun sum e =>
                           (sum + parse_decimal (weight_kg e * reps e))%float)
                        (List.filter (matches_interval viewMode tz iv)
                           (select_entries db' q))
                        0%float)))).
Proof.
  intros Hok Hins.
  pose proof (insert_keeps_generated_effort _ _ _ Hok Hins) as Hok'.
  split; [exact Hok'|]. split.
  - apply insert_workout_entry_accepts in Hins as (x & _ & _ & _ & _ & ->).
    by exists x.
  - rewrite single_record_effort.
    rewrite (filter_ext_bool
               (fun e => bool_decide (entry_key viewMode tz e = dateValue iv))
               (matches_interval viewMode tz iv))
      by (intros e; by rewrite matches_interval_key).
    rewrite reduce_effort_stored; [done|].
    apply Forall_forall. intros e He.
    apply list_elem_of_In, filter_In in He as [He _].
    apply list_elem_of_In in He.
    by apply (proj1 (Forall_forall _ _) (select_entries_stored db' q Hok')).
Qed.

Lemma stored_effort_summed_in_binary64_witness :
  let n := NewEntry "e1" 7000 8 (Civil 2024 3 9) in
  let iv := Interval "Mar 09" (DayKey (Civil 2024 3 9)) in
  let q := single_query "e1" (getDateRange week Scenario.now).1 Scenario.now in
  stored_ok Scenario.db /\
  exists db',
    insert_workout_entry Scenario.db n = Some db' /\
    stored_ok db' /\
    single_record week 0 (Some (select_entries db' q)) iv !! "effort"
    = Some (JNum 1060).
Proof.
  intros n iv q.
  assert (Hok : stored_ok Scenario.db)
    by (unfold stored_ok; simpl; repeat constructor).
  split; [exact Hok|].
  destruct (insert_workout_entry Scenario.db n) as [db'|] eqn:Hins;
    [|by vm_compute in Hins].
  exists db'. split; [reflexivity|].
  destruct (stored_effort_summed_in_binary64 Scenario.db db' n q week 0 iv
              Hok Hins) as (Hok' & _ & Hsum).
  split; [exact Hok'|].
  vm_compute in Hins. injection Hins as <-.
  etrans; [exact Hsum|reflexivity].
Defined.

(** C6 fails: the sum of a bucket is a binary64 sum.  Three stored entries
    of one day account for 0.20, 0.70 and 0.10; their exact total is 1.00.
    The record of that day holds a number strictly between 0.99 and 1.00,
    which is no number of hundredths; with the same rows in another order
    it holds 1. *)
Lemma bucket_sum_falls_between_hundredths :
  let day := Interval "Mar 08" (DayKey (Civil 2024 3 8)) in
  let row (w : Z) := Entry "e1" w 1 w (Civil 2024 3 8) (Some Scenario.squat) in
  let rows := [row 20; row 70; row 10] in
  let reordered := [row 70; row 10; row 20] in
  Forall (fun e => effort e = generated_effort (weight_kg e) (reps e)) rows /\
  total effort rows = 100 /\
  (exists x,
     single_record week 0 (Some rows) day !! "effort" = Some (JNum x) /\
     (parse_decimal 99 <? x)%float = true /\
     (x <? parse_decimal 100)%float = true) /\
  single_record week 0 (Some reordered) day !! "effort"
  = Some (JNum (parse_decimal 100)).
Proof.
  split_and!; [by repeat constructor|reflexivity| |reflexivity].
  eexists. split_and!; reflexivity.
Qed.

End Precision.

(** ** From the form to the chart *)

Section LoggedAndCharted.

Import Analytics Keys.

Lemma entry_key_date_key viewMode tz e :
  entry_key viewMode tz e = date_key viewMode tz (workout_date e).
Proof. by destruct viewMode. Qed.

Lemma filter_bool_Permutation {A} (p : A -> bool) (l k : list A) :
  l ≡ₚ k -> List.filter p l ≡ₚ List.filter p k.
Proof.
  induction 1 as [|x l k Hlk IH|x y l|l k m Hlk IH Hkm IH']; simpl.
  - done.
  - destruct (p x); [by constructor|done].
  - destruct (p x), (p y); try done. apply perm_swap.
  - by etrans.
Qed.

Lemma filter_bool_app {A} (p : A -> bool) (l k : list A) :
  List.filter p (l ++ k) = List.filter p l ++ List.filter p k.
Proof. induction l as [|x l IH]; simpl; [done|]. rewrite IH. by destruct (p x). Qed.

Lemma select_entries_Permutation db q :
  select_entries db q
  ≡ₚ List.filter (fun e => forallb (fun f => entry_satisfies f e) (q_filters q))
       (workout_entries_table db).
Proof.
  unfold select_entries. destruct (q_order q) as [c|]; simpl; [|done].
  destruct (bool_decide _); [apply merge_sort_Permutation|done].
Qed.

(** X13: logging an entry and then analysing: in single-exercise mode every
    bucket keeps its label, and the rows summed into it are the rows summed
    before, together with the new entry exactly when the entry is of the
    analysed exercise, is dated within the queried range, and has the
    bucket's key.  The effort charted is the binary64 sum of those rows. *)
Theorem logged_entry_is_charted
    (db db' : database) (n : new_entry) (sel : string) (start end_ : jsdate)
    (viewMode : ViewMode) (tz : Z) (iv : interval) :
  insert_workout_entry db n = Some db' ->
  let q := single_query sel start end_ in
  let matched (d : database) :=
    List.filter
      (fun e => bool_decide (entry_key viewMode tz e = dateValue iv))
      (select_entries d q) in
  let before := single_record viewMode tz (Some (select_entries db q)) iv in
  let after := single_record viewMode tz (Some (select_entries db' q)) iv in
  let counted :=
    bool_decide (ne_exercise_id n = sel) &&
    civil_leb (date_of start) (ne_workout_date n) &&
    civil_leb (ne_workout_date n) (date_of end_) &&
    bool_decide (date_key viewMode tz (ne_workout_date n) = dateValue iv) in
  after !! "date" = before !! "date" /\
  before !! "effort"
  = Some (JNum (or_zero (Some (reduce_effort (matched db))))) /\
  after !! "effort"
  = Some (JNum (or_zero (Some (reduce_effort (matched db'))))) /\
  exists x,
    x ∈ exercises_table db /\ id x = ne_exercise_id n /\
    matched db'
    ≡ₚ matched db ++
       (if counted
        then [Entry (ne_exercise_id n) (ne_weight_kg n) (ne_reps n)
                (ne_weight_kg n * ne_reps n) (ne_workout_date n) (Some x)]
        else []).
Proof.
  intros Hins q matched before after counted.
  apply insert_workout_entry_accepts in Hins as (x & Hx & Hid & _ & _ & ->).
  subst before after.
  split; [by rewrite !single_record_date|].
  split; [apply single_record_effort|]. split; [apply single_record_effort|].
  exists x. split; [done|]. split; [done|].
  set (row := Entry _ _ _ _ _ _).
  set (m := fun e => bool_decide (entry_key viewMode tz e = dateValue iv)).
  assert (Hperm : select_entries
                    (Database (exercises_table db)
                       (workout_entries_table db ++ [row])) q
                  ≡ₚ select_entries db q ++
                     List.filter
                       (fun e => forallb (fun f => entry_satisfies f e)
                                   (q_filters q)) [row]).
  { rewrite !select_entries_Permutation. simpl workout_entries_table.
    by rewrite filter_bool_app. }
  unfold matched. fold m.
  rewrite (filter_bool_Permutation m _ _ Hperm), filter_bool_app.
  apply Permutation_app_head.
  subst counted m q row. simpl.
  rewrite entry_text_exercise_id, andb_true_r.
  rewrite (bool_decide_ext (Some (ne_exercise_id n) = Some sel)
             (ne_exercise_id n = sel)) by (split; congruence).
  destruct (bool_decide (ne_exercise_id n = sel)); simpl; [|done].
  destruct (civil_leb (date_of start) (ne_workout_date n)); simpl; [|done].
  destruct (civil_leb (ne_workout_date n) (date_of end_)); simpl; [|done].
  rewrite entry_key_date_key. simpl.
  by destruct (bool_decide _).
Qed.

Lemma logged_entry_is_charted_witness :
  let n := NewEntry "e1" 7000 8 (Civil 2024 3 9) in
  let iv := Interval "Mar 09" (DayKey (Civil 2024 3 9)) in
  let start := (getDateRange week Scenario.now).1 in
  let q := single_query "e1" start Scenario.now in
  exists db',
    insert_workout_entry Scenario.db n = Some db' /\
    single_record week 0 (Some (select_entries Scenario.db q)) iv !! "effort"
    = Some (JNum 500) /\
    single_record week 0 (Some (select_entries db' q)) iv !! "effort"
    = Some (JNum 1060) /\
    single_record week 0 (Some (select_entries db' q)) iv !! "date"
    = Some (JStr "Mar 09").
Proof.
  intros n iv start q.
  destruct (insert_workout_entry Scenario.db n) as [db'|] eqn:Hins;
    [|by vm_compute in Hins].
  exists db'. split; [reflexivity|].
  destruct (logged_entry_is_charted Scenario.db db' n "e1" start Scenario.now
              week 0 iv Hins) as (Hdate & _ & _ & _).
  vm_compute in Hins. injection Hins as <-.
  split_and!; [reflexivity|reflexivity|].
  etrans; [exact Hdate|reflexivity].
Defined.

End LoggedAndCharted.

(** ** The store's constraints *)

Section CatalogFacts.

Import Catalog.

Lemma NoDup_map_filter {A B} (f : A -> B) (P : A -> Prop)
    `{forall x, Decision (P x)} (l : list A) :
  NoDup (map f l) -> NoDup (map f (base.filter P l)).
Proof.
  induction l as [|x l IH]; simpl; [done|].
  intros [Hx Hl]%NoDup_cons. rewrite filter_cons.
  destruct (decide (P x)); simpl; [|by apply IH].
  apply NoDup_cons. split; [|by apply IH].
  intros (y & Hy & Hin)%list_elem_of_fmap. apply Hx.
  apply list_elem_of_fmap. exists y. split; [done|].
  by apply list_elem_of_filter in Hin as [_ ?].
Qed.

Lemma NoDup_snoc {A} (l : list A) (x : A) :
  NoDup l -> x ∉ l -> NoDup (l ++ [x]).
Proof.
  intros Hl Hx. apply NoDup_app. split_and!; [done| |apply NoDup_singleton].
  intros y Hy ->%list_elem_of_singleton. done.
Qed.

Lemma consistent_insert_group c new_id name c' :
  consistent c -> insert_group c new_id name = Some c' -> consistent c'.
Proof.
  intros (Hgi & Hgn & Hei & Hen & Hfk & Hent & Hok). unfold insert_group.
  destruct (_ || _) eqn:Hdup; [done|]. intros [= <-].
  apply orb_false_iff in Hdup as [Hn%bool_decide_eq_false Hi%bool_decide_eq_false].
  unfold consistent, group_ids in *. simpl. rewrite !map_app. simpl.
  split_and!; try done; try by apply NoDup_snoc.
  intros x Hx. apply elem_of_app. left. by apply Hfk.
Qed.

Lemma consistent_insert_exercise c new_id name group c' :
  consistent c -> insert_exercise c new_id name group = Some c' ->
  consistent c'.
Proof.
  intros (Hgi & Hgn & Hei & Hen & Hfk & Hent & Hok). unfold insert_exercise.
  destruct (_ || _) eqn:Hdup; [done|]. intros [= <-].
  apply orb_false_iff in Hdup as [Hdup Hg].
  apply orb_false_iff in Hdup as [Hn%bool_decide_eq_false Hi%bool_decide_eq_false].
  apply negb_false_iff, bool_decide_eq_true in Hg.
  unfold consistent, exercise_ids, group_ids in *. simpl. rewrite !map_app.
  simpl. split_and!; try done; try by apply NoDup_snoc.
  - intros x [Hx|Hx]%elem_of_app; [by apply Hfk|].
    by apply list_elem_of_singleton in Hx as ->.
  - intros e He. destruct (Hent e He) as (x & Hx & Hex & Hid).
    exists x. split; [|done]. apply elem_of_app. by left.
Qed.

Lemma consistent_delete_exercise c exerciseId :
  consistent c -> consistent (delete_exercise c exerciseId).
Proof.
  intros (Hgi & Hgn & Hei & Hen & Hfk & Hent & Hok).
  unfold consistent, delete_exercise, exercise_ids, group_ids, stored_ok in *.
  simpl. split_and!; try done; try by apply NoDup_map_filter.
  - intros x [_ Hx]%list_elem_of_filter. by apply Hfk.
  - intros e [Hne He]%list_elem_of_filter.
    destruct (Hent e He) as (x & Hx & Hex & Hid).
    exists x. split; [|done]. apply list_elem_of_filter. split; [|done].
    by rewrite Hid.
  - apply Forall_forall. intros e [_ He]%list_elem_of_filter.
    by apply (proj1 (Forall_forall _ _) Hok).
Qed.

Lemma consistent_delete_group c groupId :
  consistent c -> consistent (delete_group c groupId).
Proof.
  intros (Hgi & Hgn & Hei & Hen & Hfk & Hent & Hok).
  unfold consistent, delete_group, exercise_ids, group_ids, stored_ok in *.
  simpl. split_and!; try done; try by apply NoDup_map_filter.
  - intros x [Hne Hx]%list_elem_of_filter.
    apply Hfk in Hx as (g & Hg & Hin)%list_elem_of_fmap.
    apply list_elem_of_fmap. exists g. split; [done|].
    apply list_elem_of_filter. split; [|done]. by rewrite <- Hg.
  - intros e [Hne He]%list_elem_of_filter.
    destruct (Hent e He) as (x & Hx & Hex & Hid).
    exists x. split; [|done]. apply list_elem_of_filter. split; [|done].
    intros Hg. apply Hne. apply list_elem_of_fmap. exists x.
    split; [done|]. by apply list_elem_of_filter.
  - apply Forall_forall. intros e [_ He]%list_elem_of_filter.
    by apply (proj1 (Forall_forall _ _) Hok).
Qed.

Lemma consistent_log_entry c n c' :
  consistent c -> log_entry c n = Some c' -> consistent c'.
Proof.
  intros (Hgi & Hgn & Hei & Hen & Hfk & Hent & Hok). unfold log_entry.
  destruct (insert_workout_entry (tables c) n) as [db'|] eqn:Hins; [|done].
  intros [= <-].
  pose proof (insert_keeps_generated_effort _ _ _ Hok Hins) as Hok'.
  apply insert_workout_entry_accepts in Hins as (x & Hx & Hid & _ & _ & ->).
  unfold consistent, exercise_ids, group_ids in *. simpl in *.
  split_and!; try done.
  intros e [He|He]%elem_of_app; [by apply Hent|].
  apply list_elem_of_singleton in He as ->. by exists x.
Qed.

(** X14: whatever write a screen issues, accepted or refused, the store keeps
    its constraints: keys and names stay unique, every exercise belongs to
    a stored group, every entry to a stored exercise, and every effort is
    [weight_kg * reps]. *)
Theorem writes_keep_store_consistent (c : catalog) (wr : write) :
  consistent c -> consistent (apply_write c wr).
Proof.
  intros Hc. destruct wr as [i n|i n g|i|g|n]; simpl.
  - destruct (insert_group c i n) eqn:H; simpl;
      [by eapply consistent_insert_group|done].
  - destruct (insert_exercise c i n g) eqn:H; simpl;
      [by eapply consistent_insert_exercise|done].
  - by apply consistent_delete_exercise.
  - by apply consistent_delete_group.
  - destruct (log_entry c n) eqn:H; simpl;
      [by eapply consistent_log_entry|done].
Qed.

Lemma NoDup_map_inj_on {A B} (f : A -> B) (l : list A) (x y : A) :
  NoDup (map f l) -> x ∈ l -> y ∈ l -> f x = f y -> x = y.
Proof.
  induction l as [|a l IH]; simpl; intros Hnd Hx Hy Hf.
  - by apply elem_of_nil in Hx.
  - apply NoDup_cons in Hnd as [Ha Hnd].
    apply elem_of_cons in Hx as [->|Hx]; apply elem_of_cons in Hy as [->|Hy].
    + done.
    + exfalso. apply Ha. rewrite Hf. apply list_elem_of_fmap. by exists y.
    + exfalso. apply Ha. rewrite <- Hf. apply list_elem_of_fmap. by exists x.
    + by apply IH.
Qed.

(** X15: what the cascade of a group delete takes.  In a store that keeps its
    constraints, the entries left after the delete of a group are exactly
    the stored entries of exercises of the other groups; the exercises
    left are those of the other groups. *)
Theorem group_delete_removes_its_entries
    (c : catalog) (groupId : string) :
  consistent c ->
  (forall e,
     e ∈ workout_entries_table (tables (delete_group c groupId)) <->
     e ∈ workout_entries_table (tables c) /\
     exists x, x ∈ exercises_table (tables c) /\ id x = exercise_id e /\
               group_id x <> groupId) /\
  (forall x,
     x ∈ exercises_table (tables (delete_group c groupId)) <->
     x ∈ exercises_table (tables c) /\ group_id x <> groupId).
Proof.
  intros (_ & _ & Hei & _ & _ & Hent & _). unfold delete_group. simpl. split.
  - intros e. rewrite list_elem_of_filter. split.
    + intros [Hne He]. split; [done|].
      destruct (Hent e He) as (x & Hx & _ & Hid).
      exists x. split_and!; try done.
      intros Hg. apply Hne. apply list_elem_of_fmap. exists x.
      split; [done|]. by apply list_elem_of_filter.
    + intros [He (x & Hx & Hid & Hg)]. split; [|done].
      intros (y & Hy & [Hyg Hyin]%list_elem_of_filter)%list_elem_of_fmap.
      apply Hg. rewrite <- Hyg. f_equal.
      apply (NoDup_map_inj_on id (exercises_table (tables c))); try done.
      congruence.
  - intros x. rewrite list_elem_of_filter. tauto.
Qed.

Lemma gym_consistent : consistent ManagementScenario.gym.
Proof.
  unfold consistent. split_and!.
  - compute_done.
  - compute_done.
  - compute_done.
  - compute_done.
  - apply Forall_forall. repeat constructor;
      compute_done.
  - apply Forall_forall. repeat constructor; simpl.
    + exists Scenario.squat. split_and!; try done. in_list.
    + exists Scenario.leg_press. split_and!; try done. in_list.
    + exists Scenario.squat. split_and!; try done. in_list.
    + exists Scenario.squat. split_and!; try done. in_list.
    + exists Scenario.curl. split_and!; try done. in_list.
  - unfold stored_ok. repeat constructor.
Qed.

Lemma writes_keep_store_consistent_witness :
  consistent ManagementScenario.gym /\
  consistent (apply_write ManagementScenario.gym (DeleteGroup "g1")).
Proof.
  split; [exact gym_consistent|].
  apply (writes_keep_store_consistent ManagementScenario.gym (DeleteGroup "g1")).
  exact gym_consistent.
Defined.

Lemma group_delete_removes_its_entries_witness :
  consistent ManagementScenario.gym /\
  workout_entries_table (tables (delete_group ManagementScenario.gym "g1"))
  = [Entry "e3" 2000 10 20000 (Civil 2024 3 8) (Some Scenario.curl)] /\
  (forall x,
     x ∈ exercises_table (tables (delete_group ManagementScenario.gym "g1")) <->
     x ∈ exercises_table (tables ManagementScenario.gym) /\ group_id x <> "g1").
Proof.
  split; [exact gym_consistent|]. split; [reflexivity|].
  exact (proj2 (group_delete_removes_its_entries ManagementScenario.gym "g1"
                  gym_consistent)).
Defined.

End CatalogFacts.

(** ** The management screens *)

Section ManagementFacts.

Import Catalog Management.

Variable collate : string -> string -> bool.
Variable trim : string -> string.

Lemma filter_bool_nil_none {A} (P : A -> bool) (l : list A) :
  List.filter P l = [] -> forall x, x ∈ l -> P x = false.
Proof.
  induction l as [|a l IH]; simpl; intros Hnil x Hx.
  - by apply elem_of_nil in Hx.
  - destruct (P a) eqn:Ha; [done|].
    apply elem_of_cons in Hx as [->|Hx]; [done|by apply IH].
Qed.

Lemma filter_all {A} (P : A -> Prop) `{forall x, Decision (P x)} (l : list A) :
  (forall x, x ∈ l -> P x) -> base.filter P l = l.
Proof.
  induction l as [|a l IH]; intros Hall; [done|].
  rewrite filter_cons. destruct (decide (P a)) as [|Hn].
  - f_equal. apply IH. intros x Hx. apply Hall. by apply elem_of_cons; right.
  - exfalso. apply Hn, Hall. by apply elem_of_cons; left.
Qed.

(** With the list of exercises on the screen showing the stored ones, a
    group delete that passes the guard removes no exercise and no entry. *)
Lemma guard_passed_tables (s : state) (groupId : string) :
  exercises s ≡ₚ exercises_table (tables (server s)) ->
  List.filter (fun ex => bool_decide (group_id ex = groupId)) (exercises s) = [] ->
  tables (delete_group (server s) groupId) = tables (server s).
Proof.
  intros Hsync Hnone.
  assert (Hno : forall x, x ∈ exercises_table (tables (server s)) ->
                          group_id x <> groupId).
  { intros x Hx. rewrite <- Hsync in Hx.
    pose proof (filter_bool_nil_none _ _ Hnone x Hx) as Hf.
    by apply bool_decide_eq_false in Hf. }
  unfold delete_group. simpl.
  destruct (tables (server s)) as [exs ents] eqn:Htab. simpl in *. f_equal.
  - by apply filter_all.
  - apply filter_all. intros e _ (x & _ & [Hg Hx]%list_elem_of_filter)%list_elem_of_fmap.
    by apply (Hno x).
Qed.

Ltac run_handler :=
  cbv [handleAddExercise handleAddGroup handleDeleteExercise handleDeleteGroup
       handleAddExercise2 handleAddGroup2 handleDeleteExercise2
       handleDeleteGroup2 fetchExercises fetchExerciseGroups request
       mbind mret handler_bind handler_ret bind ret get modify emit toast].

Lemma guarded_tables_unchanged
    (s : state) (tr : list effect) (groupId groupName : string)
    (confirmed online refetch : bool) :
  exercises s ≡ₚ exercises_table (tables (server s)) ->
  tables (server (ui (handleDeleteGroup collate groupId groupName confirmed
                        online refetch (World s tr)).2))
  = tables (server s).
Proof.
  intros Hsync. run_handler. simpl.
  destruct (List.filter _ _) as [|y l] eqn:Hnone; simpl; [|done].
  destruct confirmed; simpl; [|done].
  destruct online; simpl; [|done].
  pose proof (guard_passed_tables s groupId Hsync Hnone) as Htab.
  destruct refetch; simpl; exact Htab.
Qed.

Lemma handlers_keep_in_sync
    (s : state) (tr : list effect)
    (new_id exerciseId exerciseName groupId groupName : string)
    (confirmed online : bool) :
  in_sync s ->
  in_sync (ui (handleAddExercise collate trim new_id online true
                 (World s tr)).2) /\
  in_sync (ui (handleAddGroup collate trim new_id online true
                 (World s tr)).2) /\
  in_sync (ui (handleDeleteExercise collate exerciseId exerciseName
                 confirmed online true (World s tr)).2) /\
  in_sync (ui (handleDeleteGroup collate groupId groupName
                 confirmed online true (World s tr)).2).
Proof.
  intros [Hex Hgr]. split_and!; run_handler; simpl.
  - destruct (_ || _); simpl; [done|].
    destruct online; simpl; [|done].
    destruct (insert_exercise _ _ _ _) as [c'|] eqn:Hins; simpl; [|done].
    unfold insert_exercise in Hins. destruct (_ || _); [done|].
    injection Hins as <-. split; simpl; [apply merge_sort_Permutation|done].
  - destruct (negb _); simpl; [done|].
    destruct online; simpl; [|done].
    destruct (insert_group _ _ _) as [c'|] eqn:Hins; simpl; [|done].
    unfold insert_group in Hins. destruct (_ || _); [done|].
    injection Hins as <-. split; simpl; [done|apply merge_sort_Permutation].
  - destruct confirmed; simpl; [|done].
    destruct online; simpl; [|done].
    split; simpl; [apply merge_sort_Permutation|done].
  - destruct (List.filter _ _) as [|x l] eqn:Hnone; simpl; [|done].
    destruct confirmed; simpl; [|done].
    destruct online; simpl; [|done].
    split; simpl; [|apply merge_sort_Permutation].
    pose proof (guard_passed_tables s groupId Hex Hnone) as Htab.
    unfold delete_group in Htab. simpl in Htab.
    rewrite Hex. by rewrite <- Htab at 1.
Qed.

Lemma handle_in_sync (ev : event) (w : world state) :
  answered ev -> in_sync (ui w) ->
  in_sync (ui (handle collate trim ev w).2).
Proof.
  intros Hans Hsync. destruct w as [s tr]. simpl in Hsync.
  destruct ev as [v|v|v|i o r|i o r|i n c o r|g n c o r]; simpl in Hans;
    try subst r; try exact Hsync.
  - unfold handle. cbv [mbind handler_bind bind get]. simpl.
    destruct (loading s); [exact Hsync|].
    apply (handlers_keep_in_sync s tr i i i i i true o Hsync).
  - unfold handle. cbv [mbind handler_bind bind get]. simpl.
    destruct (loading s); [exact Hsync|].
    apply (handlers_keep_in_sync s tr i i i i i true o Hsync).
  - apply (handlers_keep_in_sync s tr i i n i i c o Hsync).
  - apply (handlers_keep_in_sync s tr g g g g n c o Hsync).
Qed.

Lemma handle_keeps_rows (ev : event) (w : world state) :
  in_sync (ui w) ->
  let old := tables (server (ui w)) in
  let new := tables (server (ui (handle collate trim ev w).2)) in
  (forall e, e ∈ workout_entries_table old ->
     (forall name refetch,
        ev <> DeleteExerciseClicked (exercise_id e) name true true refetch) ->
     e ∈ workout_entries_table new) /\
  (forall x, x ∈ exercises_table old ->
     (forall name refetch,
        ev <> DeleteExerciseClicked (id x) name true true refetch) ->
     x ∈ exercises_table new).
Proof.
  intros [Hex Hgr] old new. subst old new. destruct w as [s tr]. simpl in *.
  destruct ev as [v|v|v|i o r|i o r|i n c o r|g n c o r]; simpl;
    try (split; intros; assumption).
  - cbv [mbind handler_bind bind get]. simpl.
    destruct (loading s); simpl; [split; intros; assumption|].
    run_handler. simpl.
    destruct (_ || _); simpl; [split; intros; assumption|].
    destruct o; simpl; [|split; intros; assumption].
    destruct (insert_exercise _ _ _ _) as [c'|] eqn:Hins; simpl;
      [|split; intros; assumption].
    unfold insert_exercise in Hins. destruct (_ || _); [done|].
    injection Hins as <-. destruct r; simpl.
    + split; intros; [assumption|]. apply elem_of_app. by left.
    + split; intros; [assumption|]. apply elem_of_app. by left.
  - cbv [mbind handler_bind bind get]. simpl.
    destruct (loading s); simpl; [split; intros; assumption|].
    run_handler. simpl.
    destruct (negb _); simpl; [split; intros; assumption|].
    destruct o; simpl; [|split; intros; assumption].
    destruct (insert_group _ _ _) as [c'|] eqn:Hins; simpl;
      [|split; intros; assumption].
    unfold insert_group in Hins. destruct (_ || _); [done|].
    injection Hins as <-. destruct r; simpl; split; intros; assumption.
  - run_handler. simpl.
    destruct c; simpl; [|split; intros; assumption].
    destruct o; simpl; [|split; intros; assumption].
    assert (Hgoal :
      (forall e, e ∈ workout_entries_table (tables (server s)) ->
         (forall name refetch,
            DeleteExerciseClicked i n true true r
            <> DeleteExerciseClicked (exercise_id e) name true true refetch) ->
         e ∈ workout_entries_table (tables (delete_exercise (server s) i))) /\
      (forall x, x ∈ exercises_table (tables (server s)) ->
         (forall name refetch,
            DeleteExerciseClicked i n true true r
            <> DeleteExerciseClicked (id x) name true true refetch) ->
         x ∈ exercises_table (tables (delete_exercise (server s) i)))).
    { unfold delete_exercise. simpl. split.
      - intros e He Hne. apply list_elem_of_filter. split; [|done].
        intros Heq. apply (Hne n r). by rewrite Heq.
      - intros x Hx Hne. apply list_elem_of_filter. split; [|done].
        intros Heq. apply (Hne n r). by rewrite Heq. }
    destruct r; simpl; exact Hgoal.
  - pose proof (guarded_tables_unchanged s tr g n c o r Hex) as Htab.
    simpl in Htab. rewrite Htab. split; intros; assumption.
Qed.

(** X16: on the screen that confirms deletes, the two lists keep showing what
    the store holds across every sequence of events whose refetches are
    answered: typing, picking a group, adding an exercise or a group,
    deleting an exercise, and deleting a group, which refetches the groups
    only and relies on its guard for the exercises. *)
Theorem confirming_screen_stays_in_sync
    (evs : list event) (w : world state) :
  Forall answered evs -> in_sync (ui w) ->
  in_sync (ui (run collate trim evs w)).
Proof.
  revert w. induction evs as [|ev evs IH]; intros w Hans Hsync; [done|].
  apply Forall_cons in Hans as [Hev Hans]. simpl.
  apply IH; [done|]. by apply handle_in_sync.
Qed.

(** X17: on the screen that confirms deletes, with lists that show the store and
    refetches answered, a stored entry or exercise is only ever lost to a
    confirmed delete of that very exercise: through any sequence of events
    without one, it is still stored at the end.  Group deletes, refused
    adds and unanswered writes take nothing. *)
Theorem rows_outlive_all_but_their_exercise_delete
    (evs : list event) (w : world state) :
  Forall answered evs -> in_sync (ui w) ->
  let old := tables (server (ui w)) in
  let new := tables (server (ui (run collate trim evs w))) in
  (forall e, e ∈ workout_entries_table old ->
     (forall name refetch,
        DeleteExerciseClicked (exercise_id e) name true true refetch ∉ evs) ->
     e ∈ workout_entries_table new) /\
  (forall x, x ∈ exercises_table old ->
     (forall name refetch,
        DeleteExerciseClicked (id x) name true true refetch ∉ evs) ->
     x ∈ exercises_table new).
Proof.
  revert w. induction evs as [|ev evs IH]; intros w Hans Hsync old new;
    subst old new; [done|].
  apply Forall_cons in Hans as [Hev Hans]. simpl.
  pose proof (handle_in_sync ev w Hev Hsync) as Hsync'.
  destruct (handle_keeps_rows ev w Hsync) as [Hent Hexs].
  destruct (IH _ Hans Hsync') as [IHent IHexs].
  split.
  - intros e He Hno. apply IHent.
    + apply Hent; [done|]. intros name refetch ->.
      apply (Hno name refetch). by apply elem_of_cons; left.
    + intros name refetch Hin. apply (Hno name refetch).
      by apply elem_of_cons; right.
  - intros x Hx Hno. apply IHexs.
    + apply Hexs; [done|]. intros name refetch ->.
      apply (Hno name refetch). by apply elem_of_cons; left.
    + intros name refetch Hin. apply (Hno name refetch).
      by apply elem_of_cons; right.
Qed.

(** X18: on the screen that deletes at once, the two lists keep showing what
    the store holds across each of its four handlers when the refetch is
    answered; its group delete cascades in the store and refetches both
    lists. *)
Theorem deleting_screen_stays_in_sync
    (s : state) (tr : list effect)
    (new_id exerciseId groupId : string) (online : bool) :
  in_sync s ->
  in_sync (ui (handleAddExercise2 collate new_id online true (World s tr)).2) /\
  in_sync (ui (handleAddGroup2 collate new_id online true (World s tr)).2) /\
  in_sync (ui (handleDeleteExercise2 collate exerciseId online true
                 (World s tr)).2) /\
  in_sync (ui (handleDeleteGroup2 collate groupId online true
                 (World s tr)).2).
Proof.
  intros [Hex Hgr]. split_and!; run_handler; simpl.
  - destruct (_ || _); simpl; [done|].
    destruct online; simpl; [|done].
    destruct (insert_exercise _ _ _ _) as [c'|] eqn:Hins; simpl; [|done].
    unfold insert_exercise in Hins. destruct (_ || _); [done|].
    injection Hins as <-. split; simpl; [apply merge_sort_Permutation|done].
  - destruct (negb _); simpl; [done|].
    destruct online; simpl; [|done].
    destruct (insert_group _ _ _) as [c'|] eqn:Hins; simpl; [|done].
    unfold insert_group in Hins. destruct (_ || _); [done|].
    injection Hins as <-. split; simpl; [done|apply merge_sort_Permutation].
  - destruct online; simpl; [|done].
    split; simpl; [apply merge_sort_Permutation|done].
  - destruct online; simpl; [|done].
    split; simpl; apply merge_sort_Permutation.
Qed.

(** X19: what the guard of the group delete gives.  With the listed exercises
    showing the stored ones, the handler never removes an exercise or an
    entry, whatever group is clicked and whatever the answers; and a group
    with a listed exercise is not deleted at all: the state stays as it was
    and the one effect is the Cannot Delete toast, before any confirm. *)
Theorem guarded_group_delete_spares_exercises
    (s : state) (tr : list effect) (groupId groupName : string)
    (confirmed online refetch : bool) :
  exercises s ≡ₚ exercises_table (tables (server s)) ->
  let run := handleDeleteGroup collate groupId groupName confirmed online
               refetch (World s tr) in
  tables (server (ui run.2)) = tables (server s) /\
  ((exists x, x ∈ exercises s /\ group_id x = groupId) ->
   run.2 = World s
             (tr ++ [Notify (destructive "Cannot Delete"
                               ("Please delete all exercises in "
                                +:+ quoted groupName +:+ " first"))])).
Proof.
  intros Hsync run. subst run. run_handler. simpl.
  destruct (List.filter _ _) as [|y l] eqn:Hnone; simpl.
  - split.
    + destruct confirmed; simpl; [|done].
      destruct online; simpl; [|done].
      pose proof (guard_passed_tables s groupId Hsync Hnone) as Htab.
      destruct refetch; simpl; exact Htab.
    + intros (x & Hx & Hg).
      pose proof (filter_bool_nil_none _ _ Hnone x Hx) as Hf. simpl in Hf.
      apply bool_decide_eq_false in Hf. done.
  - done.
Qed.

(** X20: the guard reads the list on the screen, not the store.  When the list
    shows no exercise of the group (it was never loaded, or is out of
    date), a confirmed delete that reaches the store removes every stored
    exercise of the group together with its entries. *)
Theorem stale_list_lets_group_delete_cascade
    (s : state) (tr : list effect) (groupId groupName : string)
    (refetch : bool) (x : exercise) :
  (forall y, y ∈ exercises s -> group_id y <> groupId) ->
  x ∈ exercises_table (tables (server s)) ->
  group_id x = groupId ->
  let s' := ui (handleDeleteGroup collate groupId groupName true true
                  refetch (World s tr)).2 in
  (x ∉ exercises_table (tables (server s'))) /\
  (forall e, e ∈ workout_entries_table (tables (server s')) ->
             exercise_id e <> id x).
Proof.
  intros Hlist Hx Hg s'. subst s'. run_handler. simpl.
  destruct (List.filter _ _) as [|y l] eqn:Hnone; simpl.
  2: { exfalso. assert (Hy : y ∈ List.filter
         (fun ex => bool_decide (group_id ex = groupId)) (exercises s)).
       { rewrite Hnone. by apply elem_of_cons; left. }
       apply list_elem_of_In, filter_In in Hy as [Hy Hb].
       apply bool_decide_eq_true in Hb. apply list_elem_of_In in Hy.
       by apply (Hlist y). }
  assert (Hgoal :
    (x ∉ exercises_table (tables (delete_group (server s) groupId))) /\
    (forall e, e ∈ workout_entries_table
                     (tables (delete_group (server s) groupId)) ->
               exercise_id e <> id x)).
  { unfold delete_group. simpl. split.
    - intros [Hne _]%list_elem_of_filter. done.
    - intros e [Hne _]%list_elem_of_filter Hid. apply Hne.
      apply list_elem_of_fmap. exists x. split; [done|].
      by apply list_elem_of_filter. }
  destruct refetch; simpl; exact Hgoal.
Qed.

Lemma flat_map_ext_elem {A B} (f g : A -> list B) (l : list A) :
  (forall a, a ∈ l -> f a = g a) -> flat_map f l = flat_map g l.
Proof.
  induction l as [|a l IH]; intros Hfg; simpl; [done|].
  rewrite (Hfg a) by (by apply elem_of_cons; left).
  rewrite IH; [done|]. intros b Hb. apply Hfg. by apply elem_of_cons; right.
Qed.

Lemma partition_by_group (ks : list exercise_group) (l : list exercise) :
  NoDup (map g_id ks) ->
  (forall x, x ∈ l -> group_id x ∈ map g_id ks) ->
  (flat_map
     (fun group =>
        List.filter (fun ex => bool_decide (group_id ex = g_id group)) l)
     ks) ≡ₚ l.
Proof.
  revert l. induction ks as [|k ks IH]; intros l Hnd Hall; simpl.
  - destruct l as [|x l]; [done|].
    exfalso. eapply elem_of_nil, (Hall x). by apply elem_of_cons; left.
  - apply NoDup_cons in Hnd as [Hk Hnd].
    set (rest := List.filter (fun ex => negb (bool_decide (group_id ex = g_id k))) l).
    assert (Hsame :
      (flat_map (fun group =>
                   List.filter (fun ex => bool_decide (group_id ex = g_id group)) l) ks)
      = (flat_map (fun group =>
                   List.filter (fun ex => bool_decide (group_id ex = g_id group)) rest) ks)).
    { apply flat_map_ext_elem. intros g Hg.
      subst rest. clear -Hk Hg. induction l as [|x l IHl]; simpl; [done|].
      destruct (decide (group_id x = g_id k)) as [Hxk|Hxk].
      - rewrite (bool_decide_eq_true_2 (group_id x = g_id k)) by done. simpl.
        rewrite (bool_decide_eq_false_2 (group_id x = g_id g)); [done|].
        intros Hxg. apply Hk. apply list_elem_of_fmap. exists g.
        split; [congruence|done].
      - rewrite (bool_decide_eq_false_2 (group_id x = g_id k)) by done. simpl.
        destruct (bool_decide (group_id x = g_id g)); by rewrite IHl. }
    rewrite Hsame, (IH rest Hnd).
    + subst rest. clear. induction l as [|x l IHl]; simpl; [done|].
      destruct (bool_decide (group_id x = g_id k)); simpl.
      * by constructor.
      * rewrite <- Permutation_middle. by constructor.
    + intros x Hx. subst rest.
      apply list_elem_of_In, filter_In in Hx as [Hx Hb].
      apply negb_true_iff, bool_decide_eq_false in Hb.
      apply list_elem_of_In in Hx.
      specialize (Hall x Hx). simpl in Hall.
      apply elem_of_cons in Hall as [?|?]; done.
Qed.

(** X21: the All Exercises section is drawn group by group.  With a store that
    keeps its constraints and lists that show it, every stored exercise is
    drawn exactly once: the blocks together are a rearrangement of the
    stored exercises. *)
Theorem every_exercise_drawn_once (s : state) :
  consistent (server s) -> in_sync s ->
  exercises_shown s ≡ₚ exercises_table (tables (server s)).
Proof.
  intros (Hgi & _ & _ & _ & Hfk & _) [Hex Hgr].
  rewrite <- Hex. apply partition_by_group.
  - unfold group_ids in Hgi. by rewrite Hgr.
  - intros x Hx. rewrite Hex in Hx. rewrite Hgr. by apply Hfk.
Qed.

(** X22: a name already stored is refused.  The add of an exercise whose
    trimmed name is the name of a stored exercise changes neither the
    store nor the lists nor what was typed; it ends with [loading] false
    and the one effect is the Error toast. *)
Theorem duplicate_exercise_name_refused
    (s : state) (tr : list effect) (new_id : string) (online refetch : bool) :
  trim (newExerciseName s) <> EmptyString ->
  selectedGroupForExercise s <> EmptyString ->
  trim (newExerciseName s)
    ∈ map Store.name (exercises_table (tables (server s))) ->
  handleAddExercise collate trim new_id online refetch (World s tr)
  = (Returns tt,
     World (setLoading false s)
       (tr ++ [Notify (destructive "Error"
                         "Failed to add exercise. It might already exist.")])).
Proof.
  intros Hname%truthy_spec Hgroup%truthy_spec Hdup. run_handler. simpl.
  rewrite Hname, Hgroup. simpl.
  unfold insert_exercise.
  rewrite (bool_decide_eq_true_2 _ Hdup). simpl.
  by destruct online.
Qed.

End ManagementFacts.

Section ManagementWitnesses.

Import Catalog Management ManagementScenario.

Lemma loaded_in_sync : in_sync loaded.
Proof. split; reflexivity. Qed.

Lemma session_answered : Forall answered session.
Proof. repeat constructor. Qed.

Lemma confirming_screen_stays_in_sync_witness :
  Forall answered session /\ in_sync loaded /\
  in_sync (ui (run String.leb (fun n => n) session (World loaded []))).
Proof.
  split; [exact session_answered|]. split; [exact loaded_in_sync|].
  exact (confirming_screen_stays_in_sync String.leb (fun n => n) session
           (World loaded []) session_answered loaded_in_sync).
Defined.

Lemma rows_outlive_all_but_their_exercise_delete_witness :
  Forall answered session /\ in_sync loaded /\
  Scenario.squat
    ∈ exercises_table
        (tables (server (ui (run String.leb (fun n => n) session
                               (World loaded []))))).
Proof.
  split; [exact session_answered|]. split; [exact loaded_in_sync|].
  apply (proj2 (rows_outlive_all_but_their_exercise_delete String.leb
                  (fun n => n) session (World loaded []) session_answered
                  loaded_in_sync) Scenario.squat).
  - in_list.
  - intros name refetch Hin. unfold session in Hin.
    repeat (apply elem_of_cons in Hin as [Hin|Hin]; [discriminate Hin|]).
    by apply elem_of_nil in Hin.
Defined.

Lemma deleting_screen_stays_in_sync_witness :
  in_sync loaded /\
  in_sync (ui (handleDeleteGroup2 String.leb "g1" true true
                 (World loaded [])).2).
Proof.
  split; [exact loaded_in_sync|].
  exact (proj2 (proj2 (proj2
    (deleting_screen_stays_in_sync String.leb loaded [] "e4" "e3" "g1" true
       loaded_in_sync)))).
Defined.

Lemma guarded_group_delete_spares_exercises_witness :
  exercises loaded ≡ₚ exercises_table (tables (server loaded)) /\
  (exists x, x ∈ exercises loaded /\ group_id x = "g1") /\
  (handleDeleteGroup String.leb "g1" "Legs" true true true (World loaded [])).2
  = World loaded
      [Notify (destructive "Cannot Delete"
                 ("Please delete all exercises in " +:+ quoted "Legs"
                  +:+ " first"))].
Proof.
  assert (Hsync : exercises loaded ≡ₚ exercises_table (tables (server loaded)))
    by reflexivity.
  assert (Hex : exists x, x ∈ exercises loaded /\ group_id x = "g1").
  { exists Scenario.squat. split; [|reflexivity]. in_list. }
  split; [exact Hsync|]. split; [exact Hex|].
  exact (proj2 (guarded_group_delete_spares_exercises String.leb loaded []
                  "g1" "Legs" true true true Hsync) Hex).
Defined.

Lemma stale_list_lets_group_delete_cascade_witness :
  (forall y, y ∈ exercises blank -> group_id y <> "g1") /\
  Scenario.squat ∈ exercises_table (tables (server blank)) /\
  (Scenario.squat
     ∉ exercises_table
         (tables (server (ui (handleDeleteGroup String.leb "g1" "Legs" true
                                true true (World blank [])).2)))).
Proof.
  assert (Hlist : forall y, y ∈ exercises blank -> group_id y <> "g1").
  { intros y Hy. by apply elem_of_nil in Hy. }
  assert (Hin : Scenario.squat ∈ exercises_table (tables (server blank))).
  { in_list. }
  split; [exact Hlist|]. split; [exact Hin|].
  exact (proj1 (stale_list_lets_group_delete_cascade String.leb blank []
                  "g1" "Legs" true Scenario.squat Hlist Hin eq_refl)).
Defined.

Lemma every_exercise_drawn_once_witness :
  consistent (server loaded) /\ in_sync loaded /\
  exercises_shown loaded ≡ₚ exercises_table (tables (server loaded)).
Proof.
  split; [exact gym_consistent|]. split; [exact loaded_in_sync|].
  exact (every_exercise_drawn_once loaded gym_consistent loaded_in_sync).
Defined.

Lemma duplicate_exercise_name_refused_witness :
  handleAddExercise String.leb (fun n => n) "e4" true true (World typed [])
  = (Returns tt,
     World (setLoading false typed)
       [Notify (destructive "Error"
                  "Failed to add exercise. It might already exist.")]).
Proof.
  apply (duplicate_exercise_name_refused String.leb (fun n => n) typed []
           "e4" true true).
  - discriminate.
  - discriminate.
  - compute_done.
Defined.

End ManagementWitnesses.

Section DeletingScreen.

Import Catalog Management ManagementScenario.

Variable collate : string -> string -> bool.

(** X23: on the screen that deletes at once, a click on a group's delete button
    that reaches the store takes the group, every stored exercise of the
    group and every entry of those exercises, with no guard and no confirm;
    the first effect is the toast that reports success. *)
Theorem unguarded_group_delete_cascades
    (s : state) (tr : list effect) (groupId : string) (refetch : bool)
    (x : exercise) :
  x ∈ exercises_table (tables (server s)) ->
  group_id x = groupId ->
  let run := handleDeleteGroup2 collate groupId true refetch (World s tr) in
  let c' := server (ui run.2) in
  (groupId ∉ group_ids c') /\
  (x ∉ exercises_table (tables c')) /\
  (forall e, e ∈ workout_entries_table (tables c') -> exercise_id e <> id x) /\
  exists rest,
    trace run.2
    = tr ++ Notify (success "Exercise group deleted successfully") :: rest.
Proof.
  intros Hx Hg run c'. subst run c'.
  cbv [handleDeleteGroup2 fetchExercises fetchExerciseGroups request
       mbind mret handler_bind handler_ret bind ret get modify emit toast].
  simpl.
  assert (Hgoal :
    (groupId ∉ group_ids (delete_group (server s) groupId)) /\
    (x ∉ exercises_table (tables (delete_group (server s) groupId))) /\
    (forall e, e ∈ workout_entries_table
                     (tables (delete_group (server s) groupId)) ->
               exercise_id e <> id x)).
  { unfold delete_group, group_ids. simpl. split_and!.
    - intros (g & Hid & [Hne _]%list_elem_of_filter)%list_elem_of_fmap. done.
    - intros [Hne _]%list_elem_of_filter. done.
    - intros e [Hne _]%list_elem_of_filter Hid. apply Hne.
      apply list_elem_of_fmap. exists x. split; [done|].
      by apply list_elem_of_filter. }
  destruct Hgoal as (H1 & H2 & H3).
  destruct refetch; simpl; (split_and!; [exact H1|exact H2|exact H3|]);
    rewrite <- !app_assoc; simpl; by eexists.
Qed.

End DeletingScreen.

Section DeletingScreenWitness.

Import Catalog Management ManagementScenario.

Lemma unguarded_group_delete_cascades_witness :
  Scenario.squat ∈ exercises_table (tables (server loaded)) /\
  workout_entries_table
    (tables (server (ui (handleDeleteGroup2 String.leb "g1" true true
                           (World loaded [])).2)))
  = [Entry "e3" 2000 10 20000 (Civil 2024 3 8) (Some Scenario.curl)] /\
  (Scenario.squat
     ∉ exercises_table
         (tables (server (ui (handleDeleteGroup2 String.leb "g1" true true
                                (World loaded [])).2)))).
Proof.
  assert (Hin : Scenario.squat ∈ exercises_table (tables (server loaded)))
    by in_list.
  split; [exact Hin|]. split; [reflexivity|].
  exact (proj1 (proj2 (unguarded_group_delete_cascades String.leb loaded [] "g1" true
                         Scenario.squat Hin eq_refl))).
Defined.

End DeletingScreenWitness.

Section EntryFormWitnesses.

Lemma scenario_stored_ok : stored_ok Scenario.db.
Proof. unfold stored_ok. repeat constructor. Qed.

Lemma workout_form_submit_witness :
  let parseFloat := fun t : string =>
    if bool_decide (t = "80") then Some 8000 else None in
  let parseInt := fun t : string =>
    if bool_decide (t = "10") then Some 10 else None in
  let s := WorkoutEntry.State "e1" "80" "10" (Some Scenario.now) false
             Scenario.db in
  let run := WorkoutEntry.handleSubmit parseFloat parseInt true Scenario.now
               (World s []) in
  workout_entries_table (WorkoutEntry.server (ui run.2))
  = workout_entries_table Scenario.db ++
    [Entry "e1" 8000 10 80000 (Civil 2024 3 10) (Some Scenario.squat)] /\
  stored_ok (WorkoutEntry.server (ui run.2)).
Proof.
  intros parseFloat parseInt s run. split; [reflexivity|].
  exact (proj1 (proj2 (proj2
    (workout_form_submit parseFloat parseInt true Scenario.now (World s []))))
    scenario_stored_ok).
Defined.

Lemma workout_form2_submit_witness :
  let parseFloat := fun t : string =>
    if bool_decide (t = "80") then Some 8000 else None in
  let parseInt := fun t : string =>
    if bool_decide (t = "10") then Some 10 else None in
  let s := WorkoutEntry2.State "e1" "80" "10" false Scenario.db in
  let run := WorkoutEntry2.handleSubmit parseFloat parseInt true
               (Civil 2024 3 10) (World s []) in
  workout_entries_table (WorkoutEntry2.server (ui run.2))
  = workout_entries_table Scenario.db ++
    [Entry "e1" 8000 10 80000 (Civil 2024 3 10) (Some Scenario.squat)] /\
  stored_ok (WorkoutEntry2.server (ui run.2)).
Proof.
  intros parseFloat parseInt s run. split; [reflexivity|].
  exact (proj1 (proj2 (proj2
    (workout_form2_submit parseFloat parseInt true (Civil 2024 3 10)
       (World s []))))
    scenario_stored_ok).
Defined.

End EntryFormWitnesses.
